(** * Org Health Analyzer (spans and layers): a shallow embedding of [app.py]

    The development follows the script top to bottom: the tables picked out
    of the uploaded workbook, [compute_metrics] (direct-report counts, the
    breadth-first depth assignment, the one-time seeding of the session
    cache from the Principles sheet), then the KPIs, the flagged subsets,
    the duplicate-title table and the recommendation list.

    Conventions.
    - A pandas table is a list of rows in row order; a column that may hold
      a missing value (NaN) is an [option].
    - Identifiers are strings: the script converts every identifier column
      with [astype(str)] before it uses it.
    - A Python [dict] is a [gmap]; a Python [set] is a [gset] together with
      an iteration order [set_iter], about which nothing is known except
      that it enumerates the set.
    - [st.error] followed by [st.stop], and an exception that nothing
      catches, are outcomes of the run, next to the normal return.
    - [load_any], [pick] and [_standardize] act where the workbook enters:
      [Sheets] holds what the three calls of [pick] return, cells already
      stripped. The uploaded workbook itself is a list of named frames, a
      frame a list of columns of cells; what [pd.read_csv] and
      [pd.ExcelFile] make of the file is part of the upload. A missing
      value turns into the text [nan] under [astype(str)], as pandas 2
      has it; texts are taken to be ASCII.
    - Of a frame the model keeps the columns the script asks for by name.
      Two more column names matter, because a merge renames columns that
      both of its sides have: a DirectReports column on the Employees
      sheet makes line 79 raise, a JobRole column on the OrgEdges sheet
      (next to the one of the Employees sheet) makes line 163 raise.
    - The mean and the median span are kept as exact fractions. Charts and
      widgets other than the three targets are left out; the calls that
      only display ([st.metric], [st.dataframe], [st.plotly_chart],
      [st.write]) are taken to return. *)

From Stdlib Require Import Ascii String QArith.QArith_base.
From stdpp Require Import gmap strings list fin_maps pretty sorting.

Close Scope Q_scope.
Open Scope string_scope.
Open Scope list_scope.
Open Scope nat_scope.

(** ** Tables *)

(** One row of the Employees sheet. [FullName] is the cell as the script
    prints it; [JobRole] and [ManagerID] may be missing values. *)
Record Employee := mkEmployee {
  EmployeeID : string;
  FullName : string;
  JobRole : option string;
  ManagerID : option string
}.

(** The Employees sheet: which of the columns the script asks for by name
    it has, and its rows. A column named DirectReports matters because the
    merge of line 78 brings one of its own. *)
Record EmployeesTable := mkEmployees {
  has_FullName : bool;
  has_JobRole : bool;
  has_ManagerID : bool;
  has_DirectReports : bool;
  emp_rows : list Employee
}.

(** One row of the OrgEdges sheet. *)
Record Edge := mkEdge {
  edge_EmployeeID : string;
  edge_ManagerID : string
}.

(** One row of the Principles sheet; [TargetRule] is [inl s] for a text
    cell and [inr s] for a cell of another type whose [str()] is [s]. *)
Record Principle := mkPrinciple {
  Name : string;
  TargetRule : string + string
}.

(** The three tables [pick] looks for; [None] when no sheet name contains
    the fragment. [edges_has_JobRole] tells whether the OrgEdges sheet has
    a column named JobRole, which matters to the merge of line 162. *)
Record Sheets := mkSheets {
  employees : option EmployeesTable;
  edges : option (list Edge);
  principles : option (list Principle);
  edges_has_JobRole : bool
}.

(** [st.session_state], restricted to the keys the script uses. *)
Record Session := mkSession {
  prefilled_from_principles : option bool;
  cached_min_span : option nat;
  cached_max_span : option nat;
  cached_max_layers : option nat
}.

Definition fresh_session : Session := mkSession None None None None.

(** The sidebar widgets: what [st.number_input] returns on this run. *)
Record Targets := mkTargets {
  min_span : nat;
  max_span : nat;
  max_layers_target : nat
}.

(** The values the widgets are created with (lines 21-23). *)
Definition default_targets : Targets := mkTargets 4 12 6.

(** A row of the annotated table [emp]. *)
Record EmpRow := mkEmpRow {
  base : Employee;
  DirectReports : nat;
  IsManager : bool;
  Depth : nat
}.

(** How a run of a piece of the script ends. *)
Inductive outcome (A : Type) : Type :=
  | Returned (a : A)
  | Stopped (msg : string)      (* st.error(msg); st.stop() *)
  | Raised (exn : string)       (* an exception nothing catches *)
  | OutOfFuel.                  (* the model's loop budget ran out *)
Arguments Returned {A} a.
Arguments Stopped {A} msg.
Arguments Raised {A} exn.
Arguments OutOfFuel {A}.

Definition obind {A B} (o : outcome A) (k : A → outcome B) : outcome B :=
  match o with
  | Returned a => k a
  | Stopped m => Stopped m
  | Raised e => Raised e
  | OutOfFuel => OutOfFuel
  end.

Notation "x ←← o ;; k" := (obind o (λ x, k))
  (at level 100, o at next level, k at level 200, right associativity).

(** ** Direct-report counts (lines 67-80) *)

(** [df.groupby(key)[col].count()]: rows with a missing key form no group;
    the counted column (EmployeeID) never holds a missing value. *)
Definition groupby_count (keys : list (option string)) : gmap string nat :=
  fold_left
    (λ acc k, match k with
              | Some m => <[m := S (default 0 (acc !! m))]> acc
              | None => acc
              end)
    keys ∅.

(** The key column of the reporting source the script chose. *)
Definition manager_keys_of_edges (es : list Edge) : list (option string) :=
  (λ e, Some (edge_ManagerID e)) <$> es.

Definition manager_keys_of_employees (rows : list Employee)
  : list (option string) :=
  ManagerID <$> rows.

(** The left merge on EmployeeID against the index of [mgr_counts],
    followed by [fillna(0)]. *)
Definition direct_reports (mgr_counts : gmap string nat) (eid : string) : nat :=
  default 0 (mgr_counts !! eid).

(** ** Adjacency and roots (lines 83-94) *)

(** [parent_of[m].add(c)] for every (manager, subordinate) pair in row
    order, on a [defaultdict(set)]. *)
Definition build_parent_of (links : list (string * string))
  : gmap string (gset string) :=
  fold_left
    (λ po '(m, c), <[m := default ∅ (po !! m) ∪ {[c]}]> po)
    links ∅.

Definition links_of_edges (es : list Edge) : list (string * string) :=
  (λ e, (edge_ManagerID e, edge_EmployeeID e)) <$> es.

(** [employees.dropna(subset=['ManagerID'])]. *)
Definition links_of_employees (rows : list Employee) : list (string * string) :=
  omap (λ r, (λ m, (m, EmployeeID r)) <$> ManagerID r) rows.

(** Python's order on [str]. *)
Definition str_le (a b : string) : Prop := String.leb a b.

Global Instance str_le_dec a b : Decision (str_le a b).
Proof. unfold str_le. apply _. Defined.

(** [sorted(list(parents - children)) or []]. *)
Definition roots_of_edges (es : list Edge) : list string :=
  let children : gset string := list_to_set (edge_EmployeeID <$> es) in
  let parents : gset string := list_to_set (edge_ManagerID <$> es) in
  merge_sort str_le (elements (parents ∖ children)).

(** [Series.unique()]: first occurrences, in order of appearance. *)
Fixpoint unique (l : list string) : list string :=
  match l with
  | [] => []
  | x :: l' => x :: filter (λ y, y ≠ x) (unique l')
  end.

(** [Series.isin]: a missing value is in no list of strings. *)
Definition isin (m : option string) (ids : list string) : bool :=
  match m with
  | Some s => bool_decide (s ∈ ids)
  | None => false
  end.

(** [emp.loc[~emp['ManagerID'].isin(emp['EmployeeID']), 'EmployeeID']
       .unique().tolist()]. *)
Definition roots_of_employees (rows : list Employee) : list string :=
  let ids := EmployeeID <$> rows in
  unique (EmployeeID <$> filter (λ r, isin (ManagerID r) ids = false) rows).

(** ** Depth by breadth-first traversal (lines 96-110) *)

(** The dict [depth]: a key may hold [None] (not assigned yet). *)
Abbreviation depth_map := (gmap string (option nat)).

(** [depth.get(k) is None]: the key is missing or holds [None]. *)
Definition is_unset (d : depth_map) (k : string) : bool :=
  match d !! k with
  | Some (Some _) => false
  | _ => true
  end.

(** [depth.get(k, 0) or 0]. *)
Definition depth_or_0 (d : depth_map) (k : string) : nat :=
  match d !! k with
  | Some (Some n) => n
  | _ => 0
  end.

(** [{eid: None for eid in emp['EmployeeID']}]. *)
Definition init_depth (ids : list string) : depth_map :=
  fold_left (λ d eid, <[eid := None]> d) ids ∅.

(** [if r in depth and depth[r] is None: depth[r] = 0]. *)
Definition start_root (d : depth_map) (r : string) : depth_map :=
  match d !! r with
  | Some None => <[r := Some 0]> d
  | _ => d
  end.

(** One turn of the inner [for ch in ...] loop, on the pair of the dict and
    the queue. *)
Definition visit_child (cur : string) (st : depth_map * list string)
    (ch : string) : depth_map * list string :=
  let '(d, q) := st in
  if is_unset d ch
  then (<[ch := Some (depth_or_0 d cur + 1)]> d, q ++ [ch])
  else (d, q).

Section traversal.

(** The order in which Python iterates over a set. *)
Variable set_iter : gset string → list string.

(** [parent_of.get(cur, [])], as the sequence the [for] loop walks. *)
Definition children_of (po : gmap string (gset string)) (cur : string)
  : list string :=
  match po !! cur with
  | Some s => set_iter s
  | None => []
  end.

(** The [while q] loop. Each turn pops [cur] and runs the inner loop; the
    budget [fuel] counts turns. *)
Fixpoint bfs (fuel : nat) (po : gmap string (gset string))
    (d : depth_map) (q : list string) : option depth_map :=
  match q with
  | [] => Some d
  | cur :: q' =>
      match fuel with
      | 0 => None
      | S fuel' =>
          let '(d', q'') :=
            fold_left (visit_child cur) (children_of po cur) (d, q') in
          bfs fuel' po d' q''
      end
  end.

(** The [for r in roots] loop. *)
Fixpoint bfs_roots (fuel : nat) (po : gmap string (gset string))
    (roots : list string) (d : depth_map) : option depth_map :=
  match roots with
  | [] => Some d
  | r :: rs =>
      match bfs fuel po (start_root d r) [r] with
      | Some d' => bfs_roots fuel po rs d'
      | None => None
      end
  end.

(** A budget that always suffices for one root: one turn for the root and
    one for every identifier that can be enqueued, which are the
    subordinates of the links. *)
Definition bfs_budget (links : list (string * string)) : nat :=
  S (size (list_to_set (links.*2) : gset string)).

(** Lines 96-109: the dict after the traversal, with every remaining
    [None] replaced by 0. *)
Definition compute_depth (links : list (string * string))
    (roots ids : list string) : option (gmap string nat) :=
  match bfs_roots (bfs_budget links) (build_parent_of links) roots
          (init_depth ids) with
  | Some d => Some (default 0 <$> d)
  | None => None
  end.

(** Line 110: [emp['EmployeeID'].map(depth).fillna(0).astype(int)]. *)
Definition depth_column (depth : gmap string nat) (eid : string) : nat :=
  default 0 (depth !! eid).

End traversal.

(** ** Reading the Principles sheet (lines 113-131) *)

Definition is_digit (c : ascii) : bool :=
  let n := nat_of_ascii c in bool_decide (48 ≤ n ≤ 57).

Definition is_upper (c : ascii) : bool :=
  let n := nat_of_ascii c in bool_decide (65 ≤ n ≤ 90).

(** Python's [str.isspace] on ASCII. *)
Definition is_space (c : ascii) : bool :=
  let n := nat_of_ascii c in
  bool_decide (9 ≤ n ≤ 13 ∨ 28 ≤ n ≤ 32).

Definition lower_char (c : ascii) : ascii :=
  if is_upper c then ascii_of_nat (nat_of_ascii c + 32) else c.

Fixpoint lower (s : string) : string :=
  match s with
  | EmptyString => EmptyString
  | String c s' => String (lower_char c) (lower s')
  end.

(** [pat in s]. *)
Fixpoint contains (pat s : string) : bool :=
  String.prefix pat s ||
  match s with
  | EmptyString => false
  | String _ s' => contains pat s'
  end.

(** [Series.str.contains(pat, case=False)] on one cell, for a pattern
    without regular-expression operators. *)
Definition contains_nocase (pat s : string) : bool :=
  contains (lower pat) (lower s).

(** [s.split(sep)] for a one-character separator: the pieces between the
    occurrences of [sep], empty pieces included. *)
Fixpoint split_on (sep : ascii) (s : string) : list string :=
  match s with
  | EmptyString => [EmptyString]
  | String c s' =>
      if bool_decide (c = sep) then EmptyString :: split_on sep s'
      else match split_on sep s' with
           | [] => [String c EmptyString]
           | piece :: pieces => String c piece :: pieces
           end
  end.

(** [s.split()]: the maximal runs of non-space characters. [cur] is the
    run being read, reversed. *)
Fixpoint split_ws_aux (cur : list ascii) (s : string) : list string :=
  let flush := match cur with
               | [] => []
               | _ => [string_of_list_ascii (rev cur)]
               end in
  match s with
  | EmptyString => flush
  | String c s' =>
      if is_space c then flush ++ split_ws_aux [] s'
      else split_ws_aux (c :: cur) s'
  end.

Definition split_ws (s : string) : list string := split_ws_aux [] s.

(** [''.join(filter(str.isdigit, s))]. *)
Fixpoint digits_of (s : string) : string :=
  match s with
  | EmptyString => EmptyString
  | String c s' =>
      if is_digit c then String c (digits_of s') else digits_of s'
  end.

(** [s.isdigit()]: non-empty, digits only. *)
Definition isdigit (s : string) : bool :=
  match s with
  | EmptyString => false
  | _ => bool_decide (digits_of s = s)
  end.

Fixpoint decimal_value (acc : nat) (s : string) : nat :=
  match s with
  | EmptyString => acc
  | String c s' => decimal_value (10 * acc + (nat_of_ascii c - 48)) s'
  end.

(** [int(s)] on a string of digits; [None] is the [ValueError] that
    [int('')] raises. *)
Definition int_of_digits (s : string) : option nat :=
  if isdigit s then Some (decimal_value 0 s) else None.

Definition set_min_span (ss : Session) (n : nat) : Session :=
  mkSession (prefilled_from_principles ss) (Some n)
            (cached_max_span ss) (cached_max_layers ss).

Definition set_max_span (ss : Session) (n : nat) : Session :=
  mkSession (prefilled_from_principles ss) (cached_min_span ss)
            (Some n) (cached_max_layers ss).

Definition set_max_layers (ss : Session) (n : nat) : Session :=
  mkSession (prefilled_from_principles ss) (cached_min_span ss)
            (cached_max_span ss) (Some n).

Definition set_prefilled (ss : Session) : Session :=
  mkSession (Some true) (cached_min_span ss)
            (cached_max_span ss) (cached_max_layers ss).

(** [principles[principles['Name'].str.contains(pat, case=False)].iloc[0]
    ['TargetRule']]; [None] is the [IndexError] of [iloc[0]] on an empty
    selection. *)
Definition first_rule (pat : string) (ps : list Principle)
  : option (string + string) :=
  TargetRule <$> head (filter (λ p, contains_nocase pat (Name p) = true) ps).

(** The first [try] block (lines 114-123). Whatever was assigned before an
    exception stays assigned; the [except] clause only swallows it. *)
Definition seed_span (ps : list Principle) (ss : Session) : Session :=
  match first_rule "Span" ps with
  | Some (inl p_span) =>
      if contains "-" p_span then
        let pieces := split_on "-"%char p_span in
        match pieces !! 0, pieces !! 1 ≫= (λ piece, split_ws piece !! 0) with
        | Some lhs, Some rhs =>
            match int_of_digits (digits_of lhs) with
            | Some lo =>
                let ss1 := set_min_span ss lo in
                match int_of_digits (digits_of rhs) with
                | Some hi => set_max_span ss1 hi
                | None => ss1
                end
            | None => ss
            end
        | _, _ => ss
        end
      else ss
  | _ => ss
  end.

(** [str(p_layers)]. *)
Definition cell_text (c : string + string) : string :=
  match c with inl s => s | inr s => s end.

(** The second [try] block (lines 124-130). *)
Definition seed_layers (ps : list Principle) (ss : Session) : Session :=
  match first_rule "Layer" ps with
  | Some p_layers =>
      let nums :=
        omap (λ s, if isdigit s then int_of_digits s else None)
             (split_ws (cell_text p_layers)) in
      match nums with
      | n :: _ => set_max_layers ss n
      | [] => ss
      end
  | None => ss
  end.

(** Lines 113-131. *)
Definition prefill (principles : option (list Principle)) (ss : Session)
  : Session :=
  match principles with
  | Some ps =>
      if bool_decide (default false (prefilled_from_principles ss) = false)
      then set_prefilled (seed_layers ps (seed_span ps ss))
      else ss
  | None => ss
  end.

(** ** [compute_metrics] (lines 45-133) *)

Definition no_employees_msg : string :=
  "No Employees sheet/table found. Include at least EmployeeID, FullName/Name, JobRole, ManagerID (or provide OrgEdges).".

Definition no_reporting_msg : string :=
  "No OrgEdges sheet and no ManagerID column in Employees.".

(** The [KeyError] of a column that is not there. *)
Definition key_error (name : string) : string :=
  "KeyError: '" +:+ name +:+ "'".

Section script.

Variable set_iter : gset string → list string.

(** Lines 67-76: the grouped counts, or the halt of line 74. *)
Definition mgr_counts_of (et : EmployeesTable) (eg : option (list Edge))
  : outcome (gmap string nat) :=
  match eg with
  | Some es => Returned (groupby_count (manager_keys_of_edges es))
  | None =>
      if has_ManagerID et
      then Returned (groupby_count (manager_keys_of_employees (emp_rows et)))
      else Stopped no_reporting_msg
  end.

(** Lines 83-94: the pairs behind [parent_of], and the roots. *)
Definition links_of (et : EmployeesTable) (eg : option (list Edge))
  : list (string * string) :=
  match eg with
  | Some es => links_of_edges es
  | None => links_of_employees (emp_rows et)
  end.

Definition roots_of (et : EmployeesTable) (eg : option (list Edge))
  : list string :=
  match eg with
  | Some es => roots_of_edges es
  | None => roots_of_employees (emp_rows et)
  end.

(** Lines 78-80 and 110: a row of [emp]. *)
Definition annotate (mgr_counts : gmap string nat) (depth : gmap string nat)
    (r : Employee) : EmpRow :=
  let n := direct_reports mgr_counts (EmployeeID r) in
  mkEmpRow r n (bool_decide (0 < n)) (depth_column depth (EmployeeID r)).

(** The function returns [emp, employees, edges]; the second component of
    the result is [st.session_state] when the call ends. When the Employees
    sheet has a DirectReports column of its own, the merge of line 78
    renames both columns (suffixes [_x] and [_y]) and line 79 finds no
    column of that name. *)
Definition compute_metrics (sheets : Sheets) (ss : Session)
  : outcome (list EmpRow * EmployeesTable * option (list Edge)) * Session :=
  match employees sheets with
  | None => (Stopped no_employees_msg, ss)
  | Some et =>
      match mgr_counts_of et (edges sheets) with
      | Returned mgr_counts =>
          if has_DirectReports et
          then (Raised (key_error "DirectReports"), ss)
          else
            match compute_depth set_iter (links_of et (edges sheets))
                    (roots_of et (edges sheets))
                    (EmployeeID <$> emp_rows et) with
            | Some depth =>
                (Returned (annotate mgr_counts depth <$> emp_rows et,
                           et, edges sheets),
                 prefill (principles sheets) ss)
            | None => (OutOfFuel, ss)
            end
      | Stopped m => (Stopped m, ss)
      | Raised e => (Raised e, ss)
      | OutOfFuel => (OutOfFuel, ss)
      end
  end.

End script.

(** ** KPIs and flags (lines 144-158) *)

(** [manager_df = emp[emp['IsManager']]]. *)
Definition manager_df (emp : list EmpRow) : list EmpRow :=
  filter (λ r, IsManager r = true) emp.

(** [(n_managers / n_people) if n_people else 0]; the quotient of two
    Python integers is kept as the exact fraction. *)
Definition manager_ratio (n_managers n_people : nat) : Q :=
  if bool_decide (n_people ≠ 0)
  then (inject_Z (Z.of_nat n_managers) / inject_Z (Z.of_nat n_people))%Q
  else 0%Q.

(** [int(emp['Depth'].max())]: the maximum of an empty column is NaN, and
    [int] of NaN raises. *)
Definition max_depth_of (emp : list EmpRow) : outcome nat :=
  match emp with
  | [] => Raised "ValueError: cannot convert float NaN to integer"
  | _ => Returned (foldr Nat.max 0 (Depth <$> emp))
  end.

Definition below_min_of (tg : Targets) (mdf : list EmpRow) : list EmpRow :=
  filter (λ r, DirectReports r < min_span tg) mdf.

Definition above_max_of (tg : Targets) (mdf : list EmpRow) : list EmpRow :=
  filter (λ r, max_span tg < DirectReports r) mdf.

Definition single_report_of (mdf : list EmpRow) : list EmpRow :=
  filter (λ r, DirectReports r = 1) mdf.

(** ** Duplicate titles under one manager (lines 161-167) *)

Record DupRow := mkDupRow {
  dup_ManagerID : string;
  dup_JobRole : string;
  Count : nat
}.

(** [edges_table.merge(employees_table[['EmployeeID','JobRole']],
    on='EmployeeID', how='left')], reduced to the columns used afterwards:
    an edge without a matching employee keeps one row with a missing role. *)
Definition child_roles (es : list Edge) (rows : list Employee)
  : list (string * option string) :=
  es ≫= (λ e,
    match filter (λ r, EmployeeID r = edge_EmployeeID e) rows with
    | [] => [(edge_ManagerID e, None)]
    | matches => (λ r, (edge_ManagerID e, JobRole r)) <$> matches
    end).

(** [groupby(['ManagerID','JobRole'])['EmployeeID'].count()]: rows with a
    missing role form no group. *)
Definition role_counts (cr : list (string * option string))
  : gmap (string * string) nat :=
  fold_left
    (λ acc '(m, role),
       match role with
       | Some j => <[(m, j) := S (default 0 (acc !! (m, j)))]> acc
       | None => acc
       end)
    cr ∅.

(** The order of the group keys after [groupby]. *)
Definition key_le (a b : string * string * nat) : Prop :=
  String.ltb a.1.1 b.1.1 || (String.eqb a.1.1 b.1.1 && String.leb a.1.2 b.1.2).

Global Instance key_le_dec a b : Decision (key_le a b).
Proof. unfold key_le. apply _. Defined.

(** [sort_values('Count', ascending=False)] compares the counts only. *)
Definition count_ge (a b : DupRow) : Prop := Count b ≤ Count a.

Global Instance count_ge_dec a b : Decision (count_ge a b).
Proof. unfold count_ge. apply _. Defined.

Definition dup_titles_of (et : EmployeesTable) (eg : option (list Edge))
  : list DupRow :=
  match eg with
  | Some es =>
      if has_JobRole et then
        let groups :=
          merge_sort key_le
            (map_to_list (role_counts (child_roles es (emp_rows et)))) in
        let table := (λ g, mkDupRow g.1.1 g.1.2 g.2) <$> groups in
        merge_sort count_ge (filter (λ r, 2 ≤ Count r) table)
      else []
  | None => []
  end.

(** Lines 161-167 as the script runs them: when the edge table has a
    JobRole column of its own, the merge of line 162 renames both JobRole
    columns (suffixes [_x] and [_y]) and the [groupby] of line 163 finds
    none. *)
Definition dup_titles_table (edges_JobRole : bool) (et : EmployeesTable)
    (eg : option (list Edge)) : outcome (list DupRow) :=
  match eg with
  | Some _ =>
      if has_JobRole et && edges_JobRole
      then Raised (key_error "JobRole")
      else Returned (dup_titles_of et eg)
  | None => Returned (dup_titles_of et eg)
  end.

(** ** Recommendations (lines 210-225) *)

Definition layers_msg (max_depth target : nat) : string :=
  ("Reduce layers: current max depth " +:+ pretty max_depth +:+
   " exceeds target " +:+ pretty target +:+
   "; focus on middle layers for consolidation.")%string.

(** [r.get('FullName', r['EmployeeID'])]. *)
Definition display_name (has_name : bool) (r : EmpRow) : string :=
  if has_name then FullName (base r) else EmployeeID (base r).

Definition narrow_msg (has_name : bool) (tg : Targets) (r : EmpRow) : string :=
  (display_name has_name r +:+ " has a narrow span of " +:+
   pretty (DirectReports r) +:+ " (< " +:+ pretty (min_span tg) +:+
   ") — validate need for a distinct manager role or merge scope.")%string.

Definition wide_msg (has_name : bool) (tg : Targets) (r : EmpRow) : string :=
  (display_name has_name r +:+ " has " +:+ pretty (DirectReports r) +:+
   " direct reports (> " +:+ pretty (max_span tg) +:+
   ") — consider adding a lead layer or splitting scope.")%string.

Definition dup_msg (r : DupRow) : string :=
  ("Manager " +:+ dup_ManagerID r +:+ " has " +:+ pretty (Count r) +:+
   " '" +:+ dup_JobRole r +:+
   "' roles — assess overlap or broaden job scopes.")%string.

(** [recs] grows by [append], in program order. *)
Definition recs_of (has_name : bool) (tg : Targets) (max_depth : nat)
    (below_min above_max : list EmpRow) (dup_titles : list DupRow)
  : list string :=
  let recs := [] in
  let recs :=
    if bool_decide (max_layers_target tg < max_depth)
    then recs ++ [layers_msg max_depth (max_layers_target tg)]
    else recs in
  let recs :=
    fold_left (λ acc r, acc ++ [narrow_msg has_name tg r]) below_min recs in
  let recs :=
    fold_left (λ acc r, acc ++ [wide_msg has_name tg r]) above_max recs in
  fold_left (λ acc r, acc ++ [dup_msg r]) (take 20 dup_titles) recs.

(** ** The script after the upload (lines 140-225) *)

Record Report := mkReport {
  emp : list EmpRow;
  n_people : nat;
  n_managers : nat;
  ratio : Q;
  max_depth : nat;
  below_min : list EmpRow;
  above_max : list EmpRow;
  single_report : list EmpRow;
  dup_titles : list DupRow;
  recs : list string;
  shown : list string          (* recs[:50] *)
}.

Definition report_of (tg : Targets) (edges_JobRole : bool)
    (emp : list EmpRow) (et : EmployeesTable) (eg : option (list Edge))
  : outcome Report :=
  let n_people := length emp in
  let mdf := manager_df emp in
  let n_managers := length mdf in
  md ←← max_depth_of emp;;
  let below := below_min_of tg mdf in
  let above := above_max_of tg mdf in
  dups ←← dup_titles_table edges_JobRole et eg;;
  let recs := recs_of (has_FullName et) tg md below above dups in
  Returned (mkReport emp n_people n_managers
              (manager_ratio n_managers n_people) md
              below above (single_report_of mdf) dups recs (take 50 recs)).

(** One run of the script on the uploaded sheets, with the widgets at [tg]
    and the session state [ss]; the result comes with the session state
    the run leaves behind. *)
Definition run (set_iter : gset string → list string) (sheets : Sheets)
    (tg : Targets) (ss : Session) : outcome Report * Session :=
  let '(res, ss') := compute_metrics set_iter sheets ss in
  (r ←← res;; report_of tg (edges_has_JobRole sheets) r.1.1 r.1.2 r.2, ss').

(** The session states along a sequence of runs. *)
Fixpoint session_trace (set_iter : gset string → list string)
    (uploads : list (Sheets * Targets)) (ss : Session) : list Session :=
  match uploads with
  | [] => [ss]
  | (sheets, tg) :: rest =>
      ss :: session_trace set_iter rest (run set_iter sheets tg ss).2
  end.

(** ** The span KPIs (lines 149-152) and the headcount by layer (line 190) *)

(** [manager_df['DirectReports']]. *)
Definition spans_of (mdf : list EmpRow) : list nat := DirectReports <$> mdf.

(** [manager_df['DirectReports'].mean() if n_managers else 0], the mean
    kept as the exact fraction. *)
Definition avg_span (mdf : list EmpRow) : Q :=
  if bool_decide (length mdf ≠ 0)
  then (inject_Z (Z.of_nat (sum_list (spans_of mdf)))
        / inject_Z (Z.of_nat (length mdf)))%Q
  else 0%Q.

(** [Series.median()]: the middle value of the sorted column, or the mean
    of the two middle values. *)
Definition median_of (l : list nat) : Q :=
  let s := merge_sort (≤) l in
  let n := length s in
  let lo := s !!! (n / 2 - 1) in
  let hi := s !!! (n / 2) in
  if Nat.even n
  then (inject_Z (Z.of_nat (lo + hi)) / inject_Z 2)%Q
  else inject_Z (Z.of_nat hi).

Definition median_span (mdf : list EmpRow) : Q :=
  if bool_decide (length mdf ≠ 0) then median_of (spans_of mdf) else 0%Q.

(** [Series.min()] and [Series.max()] of a column with at least one
    value. *)
Definition min_of (l : list nat) : nat :=
  match l with
  | [] => 0
  | x :: l' => foldr Nat.min x l'
  end.

Definition max_of (l : list nat) : nat := foldr Nat.max 0 l.

Definition min_observed (mdf : list EmpRow) : nat :=
  if bool_decide (length mdf ≠ 0) then min_of (spans_of mdf) else 0.

Definition max_observed (mdf : list EmpRow) : nat :=
  if bool_decide (length mdf ≠ 0) then max_of (spans_of mdf) else 0.

(** [emp.groupby('Depth')['EmployeeID'].count()]. *)
Definition depth_counts (depths : list nat) : gmap nat nat :=
  fold_left (λ acc k, <[k := S (default 0 (acc !! k))]> acc) depths ∅.

Definition layer_le (a b : nat * nat) : Prop := a.1 ≤ b.1.

Global Instance layer_le_dec a b : Decision (layer_le a b).
Proof. unfold layer_le. apply _. Defined.

(** [layers]: one row (Depth, Headcount) per depth that occurs, by
    increasing depth. *)
Definition layers_of (emp : list EmpRow) : list (nat * nat) :=
  merge_sort layer_le (map_to_list (depth_counts (Depth <$> emp))).

(** ** The workbook as uploaded (lines 27-55 and 61-69) *)

(** A cell of a DataFrame: a missing value, or a value given by the text
    [str] makes of it. *)
Inductive cell :=
  | NaN
  | Val (text : string).

(** [str(x)] for a cell, as [astype(str)] applies it. *)
Definition str_of (c : cell) : string :=
  match c with
  | NaN => "nan"
  | Val s => s
  end.

(** A column: its name, whether its dtype is [object], its cells from the
    first row to the last. All columns of a frame have the same number of
    cells and different names. *)
Record Column := mkColumn {
  col_name : string;
  is_object : bool;
  cells : list cell
}.

Abbreviation DataFrame := (list Column).

(** [str.lstrip()], [str.rstrip()] and [str.strip()]. *)
Fixpoint lstrip (s : string) : string :=
  match s with
  | EmptyString => EmptyString
  | String c s' => if is_space c then lstrip s' else s
  end.

Fixpoint rstrip (s : string) : string :=
  match s with
  | EmptyString => EmptyString
  | String c s' =>
      match rstrip s' with
      | EmptyString => if is_space c then EmptyString else String c EmptyString
      | t => String c t
      end
  end.

Definition strip (s : string) : string := rstrip (lstrip s).

(** [_standardize] (lines 38-42): every column of dtype [object] is
    replaced by its texts, stripped. *)
Definition standardize_column (c : Column) : Column :=
  if is_object c
  then mkColumn (col_name c) true ((λ x, Val (strip (str_of x))) <$> cells c)
  else c.

Definition standardize (df : DataFrame) : DataFrame :=
  standardize_column <$> df.

(** [s.endswith(suf)]. *)
Fixpoint ends_with (suf s : string) : bool :=
  String.eqb s suf ||
  match s with
  | EmptyString => false
  | String _ s' => ends_with suf s'
  end.

(** The uploaded file: its name, and what [pd.read_csv] and
    [pd.ExcelFile] make of it (sheet names in the order of the workbook,
    each with its parsed frame). *)
Record Upload := mkUpload {
  file_name : string;
  read_csv : outcome DataFrame;
  read_excel : outcome (list (string * DataFrame))
}.

(** [load_any] (lines 27-34). *)
Definition load_any (file : Upload) : outcome (list (string * DataFrame)) :=
  if ends_with ".csv" (lower (file_name file))
  then df ←← read_csv file;; Returned [("Employees", df)]
  else read_excel file.

(** [pick] (lines 47-51): the first sheet, in the order of the dict, whose
    name contains the fragment, letter case apart. *)
Fixpoint pick (sheets : list (string * DataFrame)) (name : string)
  : option DataFrame :=
  match sheets with
  | [] => None
  | (k, df) :: rest =>
      if contains (lower name) (lower k)
      then Some (standardize df)
      else pick rest name
  end.

(** [df[name]]; [None] is the [KeyError]. *)
Definition column (df : DataFrame) (name : string) : option Column :=
  head (filter (λ c, col_name c = name) df).

(** The cell of row [i]. *)
Definition cell_at (c : Column) (i : nat) : cell :=
  default NaN (cells c !! i).

(** The Employees frame as the rest of the script reads it: lines 62-64
    turn EmployeeID and ManagerID into texts; FullName is only printed;
    JobRole is a grouping key, for which a missing value counts as
    missing; of a column named DirectReports only the presence matters
    (line 79). No other column is asked for by name. *)
Definition employees_of (df : DataFrame) : outcome EmployeesTable :=
  match column df "EmployeeID" with
  | None => Raised (key_error "EmployeeID")
  | Some ids =>
      Returned
        (mkEmployees
           (bool_decide (is_Some (column df "FullName")))
           (bool_decide (is_Some (column df "JobRole")))
           (bool_decide (is_Some (column df "ManagerID")))
           (bool_decide (is_Some (column df "DirectReports")))
           (imap (λ i id,
                    mkEmployee
                      (str_of id)
                      (from_option (λ c, str_of (cell_at c i)) ""
                         (column df "FullName"))
                      (column df "JobRole" ≫= λ c,
                         match cell_at c i with
                         | NaN => None
                         | Val s => Some s
                         end)
                      ((λ c, str_of (cell_at c i)) <$> column df "ManagerID"))
                 (cells ids)))
  end.

(** The OrgEdges frame after lines 68-69, and whether it has a column
    named JobRole (line 162). No other column is asked for by name. *)
Definition edges_of (df : DataFrame) : outcome (list Edge * bool) :=
  match column df "EmployeeID" with
  | None => Raised (key_error "EmployeeID")
  | Some ids =>
      match column df "ManagerID" with
      | None => Raised (key_error "ManagerID")
      | Some mgrs =>
          Returned (imap (λ i id, mkEdge (str_of id) (str_of (cell_at mgrs i)))
                      (cells ids),
                    bool_decide (is_Some (column df "JobRole")))
      end
  end.

(** The Principles frame as the two [try] blocks can read it: without a
    Name column of dtype [object], or without a TargetRule column, both
    blocks end in their [except] clause, as they do on a sheet without
    rows. *)
Definition principles_of (df : DataFrame) : list Principle :=
  match column df "Name", column df "TargetRule" with
  | Some names, Some rules =>
      if is_object names
      then imap (λ i n,
                   mkPrinciple (str_of n)
                     (if is_object rules
                      then inl (str_of (cell_at rules i))
                      else inr (str_of (cell_at rules i))))
                (cells names)
      else []
  | _, _ => []
  end.

(** Lines 53-69, up to the choice of the reporting source. *)
Definition sheets_of (wb : list (string * DataFrame)) : outcome Sheets :=
  match pick wb "employees" with
  | None => Stopped no_employees_msg
  | Some df =>
      et ←← employees_of df;;
      eg ←← match pick wb "orgedges" with
            | None => Returned (None, false)
            | Some d => es ←← edges_of d;; Returned (Some es.1, es.2)
            end;;
      Returned (mkSheets (Some et) eg.1
                  (principles_of <$> pick wb "principles") eg.2)
  end.

Definition upload_msg : string :=
  "Upload your file to get started. You can use the sample `data/synthetic_org_100.xlsx` from the repo.".

(** The whole script, from the uploader to the recommendations. *)
Definition app (set_iter : gset string → list string) (up : option Upload)
    (tg : Targets) (ss : Session) : outcome Report * Session :=
  match up with
  | None => (Stopped upload_msg, ss)
  | Some file =>
      match wb ←← load_any file;; sheets_of wb with
      | Returned sheets => run set_iter sheets tg ss
      | Stopped m => (Stopped m, ss)
      | Raised e => (Raised e, ss)
      | OutOfFuel => (OutOfFuel, ss)
      end
  end.

(** * Vocabulary of the statements *)

(** The rows of the reporting source in which [id] is the manager. *)
Definition reporting_rows (et : EmployeesTable) (eg : option (list Edge))
    (id : string) : nat :=
  match eg with
  | Some es => length (filter (λ e, edge_ManagerID e = id) es)
  | None => length (filter (λ r, ManagerID r = Some id) (emp_rows et))
  end.

(** [path links x y n]: [y] is [n] reporting lines below [x]. *)
Inductive path (links : list (string * string))
  : string → string → nat → Prop :=
  | path_here x : path links x x 0
  | path_down x m c n :
      path links x m n → (m, c) ∈ links → path links x c (S n).

(** [x] hangs below one of [roots]. *)
Definition reachable (links : list (string * string)) (roots : list string)
    (x : string) : Prop :=
  ∃ r n, r ∈ roots ∧ path links r x n.

(** An edge table defines a forest: nobody has two managers, and no chain
    of reporting lines comes back to where it started. *)
Definition unique_manager (links : list (string * string)) : Prop :=
  ∀ m1 m2 c, (m1, c) ∈ links → (m2, c) ∈ links → m1 = m2.

Definition acyclic (links : list (string * string)) : Prop :=
  ∀ x n, ¬ path links x x (S n).

(** The same about an edge table, row by row: [c] reports to [m] when
    some row says so; a root is a manager who reports to nobody; [y] sits
    [n] reporting lines below [x]; the table is a forest when nobody
    reports to two managers and no chain of reporting lines comes back to
    where it started. *)
Definition reports_to (es : list Edge) (m c : string) : Prop :=
  ∃ e, e ∈ es ∧ edge_ManagerID e = m ∧ edge_EmployeeID e = c.

Definition edge_root (es : list Edge) (r : string) : Prop :=
  (∃ c, reports_to es r c) ∧ ∀ m, ¬ reports_to es m r.

Inductive lines_below (es : list Edge) : string → string → nat → Prop :=
  | below_here x : lines_below es x x 0
  | below_down x m c n :
      lines_below es x m n → reports_to es m c → lines_below es x c (S n).

Definition forest (es : list Edge) : Prop :=
  (∀ m1 m2 c, reports_to es m1 c → reports_to es m2 c → m1 = m2) ∧
  (∀ x n, ¬ lines_below es x x (S n)).

(** The identifiers of [U] that the traversal can still assign. *)
Definition unset_in (U : gset string) (d : depth_map) : gset string :=
  filter (λ x, is_unset d x = true) U.

(** [r] reports to nobody. *)
Definition top_level (links : list (string * string)) (r : string) : Prop :=
  ∀ m, (m, r) ∉ links.

(** [x] sits [n] levels below somebody who reports to nobody. *)
Definition level (links : list (string * string)) (x : string) (n : nat)
  : Prop :=
  ∃ r, top_level links r ∧ path links r x n.

(** [x] was started as a root or holds a depth. *)
Definition visited (done : list string) (d : depth_map) (x : string) : Prop :=
  x ∈ done ∨ is_unset d x = false.

(** What the traversal keeps true on a table where nobody has two
    managers. *)
Definition forest_inv (links : list (string * string))
    (done : list string) (d : depth_map) (pending : list string) : Prop :=
  Forall (top_level links) done ∧
  (∀ x n, d !! x = Some (Some n) → level links x n) ∧
  (∀ r, r ∈ done → d !! r ≠ Some None) ∧
  (∀ x, x ∈ pending → visited done d x) ∧
  (∀ x, visited done d x →
        x ∈ pending ∨ ∀ c, (x, c) ∈ links → is_unset d c = false).

(** ** Sample workbooks *)

Definition staff (id name : string) (m : option string) : Employee :=
  mkEmployee id name (Some "Engineer") m.

(** The roster of four: A at the top, B and C under A, D under B. *)
Definition roster4 : EmployeesTable :=
  mkEmployees true true true false
    [staff "A" "Ann" None; staff "B" "Bob" (Some "A");
     staff "C" "Cyd" (Some "A"); staff "D" "Dee" (Some "B")].

Definition edges4 : list Edge :=
  [mkEdge "B" "A"; mkEdge "C" "A"; mkEdge "D" "B"].

Definition book_with_edges : Sheets := mkSheets (Some roster4) (Some edges4) None false.

Definition book_without_edges : Sheets := mkSheets (Some roster4) None None false.

Definition rank4 (x : string) : nat :=
  if bool_decide (x = "A") then 0 else if bool_decide (x = "D") then 2 else 1.

(** What the traversal keeps true on any table: only identifiers below a
    started root are assigned or queued. *)
Definition sound_inv (links : list (string * string))
    (done : list string) (d : depth_map) (pending : list string) : Prop :=
  (∀ x n, d !! x = Some (Some n) → reachable links done x) ∧
  (∀ x, x ∈ pending → reachable links done x).

(** What the traversal keeps true when the reporting lines come from an
    employee table without repeated identifiers: a root is never assigned
    as somebody's subordinate. *)
Definition roots_inv (rows : list Employee)
    (done : list string) (d : depth_map) (pending : list string) : Prop :=
  (∀ x, x ∈ pending → x ∈ EmployeeID <$> rows) ∧
  (∀ r n, r ∈ roots_of_employees rows → d !! r = Some (Some n) → n = 0) ∧
  (∀ x, x ∈ EmployeeID <$> rows → d !! x ≠ None) ∧
  (∀ r, r ∈ done → is_unset d r = false).

(** The manager cell is empty or names nobody on the roster. *)
Definition no_known_manager (rows : list Employee) (r : Employee) : Prop :=
  match ManagerID r with
  | None => True
  | Some m => m ∉ EmployeeID <$> rows
  end.

(** The same about a roster read without an edge table: the row of [c]
    names [m] as its manager; a root is the identifier of a row whose
    manager is nobody on the roster; [y] sits [n] reporting lines below
    [x]. *)
Definition names_manager (rows : list Employee) (m c : string) : Prop :=
  ∃ r, r ∈ rows ∧ EmployeeID r = c ∧ ManagerID r = Some m.

Definition roster_root (rows : list Employee) (x : string) : Prop :=
  ∃ r, r ∈ rows ∧ EmployeeID r = x ∧ no_known_manager rows r.

Inductive roster_below (rows : list Employee)
  : string → string → nat → Prop :=
  | roster_here x : roster_below rows x x 0
  | roster_down x m c n :
      roster_below rows x m n → names_manager rows m c →
      roster_below rows x c (S n).

Definition targets_2_12_1 : Targets := mkTargets 2 12 1.

Definition targets_3_3_1 : Targets := mkTargets 3 3 1.

(** A workbook whose edge table gives A two engineers and B two analysts
    and one engineer. *)
Definition roster_roles : EmployeesTable :=
  mkEmployees true true true false
    [mkEmployee "A" "Ann" (Some "Head") None;
     mkEmployee "B" "Bob" (Some "Engineer") (Some "A");
     mkEmployee "C" "Cyd" (Some "Engineer") (Some "A");
     mkEmployee "D" "Dee" (Some "Analyst") (Some "B");
     mkEmployee "E" "Eve" (Some "Analyst") (Some "B");
     mkEmployee "F" "Fay" (Some "Analyst") (Some "B");
     mkEmployee "G" "Gus" (Some "Engineer") (Some "B")].

Definition edges_roles : list Edge :=
  [mkEdge "B" "A"; mkEdge "C" "A"; mkEdge "D" "B"; mkEdge "E" "B";
   mkEdge "F" "B"; mkEdge "G" "B"].

Definition book_roles : Sheets :=
  mkSheets (Some roster_roles) (Some edges_roles) None false.

(** ** The words of the specification about the span rule *)

(** The leading run of digits of a text. *)
Fixpoint leading_digits (s : string) : string :=
  match s with
  | EmptyString => EmptyString
  | String c s' =>
      if is_digit c then String c (leading_digits s') else EmptyString
  end.

(** The span rule read as "<min>-<max>, extracting leading digit runs from
    each side": the minimum is the leading run of digits of the text before
    the dash, the maximum the leading run of digits of the text after it. *)
Definition seed_span_leading_runs (ps : list Principle) (ss : Session)
  : Session :=
  match first_rule "Span" ps with
  | Some (inl p_span) =>
      let pieces := split_on "-"%char p_span in
      match pieces !! 0, pieces !! 1 with
      | Some lhs, Some rhs =>
          match int_of_digits (leading_digits lhs),
                int_of_digits (leading_digits rhs) with
          | Some lo, Some hi => set_max_span (set_min_span ss lo) hi
          | _, _ => ss
          end
      | _, _ => ss
      end
  | _ => ss
  end.

(** Every character of [s] passes [p]. *)
Fixpoint all_chars (p : ascii → bool) (s : string) : bool :=
  match s with
  | EmptyString => true
  | String c s' => p c && all_chars p s'
  end.

Definition not_dash (c : ascii) : bool := negb (bool_decide (c = "-"%char)).

Definition word_char (c : ascii) : bool := negb (is_space c) && not_dash c.

(** Nothing, or something that starts with a space. *)
Definition ends_word (rest : string) : Prop :=
  match rest with
  | EmptyString => True
  | String c _ => is_space c = true
  end.

(** [mid] is the part of [after] before its first dash, or all of [after]
    when it has no dash. *)
Definition up_to_dash (after mid : string) : Prop :=
  all_chars not_dash mid = true ∧
  (after = mid ∨ ∃ more, after = mid +:+ String "-" more).

(** [tok] is the first whitespace-delimited word of [mid]. *)
Definition first_word (mid tok : string) : Prop :=
  ∃ gap rest,
    mid = gap +:+ tok +:+ rest ∧
    all_chars is_space gap = true ∧
    tok ≠ "" ∧
    all_chars (λ c, negb (is_space c)) tok = true ∧
    ends_word rest.

Global Instance Session_eq_dec : EqDecision Session.
Proof. solve_decision. Defined.

(** How many times the session state differs from one run to the next. *)
Fixpoint changes (trace : list Session) : nat :=
  match trace with
  | a :: (b :: _) as rest => (if decide (a = b) then 0 else 1) + changes rest
  | _ => 0
  end.

(** A workbook with a Principles sheet: A has four direct reports, the
    span rule asks for 5 to 9, the layer rule for 0 layers. *)
Definition roster5 : EmployeesTable :=
  mkEmployees true true true false
    [staff "A" "Ann" None; staff "B" "Bob" (Some "A");
     staff "C" "Cyd" (Some "A"); staff "D" "Dee" (Some "A");
     staff "E" "Eve" (Some "A")].

Definition principles_5_9 : list Principle :=
  [mkPrinciple "Span of Control" (inl "5-9 direct reports");
   mkPrinciple "Layers" (inl "at most 0 layers below the head")].

Definition book_principles : Sheets :=
  mkSheets (Some roster5) None (Some principles_5_9) false.

Definition principles_decimal : list Principle :=
  [mkPrinciple "Span of Control" (inl "2.5-12 direct reports")].

(** A roster with a row that names an unknown manager (X), and two rows
    that name each other (P and Q). *)
Definition roster_stray : EmployeesTable :=
  mkEmployees true true true false
    [staff "A" "Ann" None; staff "B" "Bob" (Some "A");
     staff "X" "Xan" (Some "ghost");
     staff "P" "Pat" (Some "Q"); staff "Q" "Quin" (Some "P")].

Definition book_stray : Sheets := mkSheets (Some roster_stray) None None false.

(** An Employees sheet with all its columns and no row. *)
Definition book_empty : Sheets :=
  mkSheets (Some (mkEmployees true true true false [])) None None false.

(** A roster in which the identifier X is used twice. *)
Definition roster_repeated : EmployeesTable :=
  mkEmployees true true true false
    [staff "A" "Ann" None; staff "X" "Xan" None; staff "X" "Xan" (Some "A")].

(** What the traversal keeps true on any table: a depth that is written
    is the length of a chain of reporting lines from a started root. *)
Definition chain_inv (links : list (string * string))
    (done : list string) (d : depth_map) (pending : list string) : Prop :=
  (∀ x n, d !! x = Some (Some n) → ∃ r, r ∈ done ∧ path links r x n) ∧
  (∀ x, x ∈ pending → x ∈ done ∨ is_unset d x = false) ∧
  (∀ x, x ∈ pending → d !! x ≠ Some None).

(** What the traversal keeps true on any table: a depth that is written
    leaves room for the identifiers of [U] that are still unassigned. *)
Definition bound_inv (U : gset string)
    (done : list string) (d : depth_map) (pending : list string) : Prop :=
  ∀ x n, d !! x = Some (Some n) → n + size (unset_in U d) ≤ size U.

(** The distinct subordinates of the reporting source. *)
Definition subordinates (et : EmployeesTable) (eg : option (list Edge))
  : gset string :=
  list_to_set ((links_of et eg).*2).

(** ** Words about texts and uploaded workbooks *)

(** [pat] occurs in [s]. *)
Definition occurs_in (pat s : string) : Prop := ∃ a b, s = a +:+ pat +:+ b.

(** The sheet name [k] carries the fragment [name], letter case apart. *)
Definition carries (k name : string) : Prop :=
  occurs_in (lower name) (lower k).

(** [s] neither starts nor ends with a whitespace character. *)
Definition trimmed (s : string) : Prop :=
  (∀ c t, s = String c t → is_space c = false) ∧
  (∀ t c, s = t +:+ String c "" → is_space c = false).

(** Two workbooks with the same sheets in the same order, up to the letter
    case of the sheet names and up to what [_standardize] removes. *)
Definition same_book (wb wb' : list (string * DataFrame)) : Prop :=
  Forall2 (λ a b, lower a.1 = lower b.1 ∧ standardize a.2 = standardize b.2)
    wb wb'.

(** A roster as [read_csv] returns it: texts with stray blanks, an empty
    manager cell for the head. *)
Definition text_column (name : string) (texts : list string) : Column :=
  mkColumn name true (Val <$> texts).

Definition csv_roster : DataFrame :=
  [text_column "EmployeeID" [" A"; "B "; "C"; "D"];
   text_column "FullName" ["Ann"; "Bob"; "Cyd"; "Dee"];
   mkColumn "ManagerID" true [NaN; Val "A "; Val "A"; Val " B"]].

Definition csv_upload : Upload :=
  mkUpload "Roster.CSV" (Returned csv_roster) (Raised "BadZipFile").

Definition csv_roster_tidy : DataFrame :=
  [text_column "EmployeeID" ["A"; "B"; "C"; "D"];
   text_column "FullName" ["Ann"; "Bob"; "Cyd"; "Dee"];
   mkColumn "ManagerID" true [NaN; Val "A"; Val "A"; Val "B"]].

(** [(k, df)] is the first sheet of the workbook whose name carries
    [name]. *)
Definition first_sheet (wb : list (string * DataFrame)) (name k : string)
    (df : DataFrame) : Prop :=
  ∃ pre post, wb = pre ++ (k, df) :: post ∧ carries k name ∧
              ∀ k' df', (k', df') ∈ pre → ¬ carries k' name.

(** A workbook whose Employees sheet has no EmployeeID column, with an
    edge table that has both of its columns. *)
Definition book_no_id : list (string * DataFrame) :=
  [("Employees", [text_column "FullName" ["Ann"; "Bob"]]);
   ("OrgEdges", [text_column "EmployeeID" ["B"];
                 text_column "ManagerID" ["A"]])].

Definition xlsx_no_id : Upload :=
  mkUpload "org.xlsx" (Raised "ParserError") (Returned book_no_id).

(** The roster of [csv_roster] as a tidy workbook would hold it. *)
Definition xlsx_tidy : Upload :=
  mkUpload "tidy.xlsx" (Raised "ParserError")
    (Returned [("EMPLOYEES", csv_roster_tidy)]).

(** A file of two lines under the header EmployeeID,ManagerID: the
    employee NA under a manager who is not on the roster, and the
    employee X without a manager. This is the frame [read_csv] makes of
    it: NA is one of the texts it takes for a missing value. *)
Definition csv_na : DataFrame :=
  [mkColumn "EmployeeID" true [NaN; Val "X"];
   mkColumn "ManagerID" true [Val "ghost"; NaN]].

Definition csv_na_upload : Upload :=
  mkUpload "staff.csv" (Returned csv_na) (Raised "BadZipFile").

(** What lines 53-64 make of [csv_roster]. *)
Definition roster_csv : EmployeesTable :=
  mkEmployees true false true false
    [mkEmployee "A" "Ann" None (Some "nan");
     mkEmployee "B" "Bob" None (Some "A");
     mkEmployee "C" "Cyd" None (Some "A");
     mkEmployee "D" "Dee" None (Some "B")].

Definition book_csv : Sheets := mkSheets (Some roster_csv) None None false.

(** ** How the script can end *)

Inductive ending :=
  | Stops (msg : string)
  | Raises (exn : string)
  | Completes.

(** The frame has a column of that name. *)
Definition present (df : DataFrame) (name : string) : bool :=
  bool_decide (is_Some (column df name)).

(** The number of rows of a frame, read off its EmployeeID column. *)
Definition n_rows (df : DataFrame) : nat :=
  from_option (λ c, length (cells c)) 0 (column df "EmployeeID").

(** The OrgEdges frame the script reads: the first sheet whose name
    carries the fragment, or none. *)
Definition edges_frame (wb : list (string * DataFrame))
    (d : option DataFrame) : Prop :=
  match d with
  | Some d' => ∃ k, first_sheet wb "orgedges" k d'
  | None => ∀ k df, (k, df) ∈ wb → ¬ carries k "orgedges"
  end.

(** How the script ends on an Employees frame [df] and an OrgEdges frame
    [d], by the columns of the two and the number of rows: the checks of
    lines 62, 68, 69, 74, 79, 153 and 163 in the order in which the script
    comes to them. *)
Definition ending_of (df : DataFrame) (d : option DataFrame) : ending :=
  if negb (present df "EmployeeID") then Raises (key_error "EmployeeID")
  else
    match d with
    | Some d' =>
        if negb (present d' "EmployeeID")
        then Raises (key_error "EmployeeID")
        else if negb (present d' "ManagerID")
        then Raises (key_error "ManagerID")
        else if present df "DirectReports"
        then Raises (key_error "DirectReports")
        else if bool_decide (n_rows df = 0)
        then Raises "ValueError: cannot convert float NaN to integer"
        else if present df "JobRole" && present d' "JobRole"
        then Raises (key_error "JobRole")
        else Completes
    | None =>
        if negb (present df "ManagerID") then Stops no_reporting_msg
        else if present df "DirectReports"
        then Raises (key_error "DirectReports")
        else if bool_decide (n_rows df = 0)
        then Raises "ValueError: cannot convert float NaN to integer"
        else Completes
    end.

(** A workbook whose two sheets both have a JobRole column. *)
Definition book_two_roles : list (string * DataFrame) :=
  [("Employees", [text_column "EmployeeID" ["A"; "B"];
                  text_column "JobRole" ["Head"; "Analyst"]]);
   ("OrgEdges", [text_column "EmployeeID" ["B"];
                 text_column "ManagerID" ["A"];
                 text_column "JobRole" ["Analyst"]])].

Definition xlsx_two_roles : Upload :=
  mkUpload "org.xlsx" (Raised "ParserError") (Returned book_two_roles).

(** * Properties *)

(** ** Direct-report counts *)

Lemma groupby_count_fold (keys : list (option string)) (acc : gmap string nat)
    (id : string) :
  default 0
    (fold_left
       (λ acc k, match k with
                 | Some m => <[m := S (default 0 (acc !! m))]> acc
                 | None => acc
                 end) keys acc !! id)
  = default 0 (acc !! id) + length (filter (λ k, k = Some id) keys).
Proof.
  revert acc. induction keys as [|k keys IH]; intros acc; simpl.
  - lia.
  - rewrite IH. destruct k as [m|].
    + rewrite filter_cons. destruct (decide (m = id)) as [->|Hne].
      * rewrite lookup_insert_eq, decide_True by done. simpl. lia.
      * rewrite lookup_insert_ne by done.
        rewrite decide_False by congruence. done.
    + rewrite filter_cons, decide_False by done. done.
Qed.

Lemma groupby_count_spec (keys : list (option string)) (id : string) :
  direct_reports (groupby_count keys) id
  = length (filter (λ k, k = Some id) keys).
Proof.
  unfold direct_reports, groupby_count.
  rewrite groupby_count_fold, lookup_empty. done.
Qed.

Lemma length_filter_fmap {A B} (f : A → B) (P : B → Prop)
    `{!∀ x, Decision (P x)} (l : list A) :
  length (filter P (f <$> l)) = length (filter (λ x, P (f x)) l).
Proof.
  induction l as [|x l IH]; [done|].
  rewrite fmap_cons, !filter_cons. simpl.
  destruct (decide (P (f x))); simpl; by rewrite IH.
Qed.

Lemma length_filter_ext {A} (P Q : A → Prop) `{!∀ x, Decision (P x)}
    `{!∀ x, Decision (Q x)} (l : list A) :
  (∀ x, P x ↔ Q x) → length (filter P l) = length (filter Q l).
Proof.
  intros HPQ. induction l as [|x l IH]; [done|].
  rewrite !filter_cons.
  destruct (decide (P x)) as [HP|HP], (decide (Q x)) as [HQ|HQ]; simpl.
  - by rewrite IH.
  - destruct HQ. by apply HPQ.
  - destruct HP. by apply HPQ.
  - done.
Qed.


Lemma length_filter_none {A} (P : A → Prop) `{!∀ x, Decision (P x)}
    (l : list A) :
  (∀ x, x ∈ l → ¬ P x) → length (filter P l) = 0.
Proof.
  intros Hno. induction l as [|x l IH]; [done|].
  rewrite filter_cons, decide_False by (apply Hno; left).
  apply IH. intros y Hy. apply Hno. by right.
Qed.

Lemma mgr_counts_of_spec et eg counts id :
  mgr_counts_of et eg = Returned counts →
  direct_reports counts id = reporting_rows et eg id.
Proof.
  unfold mgr_counts_of, reporting_rows. destruct eg as [es|].
  - intros [= <-]. rewrite groupby_count_spec.
    unfold manager_keys_of_edges. rewrite length_filter_fmap.
    apply length_filter_ext. intros e. split; congruence.
  - destruct (has_ManagerID et); [|done]. intros [= <-].
    rewrite groupby_count_spec. unfold manager_keys_of_employees.
    by rewrite length_filter_fmap.
Qed.

(** What a normal return of [compute_metrics] is made of. *)
Lemma compute_metrics_returned set_iter sheets ss rows et eg ss' :
  compute_metrics set_iter sheets ss = (Returned (rows, et, eg), ss') →
  employees sheets = Some et ∧ eg = edges sheets ∧
  ss' = prefill (principles sheets) ss ∧
  ∃ counts depth,
    mgr_counts_of et eg = Returned counts ∧
    compute_depth set_iter (links_of et eg) (roots_of et eg)
      (EmployeeID <$> emp_rows et) = Some depth ∧
    rows = annotate counts depth <$> emp_rows et.
Proof.
  unfold compute_metrics. destruct (employees sheets) as [et'|]; [|done].
  destruct (mgr_counts_of et' (edges sheets)) as [counts| | |] eqn:Hc;
    try done.
  destruct (has_DirectReports et'); [done|].
  destruct (compute_depth _ _ _ _) as [depth|] eqn:Hd; [|done].
  intros [= <- <- <- <-]. repeat split; eauto.
Qed.

Lemma compute_metrics_no_collision set_iter sheets ss rows et eg ss' :
  compute_metrics set_iter sheets ss = (Returned (rows, et, eg), ss') →
  has_DirectReports et = false.
Proof.
  unfold compute_metrics. destruct (employees sheets) as [et'|]; [|done].
  destruct (mgr_counts_of et' (edges sheets)); try done.
  destruct (has_DirectReports et') eqn:Hdr; [done|].
  destruct (compute_depth _ _ _ _); [|done].
  by intros [= _ <- _ _].
Qed.

(** ** The adjacency structure *)

Lemma build_parent_of_fold links (acc : gmap string (gset string)) m c :
  c ∈ default ∅
        (fold_left (λ po '(m, c), <[m := default ∅ (po !! m) ∪ {[c]}]> po)
           links acc !! m)
  ↔ c ∈ default ∅ (acc !! m) ∨ (m, c) ∈ links.
Proof.
  revert acc. induction links as [|[m' c'] links IH]; intros acc; simpl.
  - split; [by left|]. intros [?|H]; [done|]. by apply elem_of_nil in H.
  - rewrite IH, elem_of_cons. destruct (decide (m' = m)) as [->|Hne].
    + rewrite lookup_insert_eq. simpl. rewrite elem_of_union, elem_of_singleton.
      split; [intros [[?| ->]|?]|intros [?|[ [= ->] |?]]]; eauto.
    + rewrite lookup_insert_ne by done.
      split; [intros [?|?]|intros [?|[ [= ? ?] |?]]]; eauto. done.
Qed.

Lemma build_parent_of_spec links m c :
  c ∈ default ∅ (build_parent_of links !! m) ↔ (m, c) ∈ links.
Proof.
  unfold build_parent_of. rewrite build_parent_of_fold, lookup_empty.
  simpl. split; [intros [H|H]|by right]; [|done].
  by apply not_elem_of_empty in H.
Qed.

Lemma init_depth_fold ids (acc : depth_map) x :
  fold_left (λ d eid, <[eid := None]> d) ids acc !! x
  = if decide (x ∈ ids) then Some None else acc !! x.
Proof.
  revert acc. induction ids as [|i ids IH]; intros acc.
  - case_decide as Hin; [|done]. by apply elem_of_nil in Hin.
  - cbn [fold_left]. rewrite IH.
    destruct (decide (x ∈ ids)) as [Hin|Hnin].
    + rewrite decide_True; [done|]. by right.
    + destruct (decide (i = x)) as [->|Hne].
      * rewrite lookup_insert_eq, decide_True; [done|]. by left.
      * rewrite lookup_insert_ne by done.
        rewrite decide_False; [done|].
        intros [->|?]%elem_of_cons; done.
Qed.

Lemma init_depth_lookup ids x :
  init_depth ids !! x = if decide (x ∈ ids) then Some None else None.
Proof. unfold init_depth. by rewrite init_depth_fold, lookup_empty. Qed.

Lemma is_unset_false d x :
  is_unset d x = false ↔ ∃ n, d !! x = Some (Some n).
Proof.
  unfold is_unset. destruct (d !! x) as [[n|]|]; split;
    try done; try (intros [? [=]]); eauto.
Qed.

Lemma is_unset_insert d k v x :
  is_unset (<[k := Some v]> d) x
  = if decide (k = x) then false else is_unset d x.
Proof.
  unfold is_unset. destruct (decide (k = x)) as [->|Hne].
  - by rewrite lookup_insert_eq.
  - by rewrite lookup_insert_ne.
Qed.

Lemma depth_column_final (d : depth_map) x :
  depth_column (default 0 <$> d) x = depth_or_0 d x.
Proof.
  unfold depth_column, depth_or_0. rewrite lookup_fmap.
  by destruct (d !! x) as [[n|]|].
Qed.

(** ** The traversal returns *)

Lemma unset_in_subseteq (U : gset string) d : unset_in U d ⊆ U.
Proof. intros x. unfold unset_in. rewrite elem_of_filter. tauto. Qed.

Lemma visit_child_measure U cur d q ch d' q' :
  ch ∈ U →
  visit_child cur (d, q) ch = (d', q') →
  length q' + size (unset_in U d') ≤ length q + size (unset_in U d).
Proof.
  unfold visit_child. intros HU. destruct (is_unset d ch) eqn:Hu;
    intros [= <- <-]; [|done].
  rewrite length_app. simpl.
  enough (size (unset_in U (<[ch := Some (depth_or_0 d cur + 1)]> d))
          < size (unset_in U d)) by lia.
  apply subset_size. split.
  - intros x. unfold unset_in. rewrite !elem_of_filter, is_unset_insert.
    intros [Hx ?]. split; [|done]. by case_decide.
  - intros Hsub. specialize (Hsub ch). unfold unset_in in Hsub.
    rewrite !elem_of_filter, is_unset_insert, decide_True in Hsub by done.
    by destruct Hsub.
Qed.

Lemma visit_children_measure U cur chs d q d' q' :
  (∀ ch, ch ∈ chs → ch ∈ U) →
  fold_left (visit_child cur) chs (d, q) = (d', q') →
  length q' + size (unset_in U d') ≤ length q + size (unset_in U d).
Proof.
  revert d q. induction chs as [|ch chs IH]; intros d q HU; cbn [fold_left].
  - by intros [= <- <-].
  - destruct (visit_child cur (d, q) ch) as [d1 q1] eqn:H1. intros Hrest.
    apply IH in Hrest; [|intros; apply HU; by right].
    apply (visit_child_measure U) in H1; [lia|]. apply HU. by left.
Qed.

Section traversal_facts.

Variable set_iter : gset string → list string.
Hypothesis set_iter_perm : ∀ s, set_iter s ≡ₚ elements s.

Lemma children_of_spec links m c :
  c ∈ children_of set_iter (build_parent_of links) m ↔ (m, c) ∈ links.
Proof.
  rewrite <- build_parent_of_spec. unfold children_of.
  destruct (build_parent_of links !! m) as [s|]; simpl.
  - rewrite set_iter_perm. apply elem_of_elements.
  - split; intros H;
      [by apply elem_of_nil in H | by apply not_elem_of_empty in H].
Qed.

Lemma bfs_terminates po (U : gset string) :
  (∀ cur c, c ∈ children_of set_iter po cur → c ∈ U) →
  ∀ fuel d q,
    length q + size (unset_in U d) ≤ fuel →
    is_Some (bfs set_iter fuel po d q).
Proof.
  intros HU. induction fuel as [|fuel IH]; intros d q Hle.
  - destruct q; simpl in *; [eauto | lia].
  - destruct q as [|cur q]; simpl; [eauto|].
    destruct (fold_left _ _ _) as [d' q'] eqn:Hfold.
    apply IH. apply (visit_children_measure U) in Hfold.
    + simpl in Hle. lia.
    + intros ch. apply HU.
Qed.

Lemma bfs_roots_terminates po (U : gset string) :
  (∀ cur c, c ∈ children_of set_iter po cur → c ∈ U) →
  ∀ roots d, is_Some (bfs_roots set_iter (S (size U)) po roots d).
Proof.
  intros HU. induction roots as [|r roots IH]; intros d;
    cbn [bfs_roots]; [eauto|].
  destruct (bfs_terminates po U HU (S (size U)) (start_root d r) [r])
    as [d' ->]; [|apply IH].
  simpl. pose proof (subseteq_size _ _ (unset_in_subseteq U (start_root d r))).
  lia.
Qed.

(** Lines 96-109 always produce a dict. *)
Lemma compute_depth_total links roots ids :
  is_Some (compute_depth set_iter links roots ids).
Proof.
  unfold compute_depth, bfs_budget.
  destruct (bfs_roots_terminates (build_parent_of links)
              (list_to_set (links.*2))) with (roots := roots)
              (d := init_depth ids) as [d ->]; [|eauto].
  intros cur c Hc%children_of_spec.
  apply elem_of_list_to_set, list_elem_of_fmap. by exists (cur, c).
Qed.

End traversal_facts.

Lemma elem_of_rev_list {A} (x : A) (l : list A) : x ∈ rev l ↔ x ∈ l.
Proof. rewrite !list_elem_of_In. symmetry. apply in_rev. Qed.

(** ** A proof rule for the two loops

    [P done d pending] relates the roots already started, the dict and the
    identifiers still to be expanded: during the inner loop [pending] is
    the popped [cur] followed by the queue. A property kept by the three
    elementary moves holds when the roots loop is over. *)

Section bfs_rule.

Variable set_iter : gset string → list string.
Variable po : gmap string (gset string).
Variable P : list string → depth_map → list string → Prop.
Variable R : string → Prop.

Hypothesis P_child : ∀ done d cur q ch,
  P done d (cur :: q) →
  ch ∈ children_of set_iter po cur →
  is_unset d ch = true →
  P done (<[ch := Some (depth_or_0 d cur + 1)]> d) (cur :: (q ++ [ch])).

Hypothesis P_pop : ∀ done d cur q,
  P done d (cur :: q) →
  (∀ ch, ch ∈ children_of set_iter po cur → is_unset d ch = false) →
  P done d q.

Hypothesis P_root : ∀ done d r,
  R r → P done d [] → P (r :: done) (start_root d r) [r].

Lemma visit_children_rule done cur chs : ∀ d q d' q',
  (∀ ch, ch ∈ chs → ch ∈ children_of set_iter po cur) →
  P done d (cur :: q) →
  fold_left (visit_child cur) chs (d, q) = (d', q') →
  P done d' (cur :: q') ∧
  (∀ x, is_unset d x = false → is_unset d' x = false) ∧
  (∀ ch, ch ∈ chs → is_unset d' ch = false).
Proof.
  induction chs as [|ch chs IH]; intros d q d' q' Hchs HP; cbn [fold_left].
  - intros [= <- <-]. split_and!; [done|done|].
    intros ch Hch. by apply elem_of_nil in Hch.
  - assert (Hin : ch ∈ children_of set_iter po cur) by (apply Hchs; left).
    assert (Hrest : ∀ c, c ∈ chs → c ∈ children_of set_iter po cur)
      by (intros; apply Hchs; by right).
    unfold visit_child at 2. destruct (is_unset d ch) eqn:Hu; intros Hfold.
    + apply IH in Hfold as (HP' & Hmono & Hset);
        [|done|by apply P_child].
      split_and!; [done| |].
      * intros x Hx. apply Hmono. rewrite is_unset_insert.
        by case_decide.
      * intros c [->|Hc]%elem_of_cons; [|by apply Hset].
        apply Hmono. by rewrite is_unset_insert, decide_True.
    + apply IH in Hfold as (HP' & Hmono & Hset); [|done|done].
      split_and!; [done|done|].
      intros c [->|Hc]%elem_of_cons; [|by apply Hset]. by apply Hmono.
Qed.

Lemma bfs_rule done : ∀ fuel d q d',
  P done d q → bfs set_iter fuel po d q = Some d' → P done d' [].
Proof.
  induction fuel as [|fuel IH]; intros d q d' HP;
    destruct q as [|cur q]; simpl; try done.
  - by intros [= <-].
  - by intros [= <-].
  - destruct (fold_left _ _ _) as [d1 q1] eqn:Hfold. intros Hbfs.
    apply visit_children_rule with (done := done) in Hfold
      as (HP' & _ & Hset); [|done|done].
    apply (IH d1 q1); [|done]. by apply P_pop with cur.
Qed.

Lemma bfs_roots_rule fuel : ∀ roots done d d',
  Forall R roots →
  P done d [] →
  bfs_roots set_iter fuel po roots d = Some d' →
  P (rev roots ++ done) d' [].
Proof.
  induction roots as [|r roots IH]; intros done d d' HR HP;
    cbn [bfs_roots].
  - by intros [= <-].
  - destruct (bfs set_iter fuel po (start_root d r) [r]) as [d1|] eqn:Hbfs;
      [|done].
    intros Hrest. apply Forall_cons in HR as [Hr HR].
    apply bfs_rule with (done := r :: done) in Hbfs; [|by apply P_root].
    apply (IH (r :: done)) in Hrest; [|done|done].
    cbn [rev]. by rewrite <- app_assoc.
Qed.

End bfs_rule.

(** ** Depth on a forest *)

Section forest_depth.

Variable set_iter : gset string → list string.
Hypothesis set_iter_perm : ∀ s, set_iter s ≡ₚ elements s.
Variable links : list (string * string).
Hypothesis one_manager : unique_manager links.

Lemma level_unique x n n' : level links x n → level links x n' → n = n'.
Proof.
  intros (r & Hr & Hp) (r' & Hr' & Hp'). revert n' Hp'.
  induction Hp as [x|x m c n Hp IH Hmc]; intros n' Hp';
    inversion Hp' as [|? m' ? n0 Hp0 Hmc']; subst.
  - done.
  - by destruct (Hr m').
  - by destruct (Hr' m).
  - f_equal. apply IH; [done|].
    by rewrite (one_manager m m' c Hmc Hmc').
Qed.

Lemma visited_level done d pending x :
  forest_inv links done d pending →
  visited done d x →
  level links x (depth_or_0 d x).
Proof.
  intros (Htop & Hsound & Hdone & _ & _) Hv. unfold depth_or_0.
  destruct (d !! x) as [[n|]|] eqn:Hx.
  - by apply Hsound.
  - destruct Hv as [Hin|Hset]; [by destruct (Hdone x Hin)|].
    apply is_unset_false in Hset as [n Hn]. congruence.
  - destruct Hv as [Hin|Hset].
    + exists x. split; [|constructor].
      by apply (proj1 (Forall_forall _ _) Htop).
    + apply is_unset_false in Hset as [n Hn]. congruence.
Qed.

Lemma forest_inv_child done d cur q ch :
  forest_inv links done d (cur :: q) →
  ch ∈ children_of set_iter (build_parent_of links) cur →
  is_unset d ch = true →
  forest_inv links done (<[ch := Some (depth_or_0 d cur + 1)]> d)
    (cur :: (q ++ [ch])).
Proof.
  intros Hinv Hch%children_of_spec Hu; [|done].
  assert (Hcur : level links cur (depth_or_0 d cur)).
  { apply (visited_level done d (cur :: q)); [done|].
    destruct Hinv as (_ & _ & _ & Hpend & _). apply Hpend. by left. }
  destruct Hinv as (Htop & Hsound & Hdone & Hpend & Hcover).
  assert (Hmono : ∀ x, visited done d x →
    visited done (<[ch := Some (depth_or_0 d cur + 1)]> d) x).
  { intros x [?|Hx]; [by left|right].
    rewrite is_unset_insert. by case_decide. }
  split_and!; [done| | | |].
  - intros x n. destruct (decide (ch = x)) as [<-|Hne].
    + rewrite lookup_insert_eq. intros [= <-].
      destruct Hcur as (r & Hr & Hp). exists r. split; [done|].
      rewrite Nat.add_1_r. by apply path_down with cur.
    + rewrite lookup_insert_ne by done. apply Hsound.
  - intros r Hr. destruct (decide (ch = r)) as [<-|Hne].
    + by rewrite lookup_insert_eq.
    + rewrite lookup_insert_ne by done. by apply Hdone.
  - intros x [->|[Hx|Hx%list_elem_of_singleton]%elem_of_app]%elem_of_cons.
    + apply Hmono, Hpend. by left.
    + apply Hmono, Hpend. by right.
    + subst x. right. by rewrite is_unset_insert, decide_True.
  - intros x Hx. destruct (decide (ch = x)) as [<-|Hne].
    + left. right. apply elem_of_app. right. by left.
    + assert (Hx' : visited done d x).
      { destruct Hx as [?|Hx]; [by left|right].
        by rewrite is_unset_insert, decide_False in Hx. }
      destruct (Hcover x Hx') as [Hin|Hall].
      * left. apply elem_of_cons in Hin as [->|Hin]; [by left|].
        right. apply elem_of_app. by left.
      * right. intros c Hc. rewrite is_unset_insert.
        case_decide; [done|]. by apply Hall.
Qed.

Lemma forest_inv_pop done d cur q :
  forest_inv links done d (cur :: q) →
  (∀ ch, ch ∈ children_of set_iter (build_parent_of links) cur →
         is_unset d ch = false) →
  forest_inv links done d q.
Proof.
  intros (Htop & Hsound & Hdone & Hpend & Hcover) Hall.
  split_and!; [done|done|done| |].
  - intros x Hx. apply Hpend. by right.
  - intros x Hx. destruct (Hcover x Hx) as [[->|Hin]%elem_of_cons|Hc].
    + right. intros c Hc. apply Hall. by apply children_of_spec.
    + by left.
    + by right.
Qed.

Lemma forest_inv_root done d r :
  top_level links r →
  forest_inv links done d [] →
  forest_inv links (r :: done) (start_root d r) [r].
Proof.
  intros Hr (Htop & Hsound & Hdone & _ & Hcover).
  assert (Hmono : ∀ x, is_unset d x = false →
                       is_unset (start_root d r) x = false).
  { intros x Hx. unfold start_root.
    destruct (d !! r) as [[?|]|]; try done.
    rewrite is_unset_insert. by case_decide. }
  split_and!.
  - by constructor.
  - intros x n. unfold start_root.
    destruct (d !! r) as [[?|]|] eqn:Hdr; try apply Hsound.
    destruct (decide (r = x)) as [<-|Hne].
    + rewrite lookup_insert_eq. intros [= <-]. exists r.
      split; [done|constructor].
    + rewrite lookup_insert_ne by done. apply Hsound.
  - intros x Hx. unfold start_root.
    destruct (d !! r) as [[?|]|] eqn:Hdr.
    + apply elem_of_cons in Hx as [->|Hx]; [congruence|by apply Hdone].
    + destruct (decide (r = x)) as [<-|Hne].
      * by rewrite lookup_insert_eq.
      * rewrite lookup_insert_ne by done.
        apply elem_of_cons in Hx as [->|Hx]; [done|by apply Hdone].
    + apply elem_of_cons in Hx as [->|Hx]; [congruence|by apply Hdone].
  - intros x ->%list_elem_of_singleton. left. by left.
  - intros x Hx. destruct (decide (x = r)) as [->|Hne]; [left; by left|].
    right. assert (Hx' : visited done d x).
    { destruct Hx as [[->|Hx]%elem_of_cons|Hx]; [done|by left|right].
      revert Hx. unfold start_root.
      destruct (d !! r) as [[?|]|]; try done.
      by rewrite is_unset_insert, decide_False. }
    destruct (Hcover x Hx') as [Hin|Hall]; [by apply elem_of_nil in Hin|].
    intros c Hc. by apply Hmono, Hall.
Qed.

Lemma forest_inv_init ids : forest_inv links [] (init_depth ids) [].
Proof.
  split_and!.
  - constructor.
  - intros x n. rewrite init_depth_lookup. by case_decide.
  - intros r Hr. by apply elem_of_nil in Hr.
  - intros x Hx. by apply elem_of_nil in Hx.
  - intros x [Hx|Hx]; [by apply elem_of_nil in Hx|].
    apply is_unset_false in Hx as [n Hn].
    rewrite init_depth_lookup in Hn. by case_decide.
Qed.

(** When the roots loop is over, everybody below a started root holds the
    length of the chain that leads to them. *)
Lemma forest_inv_complete done d r x n :
  forest_inv links done d [] →
  r ∈ done →
  path links r x n →
  visited done d x ∧ depth_or_0 d x = n.
Proof.
  intros Hinv Hr Hp.
  assert (Hlevel : level links x n).
  { exists r. split; [|done]. destruct Hinv as (Htop & _).
    by apply (proj1 (Forall_forall _ _) Htop). }
  enough (Hv : visited done d x).
  { split; [done|].
    apply (level_unique x); [|done]. by apply (visited_level done d []). }
  clear Hlevel. induction Hp as [x|x m c n Hp IH Hmc]; [by left|].
  destruct Hinv as (Htop & Hsound & Hdone & Hpend & Hcover).
  destruct (Hcover m (IH Hr)) as [Hin|Hall];
    [by apply elem_of_nil in Hin|].
  right. by apply Hall.
Qed.

(** The traversal on a table where nobody has two managers: it returns,
    and the depth of everybody below a root is the length of the chain. *)
Lemma compute_depth_forest roots ids :
  Forall (top_level links) roots →
  ∃ depth,
    compute_depth set_iter links roots ids = Some depth ∧
    ∀ r x n, r ∈ roots → path links r x n → depth_column depth x = n.
Proof.
  intros Hroots.
  destruct (compute_depth_total set_iter set_iter_perm links roots ids)
    as [depth Hdepth].
  exists depth. split; [done|]. intros r x n Hr Hp.
  unfold compute_depth in Hdepth.
  destruct (bfs_roots _ _ _ _ _) as [d|] eqn:Hbfs; [|done].
  injection Hdepth as <-. rewrite depth_column_final.
  apply bfs_roots_rule
    with (P := forest_inv links) (R := top_level links) (done := [])
    in Hbfs.
  - apply (forest_inv_complete _ d r x n Hbfs); [|done].
    rewrite app_nil_r. by apply elem_of_rev_list.
  - apply forest_inv_child.
  - apply forest_inv_pop.
  - apply forest_inv_root.
  - done.
  - apply forest_inv_init.
Qed.

End forest_depth.

Lemma elem_of_links_of_edges es m c :
  (m, c) ∈ links_of_edges es
  ↔ ∃ e, e ∈ es ∧ edge_ManagerID e = m ∧ edge_EmployeeID e = c.
Proof.
  unfold links_of_edges. rewrite list_elem_of_fmap. split.
  - intros (e & [= -> ->] & He). eauto.
  - intros (e & He & <- & <-). eauto.
Qed.

Lemma elem_of_roots_of_edges es r :
  r ∈ roots_of_edges es
  ↔ (∃ e, e ∈ es ∧ edge_ManagerID e = r) ∧
    (∀ e, e ∈ es → edge_EmployeeID e ≠ r).
Proof.
  unfold roots_of_edges.
  rewrite merge_sort_Permutation, elem_of_elements, elem_of_difference,
    !elem_of_list_to_set, !list_elem_of_fmap.
  split.
  - intros [(e & -> & He) Hno]. split; [eauto|].
    intros e' He' Heq. apply Hno. eauto.
  - intros [(e & He & <-) Hno]. split; [eauto|].
    intros (e' & Heq & He'). by apply (Hno e').
Qed.

Lemma roots_of_edges_top_level es :
  Forall (top_level (links_of_edges es)) (roots_of_edges es).
Proof.
  apply Forall_forall. intros r [_ Hno]%elem_of_roots_of_edges m.
  intros (e & He & _ & Hc)%elem_of_links_of_edges. by apply (Hno e).
Qed.

(** A table whose reporting lines all go from a lower to a higher rank has
    no cycle. *)
Lemma acyclic_by_rank links (rank : string → nat) :
  (∀ m c, (m, c) ∈ links → rank m < rank c) → acyclic links.
Proof.
  intros Hrank.
  assert (Hpath : ∀ x y n, path links x y n → rank x + n ≤ rank y).
  { intros x y n Hp. induction Hp as [x|x m c n Hp IH Hmc]; [lia|].
    specialize (Hrank m c Hmc). lia. }
  intros x n Hp. apply Hpath in Hp. lia.
Qed.

Lemma reports_to_links es m c :
  reports_to es m c ↔ (m, c) ∈ links_of_edges es.
Proof. symmetry. apply elem_of_links_of_edges. Qed.

Lemma lines_below_path es x y n :
  lines_below es x y n ↔ path (links_of_edges es) x y n.
Proof.
  split.
  - induction 1 as [x|x m c n _ IH Hmc]; [constructor|].
    apply path_down with m; [done|]. by apply reports_to_links.
  - induction 1 as [x|x m c n _ IH Hmc]; [constructor|].
    apply below_down with m; [done|]. by apply reports_to_links.
Qed.

Lemma edge_root_roots es r : edge_root es r ↔ r ∈ roots_of_edges es.
Proof.
  rewrite elem_of_roots_of_edges. unfold edge_root, reports_to. split.
  - intros [(c & e & He & Hm & _) Hno]. split; [eauto|].
    intros e' He' Hc. apply (Hno (edge_ManagerID e')). eauto.
  - intros [(e & He & Hm) Hno]. split; [eauto|].
    intros m (e' & He' & _ & Hc). by apply (Hno e').
Qed.

Lemma forest_unique_manager es : forest es → unique_manager (links_of_edges es).
Proof.
  intros [Huniq _] m1 m2 c H1 H2.
  apply (Huniq m1 m2 c); by apply reports_to_links.
Qed.

Lemma base_annotate counts depth (rows : list Employee) :
  base <$> (annotate counts depth <$> rows) = rows.
Proof. rewrite <- list_fmap_compose. by apply list_fmap_id. Qed.

(** C1. When the edge table defines a forest (and the Employees sheet has
    no DirectReports column of its own, which would end the run on line
    79), [compute_metrics] returns one annotated row per employee row, in
    the same order, and the depths of these rows are as follows. A root of
    the edge table (a manager who is nobody's subordinate in it) has depth
    0. Whoever sits [n] reporting lines below a root has depth [n]. So for
    every edge between two employees whose manager hangs below a root (or
    is one), the subordinate's depth is the manager's depth plus 1. *)
Theorem depth_on_forest set_iter sheets ss et es :
  (∀ s, set_iter s ≡ₚ elements s) →
  employees sheets = Some et →
  edges sheets = Some es →
  has_DirectReports et = false →
  forest es →
  ∃ rows ss',
    compute_metrics set_iter sheets ss = (Returned (rows, et, Some es), ss') ∧
    base <$> rows = emp_rows et ∧
    ∀ row, row ∈ rows →
      (edge_root es (EmployeeID (base row)) → Depth row = 0) ∧
      (∀ r n, edge_root es r →
              lines_below es r (EmployeeID (base row)) n → Depth row = n) ∧
      (∀ parent r n,
         parent ∈ rows →
         reports_to es (EmployeeID (base parent)) (EmployeeID (base row)) →
         edge_root es r →
         lines_below es r (EmployeeID (base parent)) n →
         Depth row = Depth parent + 1).
Proof.
  intros Hperm Het Hes Hdr Hforest.
  destruct (compute_depth_forest set_iter Hperm (links_of_edges es)
              (forest_unique_manager es Hforest)
              (roots_of_edges es) (EmployeeID <$> emp_rows et)
              (roots_of_edges_top_level es)) as (dm & Hdm & Hdist).
  assert (Hdepth : ∀ r x n, edge_root es r → lines_below es r x n →
                            depth_column dm x = n).
  { intros r x n Hr Hp. apply (Hdist r x n); [by apply edge_root_roots|].
    by apply lines_below_path. }
  exists (annotate (groupby_count (manager_keys_of_edges es)) dm
            <$> emp_rows et), (prefill (principles sheets) ss).
  split_and!.
  - unfold compute_metrics. rewrite Het, Hes. simpl. by rewrite Hdr, Hdm.
  - apply base_annotate.
  - intros row (e & -> & _)%list_elem_of_fmap. simpl. split_and!.
    + intros Hroot. apply (Hdepth _ _ 0 Hroot). constructor.
    + intros r n Hr Hp. by apply (Hdepth r).
    + intros parent r n (p & -> & _)%list_elem_of_fmap Hedge Hr Hp.
      simpl in *. rewrite (Hdepth r (EmployeeID p) n Hr Hp).
      rewrite (Hdepth r (EmployeeID e) (S n) Hr); [lia|].
      by apply below_down with (EmployeeID p).
Qed.

Lemma depth_on_forest_witness :
  ∃ rows ss',
    compute_metrics elements book_with_edges fresh_session
      = (Returned (rows, roster4, Some edges4), ss') ∧
    base <$> rows = emp_rows roster4 ∧
    (λ r, (EmployeeID (base r), Depth r)) <$> rows
      = [("A", 0); ("B", 1); ("C", 1); ("D", 2)] ∧
    ∀ row, row ∈ rows →
      (edge_root edges4 (EmployeeID (base row)) → Depth row = 0) ∧
      (∀ r n, edge_root edges4 r →
              lines_below edges4 r (EmployeeID (base row)) n →
              Depth row = n) ∧
      (∀ parent r n,
         parent ∈ rows →
         reports_to edges4 (EmployeeID (base parent))
           (EmployeeID (base row)) →
         edge_root edges4 r →
         lines_below edges4 r (EmployeeID (base parent)) n →
         Depth row = Depth parent + 1).
Proof.
  assert (Hforest : forest edges4).
  { assert (Hin : ∀ m c, reports_to edges4 m c →
                         (m, c) ∈ [("A", "B"); ("A", "C"); ("B", "D")]).
    { intros m c (e & He & <- & <-). apply list_elem_of_In in He.
      apply list_elem_of_In. simpl in *.
      destruct He as [<-|[<-|[<-|[]]]]; auto. }
    split.
    - intros m1 m2 c H1%Hin%list_elem_of_In H2%Hin%list_elem_of_In.
      simpl in H1, H2. intuition congruence.
    - assert (Hup : ∀ m c, reports_to edges4 m c → rank4 m < rank4 c).
      { intros m c Hmc%Hin%list_elem_of_In. simpl in Hmc.
        destruct Hmc as [[= <- <-]|[[= <- <-]|[[= <- <-]|[]]]];
          vm_compute; lia. }
      assert (Hrank : ∀ x y n, lines_below edges4 x y n →
                               rank4 x + n ≤ rank4 y).
      { intros x y n Hp.
        induction Hp as [x|x m c n _ IH Hmc]; [lia|].
        apply Hup in Hmc. lia. }
      intros x n Hp. apply Hrank in Hp. lia. }
  destruct (depth_on_forest elements book_with_edges fresh_session
              roster4 edges4 (λ s, reflexivity _) eq_refl eq_refl eq_refl
              Hforest)
    as (rows & ss' & Hcm & Hbase & Hdepth).
  exists rows, ss'. split_and!; [exact Hcm|exact Hbase| |exact Hdepth].
  vm_compute in Hcm. by injection Hcm as <- _.
Defined.



(** ** Depth without an edge table *)

Lemma elem_of_unique x l : x ∈ unique l ↔ x ∈ l.
Proof.
  induction l as [|y l IH]; [done|]. cbn [unique].
  rewrite !elem_of_cons, list_elem_of_filter, IH.
  destruct (decide (x = y)); tauto.
Qed.

Lemma elem_of_links_of_employees rows m c :
  (m, c) ∈ links_of_employees rows
  ↔ ∃ r, r ∈ rows ∧ ManagerID r = Some m ∧ EmployeeID r = c.
Proof.
  unfold links_of_employees. rewrite list_elem_of_omap. split.
  - intros (r & Hr & Heq). exists r. split; [done|].
    destruct (ManagerID r) as [m'|]; simpl in Heq; [|done].
    by injection Heq as -> ->.
  - intros (r & Hr & Hm & <-). exists r. split; [done|]. by rewrite Hm.
Qed.

Lemma elem_of_roots_of_employees rows r :
  r ∈ roots_of_employees rows
  ↔ ∃ row, row ∈ rows ∧ EmployeeID row = r ∧ no_known_manager rows row.
Proof.
  unfold roots_of_employees, no_known_manager.
  rewrite elem_of_unique, list_elem_of_fmap. split.
  - intros (row & -> & [Hroot Hrow]%list_elem_of_filter).
    exists row. split_and!; [done|done|].
    unfold isin in Hroot. destruct (ManagerID row); [|done].
    by apply bool_decide_eq_false in Hroot.
  - intros (row & Hrow & <- & Hroot). exists row. split; [done|].
    apply list_elem_of_filter. split; [|done].
    unfold isin. destruct (ManagerID row); [|done].
    by apply bool_decide_eq_false.
Qed.

Lemma NoDup_fmap_same {A B} (f : A → B) (l : list A) x y :
  NoDup (f <$> l) → x ∈ l → y ∈ l → f x = f y → x = y.
Proof.
  induction l as [|z l IH]; intros Hnd Hx Hy Hf.
  - by apply elem_of_nil in Hx.
  - rewrite fmap_cons in Hnd. apply NoDup_cons in Hnd as [Hz Hnd].
    apply elem_of_cons in Hx as [->|Hx], Hy as [->|Hy].
    + done.
    + destruct Hz. rewrite Hf. apply list_elem_of_fmap. eauto.
    + destruct Hz. rewrite <- Hf. apply list_elem_of_fmap. eauto.
    + by apply IH.
Qed.

Lemma reachable_mono links done done' x :
  (∀ r, r ∈ done → r ∈ done') →
  reachable links done x → reachable links done' x.
Proof. intros Hsub (r & n & Hr & Hp). exists r, n. eauto. Qed.

Section stray_depth.

Variable set_iter : gset string → list string.
Hypothesis set_iter_perm : ∀ s, set_iter s ≡ₚ elements s.
Variable links : list (string * string).

Lemma sound_inv_child done d cur q ch :
  sound_inv links done d (cur :: q) →
  ch ∈ children_of set_iter (build_parent_of links) cur →
  is_unset d ch = true →
  sound_inv links done (<[ch := Some (depth_or_0 d cur + 1)]> d)
    (cur :: (q ++ [ch])).
Proof.
  intros [Hset Hpend] Hch%children_of_spec _; [|done].
  assert (Hnew : reachable links done ch).
  { destruct (Hpend cur) as (r & n & Hr & Hp); [by left|].
    exists r, (S n). split; [done|]. by apply path_down with cur. }
  split.
  - intros x n. destruct (decide (ch = x)) as [<-|Hne].
    + done.
    + rewrite lookup_insert_ne by done. apply Hset.
  - intros x [->|[Hx|Hx%list_elem_of_singleton]%elem_of_app]%elem_of_cons.
    + apply Hpend. by left.
    + apply Hpend. by right.
    + by subst x.
Qed.

Lemma sound_inv_pop done d cur q :
  sound_inv links done d (cur :: q) →
  (∀ ch, ch ∈ children_of set_iter (build_parent_of links) cur →
         is_unset d ch = false) →
  sound_inv links done d q.
Proof.
  intros [Hset Hpend] _. split; [done|].
  intros x Hx. apply Hpend. by right.
Qed.

Lemma sound_inv_root done d r :
  True →
  sound_inv links done d [] →
  sound_inv links (r :: done) (start_root d r) [r].
Proof.
  intros _ [Hset _].
  assert (Hr : reachable links (r :: done) r).
  { exists r, 0. split; [by left|constructor]. }
  split.
  - intros x n. unfold start_root. intros Hx.
    assert (Hcase : x = r ∨ d !! x = Some (Some n)).
    { destruct (d !! r) as [[?|]|]; try by right.
      destruct (decide (r = x)) as [<-|Hne]; [by left|].
      right. by rewrite lookup_insert_ne in Hx. }
    destruct Hcase as [->|Hx']; [done|].
    apply reachable_mono with done; [by right|]. by apply (Hset x n).
  - by intros x ->%list_elem_of_singleton.
Qed.

(** An identifier that holds a depth after the traversal hangs below one
    of the roots. *)
Lemma bfs_roots_sound fuel roots ids d x n :
  bfs_roots set_iter fuel (build_parent_of links) roots (init_depth ids)
    = Some d →
  d !! x = Some (Some n) →
  reachable links roots x.
Proof.
  intros Hbfs Hx.
  apply bfs_roots_rule
    with (P := sound_inv links) (R := λ _, True) (done := []) in Hbfs.
  - destruct Hbfs as [Hset _]. apply Hset in Hx. rewrite app_nil_r in Hx.
    apply reachable_mono with (rev roots); [|done].
    intros r. apply elem_of_rev_list.
  - apply sound_inv_child.
  - apply sound_inv_pop.
  - apply sound_inv_root.
  - by apply Forall_forall.
  - split.
    + intros y k. rewrite init_depth_lookup. by case_decide.
    + intros y Hy. by apply elem_of_nil in Hy.
Qed.

End stray_depth.

Section root_depth.

Variable set_iter : gset string → list string.
Hypothesis set_iter_perm : ∀ s, set_iter s ≡ₚ elements s.
Variable rows : list Employee.
Hypothesis ids_unique : NoDup (EmployeeID <$> rows).

(** Whoever a root names as manager is not on the roster, so is never
    popped from the queue. *)
Lemma manager_of_root_unknown m r :
  r ∈ roots_of_employees rows →
  (m, r) ∈ links_of_employees rows →
  m ∉ EmployeeID <$> rows.
Proof.
  intros (row & Hrow & Hid & Hroot)%elem_of_roots_of_employees.
  intros (row' & Hrow' & Hm & Hid')%elem_of_links_of_employees.
  assert (row = row') as <-.
  { apply (NoDup_fmap_same EmployeeID rows); [done..|congruence]. }
  unfold no_known_manager in Hroot. by rewrite Hm in Hroot.
Qed.

Lemma roots_inv_child done d cur q ch :
  roots_inv rows done d (cur :: q) →
  ch ∈ children_of set_iter (build_parent_of (links_of_employees rows)) cur →
  is_unset d ch = true →
  roots_inv rows done (<[ch := Some (depth_or_0 d cur + 1)]> d)
    (cur :: (q ++ [ch])).
Proof.
  intros (Hpend & Hzero & Hkeys & Hdone) Hch%children_of_spec _; [|done].
  assert (Hcur : cur ∈ EmployeeID <$> rows) by (apply Hpend; by left).
  split_and!.
  - intros x [->|[Hx|Hx%list_elem_of_singleton]%elem_of_app]%elem_of_cons.
    + done.
    + apply Hpend. by right.
    + subst x. apply elem_of_links_of_employees in Hch
        as (row & Hrow & _ & <-).
      apply list_elem_of_fmap. eauto.
  - intros r n Hr. destruct (decide (ch = r)) as [<-|Hne].
    + by destruct (manager_of_root_unknown cur ch Hr Hch).
    + rewrite lookup_insert_ne by done. by apply Hzero.
  - intros x Hx. destruct (decide (ch = x)) as [<-|Hne].
    + by rewrite lookup_insert_eq.
    + rewrite lookup_insert_ne by done. by apply Hkeys.
  - intros r Hr. rewrite is_unset_insert. case_decide; [done|].
    by apply Hdone.
Qed.

Lemma roots_inv_pop done d cur q :
  roots_inv rows done d (cur :: q) →
  (∀ ch, ch ∈ children_of set_iter
                (build_parent_of (links_of_employees rows)) cur →
         is_unset d ch = false) →
  roots_inv rows done d q.
Proof.
  intros (Hpend & Hzero & Hkeys & Hdone) _. split_and!; [|done..].
  intros x Hx. apply Hpend. by right.
Qed.

Lemma roots_inv_root done d r :
  r ∈ roots_of_employees rows →
  roots_inv rows done d [] →
  roots_inv rows (r :: done) (start_root d r) [r].
Proof.
  intros Hr (_ & Hzero & Hkeys & Hdone).
  assert (Hid : r ∈ EmployeeID <$> rows).
  { apply elem_of_roots_of_employees in Hr as (row & Hrow & <- & _).
    apply list_elem_of_fmap. eauto. }
  unfold start_root. specialize (Hkeys r Hid) as Hkr.
  destruct (d !! r) as [[n|]|] eqn:Hdr; [| |done].
  - split_and!; [|done|done|].
    + by intros x ->%list_elem_of_singleton.
    + intros x [->|Hx]%elem_of_cons; [|by apply Hdone].
      unfold is_unset. by rewrite Hdr.
  - split_and!.
    + by intros x ->%list_elem_of_singleton.
    + intros x n Hx. destruct (decide (r = x)) as [<-|Hne].
      * rewrite lookup_insert_eq. by intros [= <-].
      * rewrite lookup_insert_ne by done. by apply Hzero.
    + intros x Hx. destruct (decide (r = x)) as [<-|Hne].
      * by rewrite lookup_insert_eq.
      * rewrite lookup_insert_ne by done. by apply Hkeys.
    + intros x Hx. rewrite is_unset_insert. case_decide; [done|].
      apply elem_of_cons in Hx as [->|Hx]; [done|by apply Hdone].
Qed.

(** Every root holds depth 0 when the roots loop is over. *)
Lemma bfs_roots_zero fuel d r :
  bfs_roots set_iter fuel (build_parent_of (links_of_employees rows))
    (roots_of_employees rows) (init_depth (EmployeeID <$> rows)) = Some d →
  r ∈ roots_of_employees rows →
  d !! r = Some (Some 0).
Proof.
  intros Hbfs Hr.
  apply bfs_roots_rule
    with (P := roots_inv rows) (R := λ r, r ∈ roots_of_employees rows)
         (done := []) in Hbfs.
  - destruct Hbfs as (_ & Hzero & _ & Hdone).
    destruct (proj1 (is_unset_false d r)) as [n Hn].
    { apply Hdone. rewrite app_nil_r. by apply elem_of_rev_list. }
    by rewrite Hn, (Hzero r n Hr Hn).
  - apply roots_inv_child.
  - apply roots_inv_pop.
  - apply roots_inv_root.
  - by apply Forall_forall.
  - split_and!.
    + intros x Hx. by apply elem_of_nil in Hx.
    + intros x n _. rewrite init_depth_lookup. by case_decide.
    + intros x Hx. by rewrite init_depth_lookup, decide_True.
    + intros x Hx. by apply elem_of_nil in Hx.
Qed.

End root_depth.

Lemma roster_below_path rows x y n :
  roster_below rows x y n ↔ path (links_of_employees rows) x y n.
Proof.
  split.
  - induction 1 as [x|x m c n _ IH (r & Hr & Hc & Hm)]; [constructor|].
    apply path_down with m; [done|].
    apply elem_of_links_of_employees. eauto.
  - induction 1 as [x|x m c n _ IH Hmc]; [constructor|].
    apply roster_down with m; [done|].
    apply elem_of_links_of_employees in Hmc as (r & Hr & Hm & Hc).
    exists r. eauto.
Qed.

(** X21. Without an edge table, with a ManagerID column (so that the run
    is not stopped) and without a DirectReports column (so that line 79
    does not raise), [compute_metrics] returns one annotated row per
    employee row. The employee identifiers being distinct as the data
    model has them, every employee whose manager names nobody on the
    roster gets depth 0: an empty manager cell, which reads [nan] after
    line 64, is such a manager unless some identifier reads [nan] too.
    And every employee who sits below no such employee gets depth 0,
    distinct identifiers or not. *)
Theorem depth_without_edges set_iter sheets ss et :
  (∀ s, set_iter s ≡ₚ elements s) →
  employees sheets = Some et →
  edges sheets = None →
  has_ManagerID et = true →
  has_DirectReports et = false →
  ∃ rows ss',
    compute_metrics set_iter sheets ss = (Returned (rows, et, None), ss') ∧
    base <$> rows = emp_rows et ∧
    (∀ row, row ∈ rows →
       no_known_manager (emp_rows et) (base row) →
       NoDup (EmployeeID <$> emp_rows et) →
       Depth row = 0) ∧
    (∀ row, row ∈ rows →
       (∀ x n, roster_root (emp_rows et) x →
               ¬ roster_below (emp_rows et) x (EmployeeID (base row)) n) →
       Depth row = 0).
Proof.
  intros Hperm Het Hes Hcol Hdr.
  destruct (compute_depth_total set_iter Hperm
              (links_of_employees (emp_rows et))
              (roots_of_employees (emp_rows et))
              (EmployeeID <$> emp_rows et)) as [dm Hdm].
  exists (annotate (groupby_count (manager_keys_of_employees (emp_rows et)))
            dm <$> emp_rows et), (prefill (principles sheets) ss).
  split_and!.
  - unfold compute_metrics, mgr_counts_of.
    rewrite Het, Hes, Hcol, Hdr. simpl. by rewrite Hdm.
  - apply base_annotate.
  - unfold compute_depth in Hdm.
    destruct (bfs_roots _ _ _ _ _) as [d|] eqn:Hbfs; [|done].
    injection Hdm as <-.
    intros row (r & -> & Hr)%list_elem_of_fmap Hroot Hnd. simpl in *.
    assert (Hin : EmployeeID r ∈ roots_of_employees (emp_rows et)).
    { apply elem_of_roots_of_employees. eauto. }
    rewrite depth_column_final. unfold depth_or_0.
    by rewrite (bfs_roots_zero set_iter Hperm (emp_rows et) Hnd _ d _ Hbfs Hin).
  - unfold compute_depth in Hdm.
    destruct (bfs_roots _ _ _ _ _) as [d|] eqn:Hbfs; [|done].
    injection Hdm as <-.
    intros row (r & -> & Hr)%list_elem_of_fmap Hstray. simpl in *.
    rewrite depth_column_final. unfold depth_or_0.
    destruct (d !! EmployeeID r) as [[n|]|] eqn:Hd; [|done|done].
    destruct (bfs_roots_sound set_iter Hperm _ _ _ _ d _ n Hbfs Hd)
      as (x & k & Hx & Hp).
    destruct (Hstray x k).
    + by apply elem_of_roots_of_employees.
    + by apply roster_below_path.
Qed.

Lemma depth_without_edges_witness :
  sheets_of [("Employees", csv_roster)] = Returned book_csv ∧
  ∃ rows ss',
    compute_metrics elements book_csv fresh_session
      = (Returned (rows, roster_csv, None), ss') ∧
    base <$> rows = emp_rows roster_csv ∧
    (λ r, (EmployeeID (base r), ManagerID (base r), Depth r)) <$> rows
      = [("A", Some "nan", 0); ("B", Some "A", 1);
         ("C", Some "A", 1); ("D", Some "B", 2)] ∧
    (∀ row, row ∈ rows →
       no_known_manager (emp_rows roster_csv) (base row) →
       Depth row = 0).
Proof.
  split; [vm_compute; reflexivity|].
  destruct (depth_without_edges elements book_csv fresh_session roster_csv
              (λ s, reflexivity _) eq_refl eq_refl eq_refl eq_refl)
    as (rows & ss' & Hcm & Hbase & Hroot & _).
  exists rows, ss'. split_and!; [exact Hcm|exact Hbase| |].
  - vm_compute in Hcm. by injection Hcm as <- _.
  - intros row Hrow Hno. apply (Hroot row Hrow Hno).
    apply (bool_decide_unpack _). vm_compute. exact I.
Defined.

(** C3, at a roster in which an identifier reads as a missing value: the
    file has the employee NA, whose manager is not on the roster, and the
    employee X, whose manager cell is empty. [read_csv] takes NA for a
    missing value, line 41 (or line 62) writes it [nan], and line 64
    writes the empty manager cell of X [nan] as well. X, who has no
    manager, is then a subordinate of NA: NA has one direct report, X has
    depth 1 and is no root, although the identifiers are distinct and the
    [dropna] of line 92 and the [isin] of line 94 are written for manager
    cells that are still missing. *)
Theorem blank_manager_under_missing_identifier :
  (column csv_na "ManagerID" ≫= λ c, cells c !! 1) = Some NaN ∧
  ∃ rep ss',
    app elements (Some csv_na_upload) default_targets fresh_session
      = (Returned rep, ss') ∧
    (λ r, (EmployeeID (base r), ManagerID (base r), DirectReports r, Depth r))
      <$> emp rep
    = [("nan", Some "ghost", 1, 0); ("X", Some "nan", 0, 1)] ∧
    NoDup ((λ r, EmployeeID (base r)) <$> emp rep) ∧
    roots_of_employees (base <$> emp rep) = ["nan"].
Proof.
  split; [reflexivity|]. eexists _, _. split_and!.
  - vm_compute. reflexivity.
  - vm_compute. reflexivity.
  - apply (bool_decide_unpack _). vm_compute. exact I.
  - vm_compute. reflexivity.
Qed.

(** The examples of the specification: depths 0, 1, 1, 2 and spans 2, 1,
    0, 0 on the roster of four, from the employee table and from the edge
    table alike. *)
Example roster4_metrics :
  ∃ rows rows',
    (compute_metrics elements book_without_edges fresh_session).1
      = Returned (rows, roster4, None) ∧
    (compute_metrics elements book_with_edges fresh_session).1
      = Returned (rows', roster4, Some edges4) ∧
    rows = rows' ∧
    (λ r, (EmployeeID (base r), Depth r, DirectReports r)) <$> rows
      = [("A", 0, 2); ("B", 1, 1); ("C", 1, 0); ("D", 2, 0)].
Proof. eexists _, _. split_and!; vm_compute; reflexivity. Qed.

(** On the roster with strays, X (unknown manager) is a root at depth 0,
    and P and Q, who name each other, are reached from no root and fall
    back to depth 0. *)
Example roster_stray_depths :
  ∃ rows,
    (compute_metrics elements book_stray fresh_session).1
      = Returned (rows, roster_stray, None) ∧
    (λ r, (EmployeeID (base r), Depth r)) <$> rows
      = [("A", 0); ("B", 1); ("X", 0); ("P", 0); ("Q", 0)] ∧
    roots_of_employees (emp_rows roster_stray) = ["A"; "X"].
Proof. eexists. split_and!; vm_compute; reflexivity. Qed.

(** Why the identifiers have to be distinct: when X is used for two rows,
    one without a manager and one under A, X is a root and is also
    assigned as A's subordinate before its turn as a root comes, so the
    row of X without a manager ends at depth 1. *)
Example repeated_identifier_depth :
  ∃ rows row,
    (compute_metrics elements (mkSheets (Some roster_repeated) None None false)
       fresh_session).1 = Returned (rows, roster_repeated, None) ∧
    (λ r, (EmployeeID (base r), ManagerID (base r), Depth r)) <$> rows
      = [("A", None, 0); ("X", None, 1); ("X", Some "A", 1)] ∧
    row ∈ rows ∧
    no_known_manager (emp_rows roster_repeated) (base row) ∧
    EmployeeID (base row) ∈ roots_of_employees (emp_rows roster_repeated) ∧
    Depth row ≠ 0.
Proof.
  eexists _, (mkEmpRow (staff "X" "Xan" None) 0 false 1).
  split_and!.
  - vm_compute. reflexivity.
  - vm_compute. reflexivity.
  - right. left.
  - exact I.
  - apply elem_of_roots_of_employees.
    exists (staff "X" "Xan" None). split_and!; [|done|exact I].
    right. left.
  - discriminate.
Qed.

(** ** The report *)

(** What a run that reaches the end of the script has computed. *)
Lemma run_returned set_iter sheets tg ss rep ss' :
  run set_iter sheets tg ss = (Returned rep, ss') →
  ∃ rows et eg md,
    compute_metrics set_iter sheets ss = (Returned (rows, et, eg), ss') ∧
    max_depth_of rows = Returned md ∧
    rep = mkReport rows (length rows) (length (manager_df rows))
            (manager_ratio (length (manager_df rows)) (length rows)) md
            (below_min_of tg (manager_df rows))
            (above_max_of tg (manager_df rows))
            (single_report_of (manager_df rows))
            (dup_titles_of et eg)
            (recs_of (has_FullName et) tg md
               (below_min_of tg (manager_df rows))
               (above_max_of tg (manager_df rows)) (dup_titles_of et eg))
            (take 50
               (recs_of (has_FullName et) tg md
                  (below_min_of tg (manager_df rows))
                  (above_max_of tg (manager_df rows)) (dup_titles_of et eg))).
Proof.
  unfold run. destruct (compute_metrics set_iter sheets ss) as [res ss1].
  destruct res as [[[rows et] eg]| | |]; simpl; try (by intros [=]).
  unfold report_of. simpl.
  destruct (max_depth_of rows) as [md| | |] eqn:Hmd; simpl;
    try (by intros [=]).
  unfold dup_titles_table.
  destruct eg as [es|];
    [destruct (has_JobRole et && edges_has_JobRole sheets)|]; simpl;
    try (by intros [=]).
  - intros [= <- <-]. by exists rows, et, (Some es), md.
  - intros [= <- <-]. by exists rows, et, None, md.
Qed.

Lemma max_depth_of_returned rows md :
  max_depth_of rows = Returned md →
  rows ≠ [] ∧ md = foldr Nat.max 0 (Depth <$> rows).
Proof. destruct rows; [done|]. by intros [= <-]. Qed.

Lemma foldr_max_bound (l : list nat) x :
  x ∈ l → x ≤ foldr Nat.max 0 l.
Proof.
  induction l as [|y l IH]; intros Hx; [by apply elem_of_nil in Hx|].
  simpl. apply elem_of_cons in Hx as [->|Hx]; [lia|].
  specialize (IH Hx). lia.
Qed.

Lemma foldr_max_attained (l : list nat) :
  l ≠ [] → foldr Nat.max 0 l ∈ l.
Proof.
  induction l as [|y l IH]; [done|]. intros _. simpl.
  destruct l as [|z l].
  - simpl. rewrite Nat.max_0_r. by left.
  - destruct (Nat.max_spec y (foldr Nat.max 0 (z :: l))) as [[_ ->]|[_ ->]].
    + right. by apply IH.
    + by left.
Qed.



(** C10. Whenever the minimum span target does not exceed the maximum, no
    row of a report is in both the below-minimum and the above-maximum
    subset. *)
Theorem span_flags_disjoint set_iter sheets tg ss rep ss' :
  run set_iter sheets tg ss = (Returned rep, ss') →
  min_span tg ≤ max_span tg →
  ∀ r, r ∈ below_min rep → r ∉ above_max rep.
Proof.
  intros Hrun Hle r Hlow Hhigh.
  apply run_returned in Hrun as (rows & et & eg & md & _ & _ & ->).
  simpl in *. unfold below_min_of in Hlow. unfold above_max_of in Hhigh.
  apply list_elem_of_filter in Hlow as [Hlow _].
  apply list_elem_of_filter in Hhigh as [Hhigh _]. lia.
Qed.

Lemma span_flags_disjoint_witness :
  ∃ rep ss',
    run elements book_without_edges targets_2_12_1 fresh_session
      = (Returned rep, ss') ∧
    below_min rep ≠ [] ∧
    ∀ r, r ∈ below_min rep → r ∉ above_max rep.
Proof.
  eexists _, _. split; [vm_compute; reflexivity|]. split; [done|].
  apply (span_flags_disjoint elements book_without_edges targets_2_12_1
           fresh_session _ fresh_session).
  - vm_compute. reflexivity.
  - vm_compute. lia.
Defined.

(** ** The duplicate-title table *)

Global Instance count_ge_total : Total count_ge.
Proof. intros a b. unfold count_ge. lia. Qed.

Global Instance count_ge_trans : Transitive count_ge.
Proof. intros a b c. unfold count_ge. lia. Qed.

Lemma role_counts_fold (cr : list (string * option string))
    (acc : gmap (string * string) nat) (m j : string) :
  fold_left
    (λ acc '(m, role),
       match role with
       | Some j => <[(m, j) := S (default 0 (acc !! (m, j)))]> acc
       | None => acc
       end) cr acc !! (m, j)
  = match length (filter (λ x, x = (m, Some j)) cr) with
    | 0 => acc !! (m, j)
    | S k => Some (default 0 (acc !! (m, j)) + S k)
    end.
Proof.
  revert acc. induction cr as [|[m' role] cr IH]; intros acc; [done|].
  cbn [fold_left]. rewrite IH, filter_cons.
  destruct role as [j'|].
  - destruct (decide ((m', j') = (m, j))) as [[= -> ->]|Hne].
    + rewrite decide_True by done. rewrite lookup_insert_eq. simpl.
      destruct (length _); f_equal; lia.
    + rewrite decide_False by congruence.
      by rewrite lookup_insert_ne.
  - by rewrite decide_False.
Qed.

Lemma role_counts_spec (cr : list (string * option string)) m j n :
  role_counts cr !! (m, j) = Some n
  ↔ n = length (filter (λ x, x = (m, Some j)) cr) ∧ 0 < n.
Proof.
  unfold role_counts. rewrite role_counts_fold, lookup_empty. simpl.
  destruct (length _) as [|k]; split.
  - done.
  - intros [-> ?]. lia.
  - intros [= <-]. split; [done|lia].
  - by intros [-> _].
Qed.

Lemma dup_titles_sorted et eg : StronglySorted count_ge (dup_titles_of et eg).
Proof.
  unfold dup_titles_of. destruct eg as [es|]; [|constructor].
  destruct (has_JobRole et); [|constructor].
  apply Sorted_StronglySorted; [apply _|]. apply Sorted_merge_sort, _.
Qed.



(** ** The recommendation list *)

Lemma fold_append {A B} (f : A → B) (l : list A) (acc : list B) :
  fold_left (λ acc r, acc ++ [f r]) l acc = acc ++ (f <$> l).
Proof.
  revert acc. induction l as [|x l IH]; intros acc; simpl.
  - by rewrite app_nil_r.
  - by rewrite IH, <- app_assoc.
Qed.

Lemma recs_of_spec has_name tg md below above dups :
  recs_of has_name tg md below above dups
  = (if bool_decide (max_layers_target tg < md)
     then [layers_msg md (max_layers_target tg)] else [])
    ++ (narrow_msg has_name tg <$> below)
    ++ (wide_msg has_name tg <$> above)
    ++ (dup_msg <$> take 20 dups).
Proof.
  unfold recs_of. rewrite !fold_append, <- !app_assoc.
  by destruct (bool_decide _).
Qed.

Lemma StronglySorted_take {A} (R : relation A) n (l : list A) :
  StronglySorted R l → StronglySorted R (take n l).
Proof.
  intros Hl. rewrite <- (take_drop n l) in Hl.
  by apply StronglySorted_app_1_l in Hl.
Qed.

Lemma filter_ext_elem {A} (P Q : A → Prop) `{!∀ x, Decision (P x)}
    `{!∀ x, Decision (Q x)} (l : list A) :
  (∀ x, x ∈ l → (P x ↔ Q x)) → filter P l = filter Q l.
Proof.
  induction l as [|x l IH]; intros HPQ; [done|].
  assert (Hx : P x ↔ Q x) by (apply HPQ; left).
  rewrite !filter_cons, IH by (intros y Hy; apply HPQ; by right).
  destruct (decide (P x)) as [HP|HP], (decide (Q x)) as [HQ|HQ];
    [done|tauto|tauto|done].
Qed.

Lemma filter_of_filter {A} (P Q : A → Prop) `{!∀ x, Decision (P x)}
    `{!∀ x, Decision (Q x)} (l : list A) :
  filter P (filter Q l) = filter (λ x, Q x ∧ P x) l.
Proof.
  induction l as [|x l IH]; [done|]. rewrite !filter_cons.
  destruct (decide (Q x)) as [HQ|HQ].
  - rewrite filter_cons, IH.
    destruct (decide (P x)) as [HP|HP].
    + by rewrite decide_True.
    + by rewrite decide_False by tauto.
  - rewrite IH. by rewrite decide_False by tauto.
Qed.

(** C4. A report ties its recommendation list to the employee data as
    follows. Its table has one row per employee row, in the same order,
    with the direct-report count of C2; its maximum depth is the depth of
    one of the rows and of none less than any; its duplicate-title table
    is the one of C7, counts never increasing. The recommendation list is
    then, in this order: one entry when the maximum depth exceeds the
    layer target (none otherwise); one entry for each row that has a
    direct report and fewer of them than the minimum span target, in table
    order; one entry for each row that has more direct reports than the
    maximum span target, in table order; and one entry for each of the
    first 20 rows of the duplicate-title table. What is displayed is the
    first 50 entries, a prefix of the list. *)
Theorem recs_order set_iter sheets tg ss rep ss' :
  run set_iter sheets tg ss = (Returned rep, ss') →
  ∃ et,
    employees sheets = Some et ∧
    base <$> emp rep = emp_rows et ∧
    (∀ r, r ∈ emp rep →
       DirectReports r
         = reporting_rows et (edges sheets) (EmployeeID (base r))) ∧
    (∀ r, r ∈ emp rep → Depth r ≤ max_depth rep) ∧
    (∃ r, r ∈ emp rep ∧ Depth r = max_depth rep) ∧
    dup_titles rep = dup_titles_of et (edges sheets) ∧
    StronglySorted count_ge (dup_titles rep) ∧
    recs rep
    = (if bool_decide (max_layers_target tg < max_depth rep)
       then [layers_msg (max_depth rep) (max_layers_target tg)]
       else [])
      ++ (narrow_msg (has_FullName et) tg
            <$> filter (λ r, 0 < DirectReports r ∧
                             DirectReports r < min_span tg) (emp rep))
      ++ (wide_msg (has_FullName et) tg
            <$> filter (λ r, 0 < DirectReports r ∧
                             max_span tg < DirectReports r) (emp rep))
      ++ (dup_msg <$> take 20 (dup_titles rep)) ∧
    shown rep = take 50 (recs rep) ∧
    shown rep `prefix_of` recs rep.
Proof.
  intros Hrun.
  apply run_returned in Hrun as (rows & et & eg & md & Hcm & Hmd & ->).
  apply max_depth_of_returned in Hmd as [Hne ->].
  apply compute_metrics_returned in Hcm
    as (Het & -> & _ & counts & depth & Hc & _ & ->).
  cbn [emp max_depth dup_titles recs shown].
  set (rows := annotate counts depth <$> emp_rows et).
  assert (Hmgr : ∀ P (HP : ∀ r, Decision (P r)),
            filter P (manager_df rows)
            = filter (λ r, 0 < DirectReports r ∧ P r) rows).
  { intros P HP. unfold manager_df. rewrite filter_of_filter.
    apply filter_ext_elem. intros r (e & -> & _)%list_elem_of_fmap. simpl.
    by rewrite bool_decide_eq_true. }
  exists et. split_and!.
  - done.
  - apply base_annotate.
  - intros r (e & -> & _)%list_elem_of_fmap. simpl.
    apply (mgr_counts_of_spec _ _ _ _ Hc).
  - intros r Hr. apply foldr_max_bound, list_elem_of_fmap. eauto.
  - destruct (proj1 (list_elem_of_fmap Depth rows _)
                (foldr_max_attained (Depth <$> rows)
                   (λ H, Hne (fmap_nil_inv _ _ H)))) as (r & Heq & Hr).
    eauto.
  - done.
  - apply dup_titles_sorted.
  - rewrite recs_of_spec. unfold below_min_of, above_max_of.
    by rewrite !Hmgr.
  - done.
  - apply prefix_take.
Qed.

Lemma recs_order_witness :
  ∃ rep ss',
    run elements book_roles targets_3_3_1 fresh_session = (Returned rep, ss') ∧
    base <$> emp rep = emp_rows roster_roles ∧
    recs rep
    = ["Reduce layers: current max depth 2 exceeds target 1; focus on middle layers for consolidation.";
       "Ann has a narrow span of 2 (< 3) — validate need for a distinct manager role or merge scope.";
       "Bob has 4 direct reports (> 3) — consider adding a lead layer or splitting scope.";
       "Manager B has 3 'Analyst' roles — assess overlap or broaden job scopes.";
       "Manager A has 2 'Engineer' roles — assess overlap or broaden job scopes."] ∧
    recs rep
    = (if bool_decide (max_layers_target targets_3_3_1 < max_depth rep)
       then [layers_msg (max_depth rep) (max_layers_target targets_3_3_1)]
       else [])
      ++ (narrow_msg true targets_3_3_1
            <$> filter (λ r, 0 < DirectReports r ∧
                             DirectReports r < min_span targets_3_3_1)
                  (emp rep))
      ++ (wide_msg true targets_3_3_1
            <$> filter (λ r, 0 < DirectReports r ∧
                             max_span targets_3_3_1 < DirectReports r)
                  (emp rep))
      ++ (dup_msg <$> take 20 (dup_titles rep)) ∧
    shown rep = take 50 (recs rep).
Proof.
  assert (∃ rep ss', run elements book_roles targets_3_3_1 fresh_session
                     = (Returned rep, ss')) as (rep & ss' & Hrun)
    by (eexists _, _; vm_compute; reflexivity).
  destruct (recs_order elements book_roles targets_3_3_1 fresh_session
              rep ss' Hrun)
    as (et & Het & Hbase & _ & _ & _ & _ & _ & Hrecs & Hshown & _).
  injection Het as <-.
  exists rep, ss'. split_and!; [exact Hrun|exact Hbase| |exact Hrecs|exact Hshown].
  vm_compute in Hrun. by injection Hrun as <- _.
Defined.

(** ** Reading the span rule *)

Lemma append_nil_l (s : string) : "" +:+ s = s.
Proof. reflexivity. Qed.

Lemma append_cons_l (c : ascii) (s t : string) :
  String c s +:+ t = String c (s +:+ t).
Proof. reflexivity. Qed.

Lemma contains_dash lhs rest :
  contains "-" (lhs +:+ String "-" rest) = true.
Proof.
  induction lhs as [|c lhs IH].
  - rewrite append_nil_l. simpl. by destruct rest.
  - rewrite append_cons_l. cbn [contains]. rewrite IH. apply orb_true_r.
Qed.

Lemma split_on_before_dash lhs rest :
  all_chars not_dash lhs = true →
  split_on "-" (lhs +:+ String "-" rest) = lhs :: split_on "-" rest.
Proof.
  induction lhs as [|c lhs IH]; intros Hfree.
  - by rewrite append_nil_l.
  - cbn [all_chars] in Hfree. apply andb_true_iff in Hfree as [Hc Hfree].
    rewrite append_cons_l. cbn [split_on]. rewrite (IH Hfree).
    unfold not_dash in Hc. by destruct (bool_decide (c = "-"%char)).
Qed.

Lemma split_on_first_word tok rest :
  all_chars not_dash tok = true →
  ends_word rest →
  ∃ p ps, split_on "-" (tok +:+ rest) = (tok +:+ p) :: ps ∧ ends_word p.
Proof.
  intros Hfree Hrest. induction tok as [|c tok IH].
  - rewrite append_nil_l.
    destruct rest as [|c rest]; [by exists "", []|].
    cbn [split_on]. simpl in Hrest.
    destruct (bool_decide (c = "-"%char)) eqn:Hc.
    + apply bool_decide_eq_true in Hc. by subst c.
    + destruct (split_on "-" rest) as [|p ps]; by eexists _, _.
  - cbn [all_chars] in Hfree. apply andb_true_iff in Hfree as [Hc Hfree].
    destruct (IH Hfree) as (p & ps & Heq & Hp).
    exists p, ps. split; [|done].
    rewrite !append_cons_l. cbn [split_on]. rewrite Heq.
    unfold not_dash in Hc. by destruct (bool_decide (c = "-"%char)).
Qed.

Lemma split_ws_aux_word cur tok rest :
  all_chars (λ c, negb (is_space c)) tok = true →
  split_ws_aux cur (tok +:+ rest)
  = split_ws_aux (rev (list_ascii_of_string tok) ++ cur) rest.
Proof.
  revert cur. induction tok as [|c tok IH]; intros cur Hword; [done|].
  cbn [all_chars] in Hword. apply andb_true_iff in Hword as [Hc Hword].
  rewrite append_cons_l. cbn [split_ws_aux list_ascii_of_string rev].
  apply negb_true_iff in Hc. rewrite Hc, (IH _ Hword).
  by rewrite <- app_assoc.
Qed.

Lemma split_ws_first_word tok rest :
  tok ≠ "" →
  all_chars (λ c, negb (is_space c)) tok = true →
  ends_word rest →
  split_ws (tok +:+ rest) !! 0 = Some tok.
Proof.
  intros Hne Hword Hrest. unfold split_ws.
  rewrite (split_ws_aux_word [] tok rest Hword), app_nil_r.
  assert (Hflush : ∃ c cur, rev (list_ascii_of_string tok) = c :: cur).
  { destruct (rev (list_ascii_of_string tok)) as [|c cur] eqn:Hrev; [|eauto].
    apply (f_equal (@rev ascii)) in Hrev. rewrite rev_involutive in Hrev.
    by destruct tok. }
  destruct Hflush as (c & cur & Hrev).
  assert (Htok : string_of_list_ascii (rev (c :: cur)) = tok).
  { by rewrite <- Hrev, rev_involutive, string_of_list_ascii_of_string. }
  rewrite Hrev. destruct rest as [|s rest]; cbn [split_ws_aux].
  - by rewrite Htok.
  - simpl in Hrest. rewrite Hrest, Htok. done.
Qed.

Lemma all_chars_impl (p q : ascii → bool) s :
  (∀ c, p c = true → q c = true) →
  all_chars p s = true → all_chars q s = true.
Proof.
  intros Hpq. induction s as [|c s IH]; [done|]. cbn [all_chars].
  rewrite !andb_true_iff. intros [Hc Hs]. split; [by apply Hpq|by apply IH].
Qed.

Lemma append_assoc_l (a b c : string) : (a +:+ b) +:+ c = a +:+ (b +:+ c).
Proof.
  induction a as [|x a IH]; [done|]. by rewrite !append_cons_l, IH.
Qed.

Lemma all_chars_append p a b :
  all_chars p (a +:+ b) = all_chars p a && all_chars p b.
Proof.
  induction a as [|x a IH]; [done|].
  rewrite append_cons_l. cbn [all_chars]. by rewrite IH, andb_assoc.
Qed.

Lemma space_not_dash c : is_space c = true → not_dash c = true.
Proof.
  unfold not_dash. destruct (bool_decide (c = "-"%char)) eqn:Hc; [|done].
  apply bool_decide_eq_true in Hc. by subst c.
Qed.

Lemma split_ws_aux_gap gap s :
  all_chars is_space gap = true →
  split_ws_aux [] (gap +:+ s) = split_ws_aux [] s.
Proof.
  induction gap as [|c gap IH]; intros Hgap; [done|].
  cbn [all_chars] in Hgap. apply andb_true_iff in Hgap as [Hc Hgap].
  rewrite append_cons_l. cbn [split_ws_aux]. rewrite Hc. by apply IH.
Qed.

(** On a rule text of the shape [lhs-tok rest], where [lhs] has no dash,
    [tok] is a word (spaces may come before it) and [rest] is empty or
    starts with a space, the first [try] block reads the digits of [lhs]
    and the digits of [tok]. *)
Lemma seed_span_shape ps ss lhs gap tok rest :
  first_rule "Span" ps
    = Some (inl (lhs +:+ String "-" (gap +:+ tok +:+ rest))) →
  all_chars not_dash lhs = true →
  all_chars is_space gap = true →
  tok ≠ "" →
  all_chars word_char tok = true →
  ends_word rest →
  seed_span ps ss
  = match int_of_digits (digits_of lhs) with
    | Some lo =>
        match int_of_digits (digits_of tok) with
        | Some hi => set_max_span (set_min_span ss lo) hi
        | None => set_min_span ss lo
        end
    | None => ss
    end.
Proof.
  intros Hrule Hlhs Hgap Hne Htok Hrest. unfold seed_span.
  assert (Hword : all_chars (λ c, negb (is_space c)) tok = true).
  { revert Htok. apply all_chars_impl. unfold word_char.
    intros c. rewrite andb_true_iff. tauto. }
  assert (Hdash : all_chars not_dash (gap +:+ tok) = true).
  { rewrite all_chars_append. apply andb_true_iff. split.
    - revert Hgap. apply all_chars_impl, space_not_dash.
    - revert Htok. apply all_chars_impl. unfold word_char.
      intros c. rewrite andb_true_iff. tauto. }
  rewrite Hrule, contains_dash, split_on_before_dash by done.
  rewrite <- append_assoc_l.
  destruct (split_on_first_word (gap +:+ tok) rest Hdash Hrest)
    as (p & ps' & -> & Hp).
  cbn [lookup list_lookup mbind option_bind].
  unfold split_ws. rewrite append_assoc_l, split_ws_aux_gap by done.
  fold (split_ws (tok +:+ p)).
  by rewrite split_ws_first_word.
Qed.

Lemma split_on_dashless s :
  all_chars not_dash s = true → split_on "-" s = [s].
Proof.
  induction s as [|c s IH]; intros Hfree; [done|].
  cbn [all_chars] in Hfree. apply andb_true_iff in Hfree as [Hc Hfree].
  cbn [split_on]. rewrite (IH Hfree).
  unfold not_dash in Hc. by destruct (bool_decide (c = "-"%char)).
Qed.

Lemma contains_no_dash s :
  all_chars not_dash s = true → contains "-" s = false.
Proof.
  induction s as [|c s IH]; intros Hfree; [done|].
  cbn [all_chars] in Hfree. apply andb_true_iff in Hfree as [Hc Hfree].
  cbn [contains]. rewrite (IH Hfree), orb_false_r.
  cbv [String.prefix]. by destruct (ascii_dec "-" c) as [<-|Hne].
Qed.

Lemma pieces_of_rule lhs after mid :
  all_chars not_dash lhs = true →
  up_to_dash after mid →
  ∃ more, split_on "-" (lhs +:+ String "-" after) = lhs :: mid :: more.
Proof.
  intros Hlhs [Hmid [->|[more ->]]]; rewrite split_on_before_dash by done.
  - exists []. by rewrite split_on_dashless.
  - exists (split_on "-" more). by rewrite split_on_before_dash.
Qed.

Lemma split_ws_blank mid : all_chars is_space mid = true → split_ws mid = [].
Proof.
  unfold split_ws. induction mid as [|c mid IH]; intros Hblank; [done|].
  cbn [all_chars] in Hblank. apply andb_true_iff in Hblank as [Hc Hblank].
  cbn [split_ws_aux]. rewrite Hc. by apply IH.
Qed.

(** The first [try] block on any rule text with a dash. *)
Lemma seed_span_cases ps ss lhs after mid :
  first_rule "Span" ps = Some (inl (lhs +:+ String "-" after)) →
  all_chars not_dash lhs = true →
  up_to_dash after mid →
  (all_chars is_space mid = true → seed_span ps ss = ss) ∧
  (∀ tok, first_word mid tok →
     seed_span ps ss
     = match int_of_digits (digits_of lhs) with
       | Some lo =>
           match int_of_digits (digits_of tok) with
           | Some hi => set_max_span (set_min_span ss lo) hi
           | None => set_min_span ss lo
           end
       | None => ss
       end).
Proof.
  intros Hrule Hlhs Hmid. unfold seed_span. rewrite Hrule, contains_dash.
  destruct (pieces_of_rule lhs after mid Hlhs Hmid) as [more ->].
  cbn [lookup list_lookup mbind option_bind]. split.
  - intros Hblank. by rewrite split_ws_blank.
  - intros tok (gap & rest & -> & Hgap & Hne & Htok & Hrest).
    unfold split_ws. rewrite split_ws_aux_gap by done.
    fold (split_ws (tok +:+ rest)).
    by rewrite split_ws_first_word.
Qed.

(** Every text falls under one of the cases. *)
Lemma cut_first_dash s :
  all_chars not_dash s = true ∨
  ∃ lhs after, s = lhs +:+ String "-" after ∧ all_chars not_dash lhs = true.
Proof.
  induction s as [|c s IH]; [by left|].
  destruct (not_dash c) eqn:Hc.
  - destruct IH as [Hfree|(lhs & after & -> & Hlhs)].
    + left. cbn [all_chars]. by rewrite Hc, Hfree.
    + right. exists (String c lhs), after. split; [done|].
      cbn [all_chars]. by rewrite Hc, Hlhs.
  - right. exists "", s. split; [|done].
    unfold not_dash in Hc. apply negb_false_iff, bool_decide_eq_true in Hc.
    by subst c.
Qed.

Lemma up_to_dash_exists after : ∃ mid, up_to_dash after mid.
Proof.
  destruct (cut_first_dash after) as [Hfree|(mid & more & -> & Hmid)].
  - exists after. split; [done|by left].
  - exists mid. split; [done|]. right. by exists more.
Qed.

Lemma word_run s :
  ∃ tok rest, s = tok +:+ rest ∧
              all_chars (λ c, negb (is_space c)) tok = true ∧ ends_word rest.
Proof.
  induction s as [|c s (tok & rest & -> & Htok & Hrest)].
  - by exists "", "".
  - destruct (is_space c) eqn:Hc.
    + by exists "", (String c (tok +:+ rest)).
    + exists (String c tok), rest. split_and!; [done| |done].
      cbn [all_chars]. by rewrite Hc, Htok.
Qed.

Lemma first_word_or_blank mid :
  all_chars is_space mid = true ∨ ∃ tok, first_word mid tok.
Proof.
  induction mid as [|c mid IH]; [by left|].
  destruct (is_space c) eqn:Hc.
  - destruct IH as [Hblank|(tok & gap & rest & -> & Hgap & Hne & Htok & Hrest)].
    + left. cbn [all_chars]. by rewrite Hc, Hblank.
    + right. exists tok, (String c gap), rest. split_and!; try done.
      cbn [all_chars]. by rewrite Hc, Hgap.
  - right. destruct (word_run mid) as (tok & rest & -> & Htok & Hrest).
    exists (String c tok), "", rest. split_and!; try done.
    cbn [all_chars]. by rewrite Hc, Htok.
Qed.

(** ** The seeding runs once *)

Lemma prefill_done ps ss :
  prefilled_from_principles ss = Some true → prefill ps ss = ss.
Proof. unfold prefill. intros ->. by destruct ps. Qed.

Lemma prefill_changes ps ss :
  prefill ps ss = ss ∨
  prefilled_from_principles (prefill ps ss) = Some true.
Proof.
  unfold prefill. destruct ps as [ps|]; [|by left].
  destruct (bool_decide _); [by right|by left].
Qed.

Lemma run_session set_iter sheets tg ss :
  (run set_iter sheets tg ss).2 = ss ∨
  (run set_iter sheets tg ss).2 = prefill (principles sheets) ss.
Proof.
  unfold run, compute_metrics. destruct (employees sheets) as [et|];
    [|by left].
  destruct (mgr_counts_of et (edges sheets)); try by left.
  destruct (has_DirectReports et); [by left|].
  destruct (compute_depth _ _ _ _); [by right|by left].
Qed.

Lemma run_session_done set_iter sheets tg ss :
  prefilled_from_principles ss = Some true →
  (run set_iter sheets tg ss).2 = ss.
Proof.
  intros Hdone. destruct (run_session set_iter sheets tg ss) as [->| ->];
    [done|]. by apply prefill_done.
Qed.

Lemma changes_after_seeding set_iter uploads ss :
  prefilled_from_principles ss = Some true →
  changes (session_trace set_iter uploads ss) = 0.
Proof.
  revert ss. induction uploads as [|[sheets tg] uploads IH]; intros ss Hdone;
    [done|].
  cbn [session_trace]. rewrite (run_session_done _ _ _ _ Hdone).
  specialize (IH ss Hdone).
  destruct uploads as [|[sheets' tg'] uploads]; cbn [session_trace changes] in *;
    rewrite decide_True by done; [done|].
  by rewrite (run_session_done _ _ _ _ Hdone) in *.
Qed.

Lemma changes_cons a trace :
  changes (a :: trace)
  = match trace with
    | [] => 0
    | b :: _ => (if decide (a = b) then 0 else 1) + changes trace
    end.
Proof. by destruct trace. Qed.

Lemma session_trace_head set_iter uploads ss :
  ∃ rest, session_trace set_iter uploads ss = ss :: rest.
Proof. destruct uploads as [|[sheets tg] uploads]; simpl; eauto. Qed.

Lemma seeding_at_most_once set_iter uploads ss :
  changes (session_trace set_iter uploads ss) ≤ 1.
Proof.
  revert ss. induction uploads as [|[sheets tg] uploads IH]; intros ss;
    [simpl; lia|].
  cbn [session_trace]. rewrite changes_cons.
  destruct (session_trace_head set_iter uploads (run set_iter sheets tg ss).2)
    as [rest Hrest].
  rewrite Hrest. rewrite <- Hrest.
  destruct (decide (ss = (run set_iter sheets tg ss).2)) as [Heq|Hne].
  - simpl. apply IH.
  - rewrite changes_after_seeding; [lia|].
    destruct (run_session set_iter sheets tg ss) as [Hsame|Hpre];
      [congruence|].
    rewrite Hpre in *.
    destruct (prefill_changes (principles sheets) ss); [congruence|done].
Qed.

Lemma layer_tokens (tokens : list string) :
  omap (λ s, if isdigit s then int_of_digits s else None) tokens
  = decimal_value 0 <$> filter (λ s, isdigit s = true) tokens.
Proof.
  induction tokens as [|s tokens IH]; [done|].
  rewrite filter_cons. cbn [omap list_omap]. rewrite IH.
  unfold int_of_digits. destruct (isdigit s) eqn:Hs.
  - by rewrite decide_True.
  - by rewrite decide_False.
Qed.

(** The report of a run depends neither on the Principles sheet nor on the
    session state. *)
Lemma report_ignores_principles set_iter sheets tg ss ps ss' :
  (run set_iter sheets tg ss).1
  = (run set_iter (mkSheets (employees sheets) (edges sheets) ps
            (edges_has_JobRole sheets)) tg ss').1.
Proof.
  unfold run, compute_metrics. simpl.
  destruct (employees sheets) as [et|]; [|done].
  destruct (mgr_counts_of et (edges sheets)); try done.
  destruct (has_DirectReports et); [done|].
  by destruct (compute_depth _ _ _ _).
Qed.

Lemma unread_rules_change_nothing set_iter sheets tg ss ps :
  principles sheets = Some ps →
  seed_span ps ss = ss →
  seed_layers ps ss = ss →
  (run set_iter sheets tg ss).1
    = (run set_iter (mkSheets (employees sheets) (edges sheets) None
                       (edges_has_JobRole sheets))
         tg ss).1 ∧
  cached_min_span (run set_iter sheets tg ss).2 = cached_min_span ss ∧
  cached_max_span (run set_iter sheets tg ss).2 = cached_max_span ss ∧
  cached_max_layers (run set_iter sheets tg ss).2 = cached_max_layers ss.
Proof.
  intros Hps Hspan Hlayers. split; [apply report_ignores_principles|].
  destruct (run_session set_iter sheets tg ss) as [->| ->]; [done|].
  rewrite Hps. unfold prefill. destruct (bool_decide _); [|done].
  by rewrite Hspan, Hlayers.
Qed.

(** C6, as the code has it. The span rule is cut at its dashes. With
    [lhs] the text before the first dash and [mid] the text between the
    first dash and the second (or the end of the text), the cached
    minimum is the number written by all the digits of [lhs] and the
    cached maximum the number written by all the digits of the first
    whitespace-delimited word of [mid]. Nothing is cached when [mid] holds
    no word or [lhs] no digit; the minimum alone is cached when the word
    holds no digit. A missing rule, a rule that is not text or a text
    without dash caches nothing; every text falls under one of these
    cases. The layer target is the first token of the rule made of digits
    only; without such a token nothing is cached. None of this raises;
    when neither rule could be read the report is the one of the same
    workbook without a Principles sheet and the cached targets are what
    they were; and along any sequence of runs the session state changes at
    most once: the seeding block runs at most once per session. *)
Theorem principles_seeding :
  (∀ ps ss lhs after mid,
     first_rule "Span" ps = Some (inl (lhs +:+ String "-" after)) →
     all_chars not_dash lhs = true →
     up_to_dash after mid →
     (all_chars is_space mid = true → seed_span ps ss = ss) ∧
     (∀ tok, first_word mid tok →
        seed_span ps ss
        = match int_of_digits (digits_of lhs) with
          | Some lo =>
              match int_of_digits (digits_of tok) with
              | Some hi => set_max_span (set_min_span ss lo) hi
              | None => set_min_span ss lo
              end
          | None => ss
          end)) ∧
  (∀ ps ss,
     first_rule "Span" ps = None ∨
     (∃ s, first_rule "Span" ps = Some (inr s)) ∨
     (∃ s, first_rule "Span" ps = Some (inl s) ∧
           all_chars not_dash s = true) →
     seed_span ps ss = ss) ∧
  (∀ s,
     all_chars not_dash s = true ∨
     ∃ lhs after mid,
       s = lhs +:+ String "-" after ∧
       all_chars not_dash lhs = true ∧
       up_to_dash after mid ∧
       (all_chars is_space mid = true ∨ ∃ tok, first_word mid tok)) ∧
  (∀ ps ss,
     seed_layers ps ss
     = match first_rule "Layer" ps with
       | Some rule =>
           match head (filter (λ s, isdigit s = true)
                         (split_ws (cell_text rule))) with
           | Some tok => set_max_layers ss (decimal_value 0 tok)
           | None => ss
           end
       | None => ss
       end) ∧
  (∀ set_iter sheets tg ss ps,
     principles sheets = Some ps →
     seed_span ps ss = ss →
     seed_layers ps ss = ss →
     (run set_iter sheets tg ss).1
       = (run set_iter (mkSheets (employees sheets) (edges sheets) None
                          (edges_has_JobRole sheets))
            tg ss).1 ∧
     cached_min_span (run set_iter sheets tg ss).2 = cached_min_span ss ∧
     cached_max_span (run set_iter sheets tg ss).2 = cached_max_span ss ∧
     cached_max_layers (run set_iter sheets tg ss).2
       = cached_max_layers ss) ∧
  (∀ set_iter uploads ss, changes (session_trace set_iter uploads ss) ≤ 1).
Proof.
  split_and!; [| | | |by apply unread_rules_change_nothing|].
  - apply seed_span_cases.
  - intros ps ss [Hnone|[[s Hs]|(s & Hs & Hdash)]]; unfold seed_span.
    + by rewrite Hnone.
    + by rewrite Hs.
    + by rewrite Hs, contains_no_dash.
  - intros s. destruct (cut_first_dash s) as [Hfree|(lhs & after & -> & Hlhs)];
      [by left|].
    right. destruct (up_to_dash_exists after) as [mid Hmid].
    exists lhs, after, mid. split_and!; [done|done|done|].
    apply first_word_or_blank.
  - intros ps ss. unfold seed_layers.
    destruct (first_rule "Layer" ps) as [rule|]; [|done].
    rewrite layer_tokens.
    by destruct (filter _ (split_ws (cell_text rule))).
  - apply seeding_at_most_once.
Qed.

Lemma principles_seeding_witness :
  seed_span principles_5_9 fresh_session
    = set_max_span (set_min_span fresh_session 5) 9 ∧
  seed_span principles_decimal fresh_session
    = set_max_span (set_min_span fresh_session 25) 12 ∧
  seed_span [mkPrinciple "Span" (inl "4-12-20 reports")] fresh_session
    = set_max_span (set_min_span fresh_session 4) 12 ∧
  seed_span [mkPrinciple "Span" (inl "4-x")] fresh_session
    = set_min_span fresh_session 4 ∧
  seed_span [mkPrinciple "Span" (inl "4-")] fresh_session = fresh_session ∧
  seed_span [] fresh_session = fresh_session ∧
  seed_layers principles_5_9 fresh_session = set_max_layers fresh_session 0 ∧
  changes (session_trace elements
             [(book_principles, default_targets);
              (book_principles, default_targets)] fresh_session) ≤ 1.
Proof.
  destruct principles_seeding as (Hshape & Hfail & _ & Hlayers & _ & Honce).
  split_and!.
  - apply (proj2 (Hshape principles_5_9 fresh_session "5" "9 direct reports"
                    "9 direct reports" eq_refl eq_refl
                    (conj eq_refl (or_introl eq_refl))) "9").
    exists "", " direct reports".
    split_and!; [reflexivity|reflexivity|discriminate|reflexivity
                |reflexivity].
  - apply (proj2 (Hshape principles_decimal fresh_session "2.5"
                    "12 direct reports" "12 direct reports" eq_refl eq_refl
                    (conj eq_refl (or_introl eq_refl))) "12").
    exists "", " direct reports".
    split_and!; [reflexivity|reflexivity|discriminate|reflexivity
                |reflexivity].
  - apply (proj2 (Hshape [mkPrinciple "Span" (inl "4-12-20 reports")]
                    fresh_session "4" "12-20 reports" "12" eq_refl eq_refl
                    (conj eq_refl
                       (or_intror (ex_intro _ "20 reports" eq_refl)))) "12").
    exists "", "".
    split_and!; [reflexivity|reflexivity|discriminate|reflexivity|exact I].
  - apply (proj2 (Hshape [mkPrinciple "Span" (inl "4-x")] fresh_session
                    "4" "x" "x" eq_refl eq_refl
                    (conj eq_refl (or_introl eq_refl))) "x").
    exists "", "".
    split_and!; [reflexivity|reflexivity|discriminate|reflexivity|exact I].
  - apply (proj1 (Hshape [mkPrinciple "Span" (inl "4-")] fresh_session
                    "4" "" "" eq_refl eq_refl
                    (conj eq_refl (or_introl eq_refl)))).
    reflexivity.
  - apply Hfail. left. reflexivity.
  - apply Hlayers.
  - apply Honce.
Defined.

(** The reading of the span rule in the words of the specification differs
    from the code on "2.5-12 direct reports": the code caches 25, the
    leading run of digits is 2. *)
Lemma seeding_leading_runs_counterexample :
  cached_min_span (seed_span principles_decimal fresh_session) = Some 25 ∧
  cached_min_span (seed_span_leading_runs principles_decimal fresh_session)
    = Some 2 ∧
  seed_span principles_decimal fresh_session
    ≠ seed_span_leading_runs principles_decimal fresh_session.
Proof. split_and!; [vm_compute; reflexivity..|vm_compute; discriminate]. Qed.

(** Digits are collected wherever they stand on each side. *)
Example seed_span_spaced :
  seed_span [mkPrinciple "Span of control" (inl "about 4 - 12 direct reports")]
    fresh_session
  = set_max_span (set_min_span fresh_session 4) 12.
Proof. vm_compute. reflexivity. Qed.

(** A failure half-way through the span rule keeps what was already
    cached: on "4-x" the minimum is cached, the maximum is not. *)
Example seed_span_half :
  seed_span [mkPrinciple "Span" (inl "4-x")] fresh_session
  = set_min_span fresh_session 4.
Proof. vm_compute. reflexivity. Qed.

(** Only the text between the first and the second dash is read for the
    maximum: on "4-12-20 reports" the maximum is 12. *)
Example seed_span_two_dashes :
  seed_span [mkPrinciple "Span" (inl "4-12-20 reports")] fresh_session
  = set_max_span (set_min_span fresh_session 4) 12.
Proof. vm_compute. reflexivity. Qed.

(** Without a word after the dash nothing is cached, not even the
    minimum: on "4-" line 119 raises before line 120 assigns. *)
Example seed_span_no_word :
  seed_span [mkPrinciple "Span" (inl "4-")] fresh_session = fresh_session.
Proof. vm_compute. reflexivity. Qed.

(** ** The cache is written and never read *)

(** C5, at a workbook whose Principles sheet asks for spans of 5 to 9 and
    for 0 layers, with the widgets at their defaults 4, 12 and 6: the
    session caches 5, 9 and 0, but A, who has 4 direct reports, is not
    flagged below the minimum, and the depth of 1 draws no
    recommendation: the thresholds in force are the widgets'. *)
Theorem cached_targets_not_in_force :
  ∃ rep ss',
    run elements book_principles default_targets fresh_session
      = (Returned rep, ss') ∧
    cached_min_span ss' = Some 5 ∧
    cached_max_span ss' = Some 9 ∧
    cached_max_layers ss' = Some 0 ∧
    (DirectReports <$> manager_df (emp rep)) = [4] ∧
    max_depth rep = 1 ∧
    below_min rep = [] ∧
    recs rep = [].
Proof. eexists _, _. split_and!; vm_compute; reflexivity. Qed.

(** ** When a run halts *)

Lemma max_depth_of_annotate counts depth rows :
  match max_depth_of (annotate counts depth <$> rows) with
  | Returned _ => rows ≠ []
  | Raised _ => rows = []
  | _ => False
  end.
Proof. by destruct rows. Qed.

(** How a run on the picked sheets ends: stopped with an error message
    exactly on the two missing-input conditions; ended by the [KeyError]
    of line 79 when the Employees sheet has a DirectReports column of its
    own, by the exception of line 153 when it has no row, by the
    [KeyError] of line 163 when the edge table and the Employees sheet
    both have a JobRole column; completed otherwise. *)
Lemma run_outcome set_iter sheets tg ss :
  (∀ s, set_iter s ≡ₚ elements s) →
  match (run set_iter sheets tg ss).1 with
  | Stopped m =>
      (employees sheets = None ∧ m = no_employees_msg) ∨
      (∃ et, employees sheets = Some et ∧ edges sheets = None ∧
             has_ManagerID et = false ∧ m = no_reporting_msg)
  | Raised e =>
      ∃ et, employees sheets = Some et ∧
            (edges sheets ≠ None ∨ has_ManagerID et = true) ∧
            ((has_DirectReports et = true ∧ e = key_error "DirectReports") ∨
             (has_DirectReports et = false ∧ emp_rows et = [] ∧
              e = "ValueError: cannot convert float NaN to integer") ∨
             (has_DirectReports et = false ∧ emp_rows et ≠ [] ∧
              edges sheets ≠ None ∧ has_JobRole et = true ∧
              edges_has_JobRole sheets = true ∧ e = key_error "JobRole"))
  | Returned _ =>
      ∃ et, employees sheets = Some et ∧ emp_rows et ≠ [] ∧
            (edges sheets ≠ None ∨ has_ManagerID et = true) ∧
            has_DirectReports et = false ∧
            (edges sheets = None ∨ has_JobRole et = false ∨
             edges_has_JobRole sheets = false)
  | OutOfFuel => False
  end.
Proof.
  intros Hperm. unfold run, compute_metrics.
  destruct (employees sheets) as [et|]; [|by left].
  assert (Hsrc : ∀ counts, mgr_counts_of et (edges sheets) = Returned counts →
                 edges sheets ≠ None ∨ has_ManagerID et = true).
  { unfold mgr_counts_of. destruct (edges sheets); [by left|].
    destruct (has_ManagerID et); [by right|done]. }
  destruct (mgr_counts_of et (edges sheets)) as [counts|m|e|] eqn:Hc.
  - destruct (has_DirectReports et) eqn:Hdr.
    { simpl. exists et. split_and!; [done|by eapply Hsrc|by left]. }
    destruct (compute_depth_total set_iter Hperm
                (links_of et (edges sheets)) (roots_of et (edges sheets))
                (EmployeeID <$> emp_rows et)) as [depth ->].
    simpl. unfold report_of.
    pose proof (max_depth_of_annotate counts depth (emp_rows et)) as Hmd.
    destruct (max_depth_of _) as [md|?|e|] eqn:Hmax; simpl; try done.
    + unfold dup_titles_table.
      destruct (edges sheets) as [es|] eqn:Hes.
      * destruct (has_JobRole et) eqn:Hrole,
          (edges_has_JobRole sheets) eqn:Hflag; simpl.
        -- exists et. split_and!; [done|by left|].
           right. right. by split_and!.
        -- exists et. split_and!; eauto.
        -- exists et. split_and!; eauto.
        -- exists et. split_and!; eauto.
      * exists et. split_and!; eauto.
    + exists et. split_and!; [done|by eapply Hsrc|].
      right. left. split_and!; [done|done|].
      destruct (emp_rows et); [|done]. simpl in Hmax. by injection Hmax as <-.
  - simpl. right. exists et. unfold mgr_counts_of in Hc.
    destruct (edges sheets); [done|].
    destruct (has_ManagerID et); [done|]. by injection Hc as <-.
  - unfold mgr_counts_of in Hc. destruct (edges sheets); [done|].
    by destruct (has_ManagerID et).
  - unfold mgr_counts_of in Hc. destruct (edges sheets); [done|].
    by destruct (has_ManagerID et).
Qed.

(** C8, at an Employees sheet that has its columns and no row: neither
    missing-input condition holds, [compute_metrics] returns, and the run
    is ended by the exception of line 153. *)
Theorem empty_roster_raises :
  (∃ et, employees book_empty = Some et ∧ has_ManagerID et = true) ∧
  (compute_metrics elements book_empty fresh_session).1
    = Returned ([], mkEmployees true true true false [], None) ∧
  (run elements book_empty default_targets fresh_session).1
    = Raised "ValueError: cannot convert float NaN to integer".
Proof. split_and!; [by eexists|vm_compute; reflexivity..]. Qed.

(** * Further properties of the script *)

(** ** Depths on any table *)

Section chain_depth.

Variable set_iter : gset string → list string.
Hypothesis set_iter_perm : ∀ s, set_iter s ≡ₚ elements s.
Variable links : list (string * string).

Lemma chain_inv_cur done d cur q :
  chain_inv links done d (cur :: q) →
  ∃ r, r ∈ done ∧ path links r cur (depth_or_0 d cur).
Proof.
  intros (Hset & Hpend & Hsome). unfold depth_or_0.
  destruct (d !! cur) as [[n|]|] eqn:Hcur.
  - by apply Hset.
  - destruct (Hsome cur); [by left|done].
  - destruct (Hpend cur) as [Hin|Hu]; [by left| |].
    + exists cur. split; [done|constructor].
    + unfold is_unset in Hu. by rewrite Hcur in Hu.
Qed.

Lemma chain_inv_child done d cur q ch :
  chain_inv links done d (cur :: q) →
  ch ∈ children_of set_iter (build_parent_of links) cur →
  is_unset d ch = true →
  chain_inv links done (<[ch := Some (depth_or_0 d cur + 1)]> d)
    (cur :: (q ++ [ch])).
Proof.
  intros Hinv Hch%children_of_spec _; [|done].
  destruct (chain_inv_cur done d cur q Hinv) as (r & Hr & Hp).
  destruct Hinv as (Hset & Hpend & Hsome).
  assert (Hold : ∀ x, x ∈ cur :: q →
    (x ∈ done ∨ is_unset (<[ch := Some (depth_or_0 d cur + 1)]> d) x = false)
    ∧ <[ch := Some (depth_or_0 d cur + 1)]> d !! x ≠ Some None).
  { intros x Hx. split.
    - destruct (Hpend x Hx) as [?|Hu]; [by left|right].
      rewrite is_unset_insert. by case_decide.
    - destruct (decide (ch = x)) as [<-|Hne].
      + by rewrite lookup_insert_eq.
      + rewrite lookup_insert_ne by done. by apply Hsome. }
  split_and!.
  - intros x n. destruct (decide (ch = x)) as [<-|Hne].
    + rewrite lookup_insert_eq. intros [= <-]. exists r. split; [done|].
      rewrite Nat.add_1_r. by apply path_down with cur.
    + rewrite lookup_insert_ne by done. apply Hset.
  - intros x [->|[Hx|Hx%list_elem_of_singleton]%elem_of_app]%elem_of_cons.
    + apply Hold. by left.
    + apply Hold. by right.
    + subst x. right. by rewrite is_unset_insert, decide_True.
  - intros x [->|[Hx|Hx%list_elem_of_singleton]%elem_of_app]%elem_of_cons.
    + apply Hold. by left.
    + apply Hold. by right.
    + subst x. by rewrite lookup_insert_eq.
Qed.

Lemma chain_inv_pop done d cur q :
  chain_inv links done d (cur :: q) →
  (∀ ch, ch ∈ children_of set_iter (build_parent_of links) cur →
         is_unset d ch = false) →
  chain_inv links done d q.
Proof.
  intros (Hset & Hpend & Hsome) _. split_and!; [done| |].
  - intros x Hx. apply Hpend. by right.
  - intros x Hx. apply Hsome. by right.
Qed.

Lemma chain_inv_root done d r :
  True →
  chain_inv links done d [] →
  chain_inv links (r :: done) (start_root d r) [r].
Proof.
  intros _ (Hset & _ & _). split_and!.
  - intros x n Hx.
    assert (Hcase : (x = r ∧ n = 0) ∨ d !! x = Some (Some n)).
    { revert Hx. unfold start_root.
      destruct (d !! r) as [[?|]|]; try by right.
      destruct (decide (r = x)) as [<-|Hne].
      - rewrite lookup_insert_eq. intros [= <-]. by left.
      - rewrite lookup_insert_ne by done. by right. }
    destruct Hcase as [[-> ->]|Hx'].
    + exists r. split; [by left|constructor].
    + destruct (Hset x n Hx') as (r' & Hr' & Hp). exists r'.
      split; [by right|done].
  - intros x ->%list_elem_of_singleton. left. by left.
  - intros x ->%list_elem_of_singleton. unfold start_root.
    destruct (d !! r) as [[?|]|] eqn:Hr; try by rewrite Hr.
    by rewrite lookup_insert_eq.
Qed.

(** A depth held after the traversal is the length of a chain from one of
    the roots. *)
Lemma bfs_roots_chain fuel roots ids d x n :
  bfs_roots set_iter fuel (build_parent_of links) roots (init_depth ids)
    = Some d →
  d !! x = Some (Some n) →
  ∃ r, r ∈ roots ∧ path links r x n.
Proof.
  intros Hbfs Hx.
  apply bfs_roots_rule
    with (P := chain_inv links) (R := λ _, True) (done := []) in Hbfs.
  - destruct Hbfs as (Hset & _). destruct (Hset x n Hx) as (r & Hr & Hp).
    exists r. split; [|done]. rewrite app_nil_r in Hr.
    by apply elem_of_rev_list.
  - apply chain_inv_child.
  - apply chain_inv_pop.
  - apply chain_inv_root.
  - by apply Forall_forall.
  - split_and!.
    + intros y k. rewrite init_depth_lookup. by case_decide.
    + intros y Hy. by apply elem_of_nil in Hy.
    + intros y Hy. by apply elem_of_nil in Hy.
Qed.

End chain_depth.

(** X2. Whatever the reporting lines look like (several managers for one
    person, cycles, repeated rows), a depth other than 0 in the annotated
    table is the length of an actual chain of reporting lines that starts
    at one of the roots and ends at that employee; in particular such an
    employee occurs as a subordinate in the reporting source. *)
Theorem positive_depth_has_chain set_iter sheets ss rows et eg ss' :
  (∀ s, set_iter s ≡ₚ elements s) →
  compute_metrics set_iter sheets ss = (Returned (rows, et, eg), ss') →
  ∀ row, row ∈ rows →
    Depth row = 0 ∨
    ((∃ r, r ∈ roots_of et eg ∧
           path (links_of et eg) r (EmployeeID (base row)) (Depth row)) ∧
     (∃ m, (m, EmployeeID (base row)) ∈ links_of et eg)).
Proof.
  intros Hperm Hcm row Hrow.
  apply compute_metrics_returned in Hcm
    as (_ & _ & _ & counts & dm & _ & Hdm & ->).
  apply list_elem_of_fmap in Hrow as (e & -> & _). simpl.
  unfold compute_depth in Hdm.
  destruct (bfs_roots _ _ _ _ _) as [d|] eqn:Hbfs; [|done].
  injection Hdm as <-. rewrite depth_column_final. unfold depth_or_0.
  destruct (d !! EmployeeID e) as [[n|]|] eqn:Hd; [|by left..].
  destruct n as [|n]; [by left|]. right.
  destruct (bfs_roots_chain set_iter Hperm _ _ _ _ d _ _ Hbfs Hd)
    as (r & Hr & Hp).
  split; [eauto|]. inversion Hp; subst. eauto.
Qed.

Lemma positive_depth_has_chain_witness :
  ∃ rows ss',
    compute_metrics elements book_stray fresh_session
      = (Returned (rows, roster_stray, None), ss') ∧
    ∀ row, row ∈ rows →
      Depth row = 0 ∨
      ((∃ r, r ∈ roots_of roster_stray None ∧
             path (links_of roster_stray None) r (EmployeeID (base row))
               (Depth row)) ∧
       (∃ m, (m, EmployeeID (base row)) ∈ links_of roster_stray None)).
Proof.
  eexists _, _. split; [vm_compute; reflexivity|].
  apply (positive_depth_has_chain elements book_stray fresh_session
           _ roster_stray None fresh_session).
  - reflexivity.
  - vm_compute. reflexivity.
Defined.

Lemma unset_in_insert_le (U : gset string) d k v :
  size (unset_in U (<[k := Some v]> d)) ≤ size (unset_in U d).
Proof.
  apply subseteq_size. intros x. unfold unset_in.
  rewrite !elem_of_filter, is_unset_insert.
  intros [Hx ?]. split; [|done]. by case_decide.
Qed.

Lemma unset_in_insert_lt (U : gset string) d ch v :
  ch ∈ U → is_unset d ch = true →
  size (unset_in U (<[ch := Some v]> d)) < size (unset_in U d).
Proof.
  intros HU Hu. apply subset_size. split.
  - intros x. unfold unset_in. rewrite !elem_of_filter, is_unset_insert.
    intros [Hx ?]. split; [|done]. by case_decide.
  - intros Hsub. specialize (Hsub ch). unfold unset_in in Hsub.
    rewrite !elem_of_filter, is_unset_insert, decide_True in Hsub by done.
    by destruct Hsub.
Qed.

Section bounded_depth.

Variable set_iter : gset string → list string.
Hypothesis set_iter_perm : ∀ s, set_iter s ≡ₚ elements s.
Variable links : list (string * string).

Let U : gset string := list_to_set (links.*2).

Lemma bound_inv_child done d cur q ch :
  bound_inv U done d (cur :: q) →
  ch ∈ children_of set_iter (build_parent_of links) cur →
  is_unset d ch = true →
  bound_inv U done (<[ch := Some (depth_or_0 d cur + 1)]> d)
    (cur :: (q ++ [ch])).
Proof.
  intros Hinv Hch%children_of_spec Hu; [|done].
  assert (HU : ch ∈ U).
  { apply elem_of_list_to_set, list_elem_of_fmap. by exists (cur, ch). }
  pose proof (unset_in_insert_lt U d ch (depth_or_0 d cur + 1) HU Hu) as Hlt.
  assert (Hcur : depth_or_0 d cur + size (unset_in U d) ≤ size U).
  { unfold depth_or_0. destruct (d !! cur) as [[k|]|] eqn:Hk.
    - by apply (Hinv cur).
    - apply (subseteq_size _ _ (unset_in_subseteq U d)).
    - apply (subseteq_size _ _ (unset_in_subseteq U d)). }
  intros x n. destruct (decide (ch = x)) as [<-|Hne].
  - rewrite lookup_insert_eq. intros [= <-]. lia.
  - rewrite lookup_insert_ne by done. intros Hx.
    specialize (Hinv x n Hx). lia.
Qed.

Lemma bound_inv_pop done d cur q :
  bound_inv U done d (cur :: q) →
  (∀ ch, ch ∈ children_of set_iter (build_parent_of links) cur →
         is_unset d ch = false) →
  bound_inv U done d q.
Proof. by intros Hinv _. Qed.

Lemma bound_inv_root done d r :
  True →
  bound_inv U done d [] →
  bound_inv U (r :: done) (start_root d r) [r].
Proof.
  intros _ Hinv x n. unfold start_root.
  destruct (d !! r) as [[?|]|] eqn:Hr; try apply Hinv.
  pose proof (unset_in_insert_le U d r 0) as Hle.
  destruct (decide (r = x)) as [<-|Hne].
  - rewrite lookup_insert_eq. intros [= <-].
    apply (subseteq_size _ _ (unset_in_subseteq U _)).
  - rewrite lookup_insert_ne by done. intros Hx.
    specialize (Hinv x n Hx). lia.
Qed.

(** A depth held after the traversal is at most the number of distinct
    subordinates of the links. *)
Lemma bfs_roots_bounded fuel roots ids d x n :
  bfs_roots set_iter fuel (build_parent_of links) roots (init_depth ids)
    = Some d →
  d !! x = Some (Some n) →
  n ≤ size U.
Proof.
  intros Hbfs Hx.
  apply bfs_roots_rule
    with (P := bound_inv U) (R := λ _, True) (done := []) in Hbfs.
  - specialize (Hbfs x n Hx). lia.
  - apply bound_inv_child.
  - apply bound_inv_pop.
  - apply bound_inv_root.
  - by apply Forall_forall.
  - intros y k. rewrite init_depth_lookup. by case_decide.
Qed.

End bounded_depth.

Lemma size_list_to_set_le (l : list string) :
  size (list_to_set l : gset string) ≤ length l.
Proof.
  induction l as [|x l IH].
  - by rewrite list_to_set_nil, size_empty.
  - rewrite list_to_set_cons, size_union_alt, size_singleton.
    assert (Hsub : size (list_to_set l ∖ {[x]} : gset string)
                   ≤ size (list_to_set l : gset string)).
    { apply subseteq_size. intros y [Hy _]%elem_of_difference. exact Hy. }
    simpl. lia.
Qed.

(** X3. No depth in the annotated table exceeds the number of distinct
    subordinates of the reporting source, which is at most the number of
    its rows; this holds on tables with cycles as well, where chains of
    reporting lines of any length exist. *)
Theorem depth_bounded set_iter sheets ss rows et eg ss' :
  (∀ s, set_iter s ≡ₚ elements s) →
  compute_metrics set_iter sheets ss = (Returned (rows, et, eg), ss') →
  ∀ row, row ∈ rows →
    Depth row ≤ size (subordinates et eg) ∧
    size (subordinates et eg) ≤ length (links_of et eg).
Proof.
  intros Hperm Hcm row Hrow. split.
  - apply compute_metrics_returned in Hcm
      as (_ & _ & _ & counts & dm & _ & Hdm & ->).
    apply list_elem_of_fmap in Hrow as (e & -> & _). simpl.
    unfold compute_depth in Hdm.
    destruct (bfs_roots _ _ _ _ _) as [d|] eqn:Hbfs; [|done].
    injection Hdm as <-. rewrite depth_column_final. unfold depth_or_0.
    destruct (d !! EmployeeID e) as [[n|]|] eqn:Hd; [|lia..].
    by eapply (bfs_roots_bounded set_iter Hperm).
  - unfold subordinates.
    etrans; [apply size_list_to_set_le|]. by rewrite length_fmap.
Qed.

Lemma depth_bounded_witness :
  ∃ rows ss',
    compute_metrics elements book_stray fresh_session
      = (Returned (rows, roster_stray, None), ss') ∧
    ∀ row, row ∈ rows →
      Depth row ≤ size (subordinates roster_stray None) ∧
      size (subordinates roster_stray None)
        ≤ length (links_of roster_stray None).
Proof.
  eexists _, _. split; [vm_compute; reflexivity|].
  apply (depth_bounded elements book_stray fresh_session
           _ roster_stray None fresh_session).
  - reflexivity.
  - vm_compute. reflexivity.
Defined.

(** ** Managers, the ratio and the flags *)

Lemma length_filter_pos {A} (P : A → Prop) `{!∀ x, Decision (P x)}
    (l : list A) :
  0 < length (filter P l) ↔ ∃ x, x ∈ l ∧ P x.
Proof.
  split.
  - intros Hpos. destruct (filter P l) as [|x l'] eqn:Hf; [simpl in *; lia|].
    exists x. apply and_comm, (list_elem_of_filter P). rewrite Hf. by left.
  - intros (x & Hx & HP).
    assert (Hin : x ∈ filter P l) by (by apply list_elem_of_filter).
    destruct (filter P l); [by apply elem_of_nil in Hin|simpl; lia].
Qed.



Lemma manager_ratio_fraction n_mgr n_all :
  0 < n_all →
  (manager_ratio n_mgr n_all == Z.of_nat n_mgr # Pos.of_nat n_all)%Q.
Proof.
  intros Hpos. unfold manager_ratio. rewrite bool_decide_eq_true_2 by lia.
  replace (Z.of_nat n_all) with (Z.pos (Pos.of_nat n_all)).
  - apply Qeq_sym, Qmake_Qdiv.
  - destruct n_all as [|k]; [lia|].
    by rewrite <- Znat.positive_nat_Z, Nat2Pos.id.
Qed.

(** X5. In every report the headcount is positive, the managers are at
    most as many as the employees, and the manager ratio lies between 0
    and 1. *)
Theorem manager_ratio_range set_iter sheets tg ss rep ss' :
  run set_iter sheets tg ss = (Returned rep, ss') →
  0 < n_people rep ∧
  n_managers rep ≤ n_people rep ∧
  (0 <= ratio rep)%Q ∧ (ratio rep <= 1)%Q.
Proof.
  intros Hrun.
  apply run_returned in Hrun as (rows & et & eg & md & _ & Hmd & ->).
  apply max_depth_of_returned in Hmd as [Hne _]. simpl.
  assert (Hpos : 0 < length rows) by (destruct rows; [done|simpl; lia]).
  assert (Hle : length (manager_df rows) ≤ length rows)
    by apply length_filter.
  split_and!; [done|done| |].
  - rewrite (manager_ratio_fraction _ _ Hpos).
    unfold Qle. simpl. lia.
  - rewrite (manager_ratio_fraction _ _ Hpos).
    unfold Qle. simpl.
    rewrite Z.mul_1_r, Z.mul_1_l.
    replace (Z.pos (Pos.of_nat (length rows))) with (Z.of_nat (length rows)).
    + lia.
    + destruct (length rows) as [|k]; [lia|].
      by rewrite <- Znat.positive_nat_Z, Nat2Pos.id.
Qed.

Lemma manager_ratio_range_witness :
  ∃ rep ss',
    run elements book_without_edges default_targets fresh_session
      = (Returned rep, ss') ∧
    0 < n_people rep ∧
    n_managers rep ≤ n_people rep ∧
    (0 <= ratio rep)%Q ∧ (ratio rep <= 1)%Q.
Proof.
  eexists _, _. split; [vm_compute; reflexivity|].
  apply (manager_ratio_range elements book_without_edges default_targets
           fresh_session _ fresh_session).
  vm_compute. reflexivity.
Defined.

Lemma filter_none_nil {A} (P : A → Prop) `{!∀ x, Decision (P x)}
    (l : list A) :
  (∀ x, x ∈ l → ¬ P x) → filter P l = [].
Proof.
  intros Hno. apply nil_length_inv. by apply length_filter_none.
Qed.

(** X6. The three flagged subsets of a report are sub-lists of the
    annotated table in table order, and each of their rows is a manager
    with at least one direct report. Hence nobody is flagged below the
    minimum when the minimum span target is 0 or 1; from a target of 2 on
    every single-report manager is also below the minimum; and from a
    maximum target of 1 on no single-report manager is above the maximum. *)
Theorem flagged_are_managers set_iter sheets tg ss rep ss' :
  run set_iter sheets tg ss = (Returned rep, ss') →
  (below_min rep `sublist_of` emp rep ∧
   above_max rep `sublist_of` emp rep ∧
   single_report rep `sublist_of` emp rep) ∧
  (∀ r, r ∈ below_min rep ∨ r ∈ above_max rep ∨ r ∈ single_report rep →
        IsManager r = true ∧ 1 ≤ DirectReports r) ∧
  (min_span tg ≤ 1 → below_min rep = []) ∧
  (2 ≤ min_span tg → ∀ r, r ∈ single_report rep → r ∈ below_min rep) ∧
  (1 ≤ max_span tg → ∀ r, r ∈ single_report rep → r ∉ above_max rep).
Proof.
  intros Hrun.
  apply run_returned in Hrun as (rows & et & eg & md & Hcm & _ & ->).
  apply compute_metrics_returned in Hcm
    as (_ & _ & _ & counts & depth & _ & _ & ->).
  simpl.
  set (rows := annotate counts depth <$> emp_rows et).
  assert (Hmgr : ∀ r, r ∈ manager_df rows →
                      IsManager r = true ∧ 1 ≤ DirectReports r).
  { intros r [Hflag Hr]%list_elem_of_filter. split; [done|].
    apply list_elem_of_fmap in Hr as (e & -> & _). simpl in *.
    by apply bool_decide_eq_true in Hflag. }
  split_and!.
  - unfold below_min_of, manager_df.
    etrans; apply sublist_filter.
  - unfold above_max_of, manager_df.
    etrans; apply sublist_filter.
  - unfold single_report_of, manager_df.
    etrans; apply sublist_filter.
  - intros r [Hr|[Hr|Hr]]; apply Hmgr;
      by apply list_elem_of_filter in Hr as [_ Hr].
  - intros Hmin. apply filter_none_nil. intros r Hr Hlow.
    destruct (Hmgr r Hr) as [_ Hone]. lia.
  - intros Hmin r [Hone Hr]%list_elem_of_filter.
    apply list_elem_of_filter. split; [lia|done].
  - intros Hmax r [Hone Hr]%list_elem_of_filter
      [Hhigh _]%list_elem_of_filter. lia.
Qed.

Lemma flagged_are_managers_witness :
  ∃ rep ss',
    run elements book_without_edges targets_2_12_1 fresh_session
      = (Returned rep, ss') ∧
    single_report rep ≠ [] ∧
    (∀ r, r ∈ single_report rep → r ∈ below_min rep) ∧
    (∀ r, r ∈ single_report rep → r ∉ above_max rep).
Proof.
  assert (∃ rep ss',
            run elements book_without_edges targets_2_12_1 fresh_session
              = (Returned rep, ss') ∧ single_report rep ≠ [])
    as (rep & ss' & Hrun & Hsome)
    by (eexists _, _; split; [vm_compute; reflexivity|done]).
  exists rep, ss'. split; [exact Hrun|]. split; [exact Hsome|].
  destruct (flagged_are_managers elements book_without_edges targets_2_12_1
              fresh_session rep ss' Hrun)
    as (_ & _ & _ & Hlow & Hhigh).
  split.
  - apply Hlow. vm_compute. lia.
  - apply Hhigh. vm_compute. lia.
Defined.

(** ** The recommendations and the depth they mention *)

(** X7. The maximum depth of a report is the depth of one of its rows and
    no row is deeper; so the layer target is exceeded, and the first
    recommendation is about layers, exactly when some employee sits deeper
    than the target. *)
Theorem max_depth_is_attained set_iter sheets tg ss rep ss' :
  run set_iter sheets tg ss = (Returned rep, ss') →
  (∀ r, r ∈ emp rep → Depth r ≤ max_depth rep) ∧
  (∃ r, r ∈ emp rep ∧ Depth r = max_depth rep) ∧
  ((∃ r, r ∈ emp rep ∧ max_layers_target tg < Depth r)
   ↔ head (recs rep)
     = Some (layers_msg (max_depth rep) (max_layers_target tg))
     ∧ max_layers_target tg < max_depth rep).
Proof.
  intros Hrun.
  apply run_returned in Hrun as (rows & et & eg & md & _ & Hmd & ->).
  apply max_depth_of_returned in Hmd as [Hne ->]. simpl.
  assert (Hbound : ∀ r, r ∈ rows →
            Depth r ≤ foldr Nat.max 0 (Depth <$> rows)).
  { intros r Hr. apply foldr_max_bound, list_elem_of_fmap. eauto. }
  assert (Hatt : ∃ r, r ∈ rows ∧ Depth r = foldr Nat.max 0 (Depth <$> rows)).
  { destruct (proj1 (list_elem_of_fmap Depth rows _)
                (foldr_max_attained (Depth <$> rows)
                   (λ H, Hne (fmap_nil_inv _ _ H)))) as (r & Heq & Hr).
    eauto. }
  split_and!; [done|done|]. rewrite recs_of_spec. split.
  - intros (r & Hr & Hdeep). specialize (Hbound r Hr).
    rewrite bool_decide_eq_true_2 by lia. split; [done|lia].
  - intros [_ Hdeep]. destruct Hatt as (r & Hr & Heq).
    exists r. split; [done|lia].
Qed.

Lemma max_depth_is_attained_witness :
  ∃ rep ss',
    run elements book_without_edges targets_2_12_1 fresh_session
      = (Returned rep, ss') ∧
    (∀ r, r ∈ emp rep → Depth r ≤ max_depth rep) ∧
    (∃ r, r ∈ emp rep ∧ Depth r = max_depth rep) ∧
    ((∃ r, r ∈ emp rep ∧ max_layers_target targets_2_12_1 < Depth r)
     ↔ head (recs rep)
       = Some (layers_msg (max_depth rep)
                 (max_layers_target targets_2_12_1))
       ∧ max_layers_target targets_2_12_1 < max_depth rep).
Proof.
  eexists _, _. split; [vm_compute; reflexivity|].
  apply (max_depth_is_attained elements book_without_edges targets_2_12_1
           fresh_session _ fresh_session).
  vm_compute. reflexivity.
Defined.

(** X8. The recommendation list has one entry for an exceeded layer
    target, one per below-minimum row, one per above-maximum row and one
    per duplicate-title row up to 20. It is empty, so that the success
    note of line 227 is shown instead, exactly when the layer target is
    kept and the three tables are empty. At most 50 entries are displayed,
    and all of them when there are no more than 50. *)
Theorem recs_count set_iter sheets tg ss rep ss' :
  run set_iter sheets tg ss = (Returned rep, ss') →
  length (recs rep)
    = (if bool_decide (max_layers_target tg < max_depth rep) then 1 else 0)
      + length (below_min rep) + length (above_max rep)
      + length (dup_titles rep) `min` 20 ∧
  (recs rep = []
   ↔ max_depth rep ≤ max_layers_target tg ∧ below_min rep = [] ∧
     above_max rep = [] ∧ dup_titles rep = []) ∧
  length (shown rep) ≤ 50 ∧
  (length (recs rep) ≤ 50 → shown rep = recs rep).
Proof.
  intros Hrun.
  apply run_returned in Hrun as (rows & et & eg & md & _ & _ & ->).
  simpl. rewrite recs_of_spec. split_and!.
  - rewrite !length_app, !length_fmap, length_take.
    destruct (bool_decide _); cbn [length]; lia.
  - split.
    + intros Hnil.
      apply app_eq_nil in Hnil as [Hlayer Hnil].
      apply app_eq_nil in Hnil as [Hlow Hnil].
      apply app_eq_nil in Hnil as [Hhigh Hdup].
      apply fmap_nil_inv in Hlow, Hhigh, Hdup.
      split_and!; [|done|done|].
      * destruct (bool_decide _) eqn:Hb; [done|].
        apply bool_decide_eq_false in Hb. lia.
      * by destruct (dup_titles_of et eg).
    + intros (Hdepth & -> & -> & ->).
      by rewrite bool_decide_eq_false_2 by lia.
  - rewrite length_take. lia.
  - intros Hlen. by apply take_ge.
Qed.

Lemma recs_count_witness :
  ∃ rep ss',
    run elements book_roles targets_2_12_1 fresh_session
      = (Returned rep, ss') ∧
    length (recs rep)
      = (if bool_decide (max_layers_target targets_2_12_1 < max_depth rep)
         then 1 else 0)
        + length (below_min rep) + length (above_max rep)
        + length (dup_titles rep) `min` 20 ∧
    (recs rep = []
     ↔ max_depth rep ≤ max_layers_target targets_2_12_1 ∧
       below_min rep = [] ∧ above_max rep = [] ∧ dup_titles rep = []) ∧
    length (shown rep) ≤ 50 ∧
    (length (recs rep) ≤ 50 → shown rep = recs rep).
Proof.
  eexists _, _. split; [vm_compute; reflexivity|].
  apply (recs_count elements book_roles targets_2_12_1
           fresh_session _ fresh_session).
  vm_compute. reflexivity.
Defined.

(** ** More on the duplicate-title table *)

Lemma elem_of_child_roles es rows m j :
  (m, Some j) ∈ child_roles es rows
  ↔ ∃ e row, e ∈ es ∧ row ∈ rows ∧ EmployeeID row = edge_EmployeeID e ∧
             edge_ManagerID e = m ∧ JobRole row = Some j.
Proof.
  unfold child_roles. rewrite list_elem_of_bind. split.
  - intros (e & Hin & He). exists e.
    destruct (filter _ rows) as [|r0 matches] eqn:Hf.
    + apply list_elem_of_singleton in Hin. done.
    + rewrite <- Hf in Hin. apply list_elem_of_fmap in Hin
        as (row & [= <- Hj] & [Hid Hrow]%list_elem_of_filter).
      exists row. by split_and!.
  - intros (e & row & He & Hrow & Hid & <- & Hj). exists e. split; [|done].
    assert (Hin : row ∈ filter (λ r, EmployeeID r = edge_EmployeeID e) rows)
      by (by apply list_elem_of_filter).
    destruct (filter _ rows) as [|r0 matches] eqn:Hf;
      [by apply elem_of_nil in Hin|].
    rewrite <- Hf. apply list_elem_of_fmap. exists row.
    split; [by rewrite Hj|by rewrite Hf].
Qed.

Lemma elem_of_dup_titles et es r :
  has_JobRole et = true →
  r ∈ dup_titles_of et (Some es) →
  2 ≤ Count r ∧
  Count r = length (filter (λ x, x = (dup_ManagerID r, Some (dup_JobRole r)))
                      (child_roles es (emp_rows et))).
Proof.
  intros Hcol. unfold dup_titles_of. rewrite Hcol.
  rewrite merge_sort_Permutation, list_elem_of_filter, list_elem_of_fmap.
  intros [Hn ([[m j] n] & -> & Hg)]. simpl in *. split; [done|].
  rewrite merge_sort_Permutation in Hg.
  by apply elem_of_map_to_list, role_counts_spec in Hg as [-> _].
Qed.

Lemma one_row_per_identifier (rows : list Employee) x :
  NoDup (EmployeeID <$> rows) →
  length (filter (λ r, EmployeeID r = x) rows) ≤ 1.
Proof.
  induction rows as [|r rows IH]; intros Hnd; [simpl; lia|].
  rewrite fmap_cons in Hnd. apply NoDup_cons in Hnd as [Hr Hnd].
  rewrite filter_cons. destruct (decide (EmployeeID r = x)) as [<-|Hne].
  - cbn [length]. rewrite length_filter_none; [lia|].
    intros r' Hr' Heq. apply Hr. rewrite <- Heq.
    apply list_elem_of_fmap. eauto.
  - by apply IH.
Qed.

Lemma block_count (blk : list (string * option string)) mgr m j :
  (∀ x, x ∈ blk → x.1 = mgr) →
  length blk ≤ 1 →
  length (filter (λ x, x = (m, j)) blk)
  ≤ if decide (mgr = m) then 1 else 0.
Proof.
  intros Hmgr Hone. destruct (decide (mgr = m)) as [Heq|Hne].
  - etrans; [apply length_filter|done].
  - rewrite length_filter_none; [done|].
    intros x Hx ->. apply Hne. by rewrite <- (Hmgr _ Hx).
Qed.

Lemma child_roles_count es rows m (j : option string) :
  NoDup (EmployeeID <$> rows) →
  length (filter (λ x, x = (m, j)) (child_roles es rows))
  ≤ length (filter (λ e, edge_ManagerID e = m) es).
Proof.
  intros Hnd. unfold child_roles.
  induction es as [|e es IH]; [done|].
  rewrite bind_cons, filter_app, length_app, filter_cons.
  pose proof (one_row_per_identifier rows (edge_EmployeeID e) Hnd) as Hone.
  match goal with
  | |- length (filter _ ?blk) + _ ≤ _ =>
      assert (Hblock : length (filter (λ x, x = (m, j)) blk)
                       ≤ if decide (edge_ManagerID e = m) then 1 else 0)
  end.
  { apply block_count.
    - intros x Hx.
      destruct (filter (λ r, EmployeeID r = edge_EmployeeID e) rows)
        as [|r0 rest].
      + by apply list_elem_of_singleton in Hx as ->.
      + by apply list_elem_of_fmap in Hx as (r & -> & _).
    - destruct (filter (λ r, EmployeeID r = edge_EmployeeID e) rows)
        as [|r0 rest]; [done|].
      by rewrite length_fmap. }
  destruct (decide (edge_ManagerID e = m)); cbn [length]; lia.
Qed.

(** X9. In the duplicate-title table no pair of manager and role is
    listed twice, every count is at least 2, and every listed pair comes
    from an edge of that manager whose subordinate holds that role in the
    employee table. When the employee identifiers are distinct, a count
    never exceeds the number of edges of the manager. *)
Theorem dup_titles_rows et es :
  has_JobRole et = true →
  NoDup ((λ r, (dup_ManagerID r, dup_JobRole r))
           <$> dup_titles_of et (Some es)) ∧
  (∀ r, r ∈ dup_titles_of et (Some es) →
     2 ≤ Count r ∧
     (∃ e row, e ∈ es ∧ row ∈ emp_rows et ∧
               EmployeeID row = edge_EmployeeID e ∧
               edge_ManagerID e = dup_ManagerID r ∧
               JobRole row = Some (dup_JobRole r)) ∧
     (NoDup (EmployeeID <$> emp_rows et) →
      Count r ≤ length (filter (λ e, edge_ManagerID e = dup_ManagerID r) es))).
Proof.
  intros Hcol. split.
  - unfold dup_titles_of. rewrite Hcol.
    rewrite merge_sort_Permutation.
    apply (NoDup_fmap_2_strong _).
    + intros r1 r2 [_ H1]%list_elem_of_filter [_ H2]%list_elem_of_filter Heq.
      apply list_elem_of_fmap in H1 as ([[m1 j1] n1] & -> & H1).
      apply list_elem_of_fmap in H2 as ([[m2 j2] n2] & -> & H2).
      simpl in Heq. injection Heq as -> ->.
      rewrite merge_sort_Permutation in H1, H2.
      apply elem_of_map_to_list in H1, H2. simpl. f_equal. congruence.
    + apply NoDup_filter, (NoDup_fmap_2_strong _).
      * intros [[m1 j1] n1] [[m2 j2] n2] _ _ [= -> -> ->]. done.
      * rewrite merge_sort_Permutation. apply NoDup_map_to_list.
  - intros r Hr.
    destruct (elem_of_dup_titles et es r Hcol Hr) as [Htwo Hcount].
    split_and!; [done| |].
    + apply elem_of_child_roles.
      assert (Hpos : 0 < length
                (filter (λ x, x = (dup_ManagerID r, Some (dup_JobRole r)))
                   (child_roles es (emp_rows et)))) by lia.
      apply length_filter_pos in Hpos as (x & Hx & ->). done.
    + intros Hnd. rewrite Hcount. by apply child_roles_count.
Qed.

Lemma dup_titles_rows_witness :
  NoDup ((λ r, (dup_ManagerID r, dup_JobRole r))
           <$> dup_titles_of roster_roles (Some edges_roles)) ∧
  (∀ r, r ∈ dup_titles_of roster_roles (Some edges_roles) →
     2 ≤ Count r ∧
     (∃ e row, e ∈ edges_roles ∧ row ∈ emp_rows roster_roles ∧
               EmployeeID row = edge_EmployeeID e ∧
               edge_ManagerID e = dup_ManagerID r ∧
               JobRole row = Some (dup_JobRole r)) ∧
     (NoDup (EmployeeID <$> emp_rows roster_roles) →
      Count r ≤ length (filter (λ e, edge_ManagerID e = dup_ManagerID r)
                          edges_roles))).
Proof. apply (dup_titles_rows roster_roles edges_roles). reflexivity. Defined.

(** When an identifier is used for two employees, the join repeats the
    edge, and a count can exceed the manager's number of edges. *)
Example dup_titles_repeated_identifier :
  dup_titles_of
    (mkEmployees true true true false
       [staff "A" "Ann" None; staff "B" "Bob" (Some "A");
        staff "B" "Bea" (Some "A")])
    (Some [mkEdge "B" "A"])
  = [mkDupRow "A" "Engineer" 2].
Proof. vm_compute. reflexivity. Qed.

(** ** Spans add up *)






(** ** The roots and the authority of the edge table *)

Global Instance str_le_total : Total str_le.
Proof.
  intros a b. unfold str_le.
  destruct (String.leb_total a b) as [H|H]; rewrite H; [by left|by right].
Qed.




(** X12. When there is an edge table it alone decides spans and depths:
    two Employees sheets with the same identifier column, whatever their
    ManagerID columns hold or whether they have one, get the same
    direct-report counts, manager flags and depths. The one other column
    that matters is a DirectReports column on the second sheet: with it
    the second run ends on line 79. *)
Theorem edge_table_is_authoritative set_iter sheets sheets' ss ss2 es
    rows et ss1 :
  edges sheets = Some es →
  edges sheets' = Some es →
  compute_metrics set_iter sheets ss = (Returned (rows, et, Some es), ss1) →
  ∀ et',
    employees sheets' = Some et' →
    EmployeeID <$> emp_rows et' = EmployeeID <$> emp_rows et →
    if has_DirectReports et'
    then (compute_metrics set_iter sheets' ss2).1
         = Raised (key_error "DirectReports")
    else
      ∃ rows',
        (compute_metrics set_iter sheets' ss2).1
          = Returned (rows', et', Some es) ∧
        (λ r, (EmployeeID (base r), DirectReports r, IsManager r, Depth r))
          <$> rows'
        = (λ r, (EmployeeID (base r), DirectReports r, IsManager r, Depth r))
          <$> rows.
Proof.
  intros Hes Hes' Hcm et' Het' Hids.
  apply compute_metrics_returned in Hcm
    as (Het & _ & _ & counts & depth & Hc & Hd & ->).
  simpl in Hc, Hd. injection Hc as <-.
  destruct (has_DirectReports et') eqn:Hdr.
  { unfold compute_metrics. rewrite Het', Hes'. simpl. by rewrite Hdr. }
  exists (annotate (groupby_count (manager_keys_of_edges es)) depth
            <$> emp_rows et').
  split.
  - unfold compute_metrics. rewrite Het', Hes'. simpl.
    rewrite Hdr, Hids. by rewrite Hd.
  - rewrite <- !list_fmap_compose.
    assert (Hfun : ∀ l : list Employee,
      (((λ r, (EmployeeID (base r), DirectReports r, IsManager r, Depth r))
        ∘ annotate (groupby_count (manager_keys_of_edges es)) depth) <$> l)
      = ((λ i, (i, direct_reports
                     (groupby_count (manager_keys_of_edges es)) i,
                bool_decide
                  (0 < direct_reports
                         (groupby_count (manager_keys_of_edges es)) i),
                depth_column depth i)) <$> (EmployeeID <$> l))).
    { intros l. rewrite <- list_fmap_compose. by apply list_fmap_ext. }
    by rewrite !Hfun, Hids.
Qed.

Lemma edge_table_is_authoritative_witness :
  ∃ rows rows',
    (compute_metrics elements book_with_edges fresh_session).1
      = Returned (rows, roster4, Some edges4) ∧
    (compute_metrics elements
       (mkSheets (Some (mkEmployees true true false false
                          (map (λ r, mkEmployee (EmployeeID r) (FullName r)
                                       (JobRole r) (Some "nobody"))
                               (emp_rows roster4))))
          (Some edges4) None false) fresh_session).1
      = Returned (rows',
                  mkEmployees true true false false
                    (map (λ r, mkEmployee (EmployeeID r) (FullName r)
                                 (JobRole r) (Some "nobody"))
                         (emp_rows roster4)),
                  Some edges4) ∧
    (λ r, (EmployeeID (base r), DirectReports r, IsManager r, Depth r))
      <$> rows'
    = (λ r, (EmployeeID (base r), DirectReports r, IsManager r, Depth r))
      <$> rows.
Proof.
  assert (∃ rows ss1,
            compute_metrics elements book_with_edges fresh_session
              = (Returned (rows, roster4, Some edges4), ss1))
    as (rows & ss1 & Hcm) by (eexists _, _; vm_compute; reflexivity).
  destruct (edge_table_is_authoritative elements book_with_edges
              (mkSheets (Some (mkEmployees true true false false
                          (map (λ r, mkEmployee (EmployeeID r) (FullName r)
                                       (JobRole r) (Some "nobody"))
                               (emp_rows roster4))))
                 (Some edges4) None false)
              fresh_session fresh_session edges4 rows roster4 ss1
              eq_refl eq_refl Hcm _ eq_refl eq_refl)
    as (rows' & Hcm' & Hsame).
  exists rows, rows'. split_and!; [by rewrite Hcm|exact Hcm'|exact Hsame].
Defined.

(** * Properties of the KPIs, the layers and the upload *)

(** ** The span KPIs *)

Lemma foldr_min_le (l : list nat) y x : x ∈ y :: l → foldr Nat.min y l ≤ x.
Proof.
  induction l as [|z l IH]; simpl; intros Hx.
  - apply list_elem_of_singleton in Hx. lia.
  - apply elem_of_cons in Hx as [->|Hx].
    + specialize (IH (list_elem_of_here _ _)). lia.
    + apply elem_of_cons in Hx as [->|Hx]; [lia|].
      specialize (IH (list_elem_of_further _ _ _ Hx)). lia.
Qed.

Lemma foldr_min_in (l : list nat) y : foldr Nat.min y l ∈ y :: l.
Proof.
  induction l as [|z l IH]; simpl; [by left|].
  destruct (Nat.min_spec z (foldr Nat.min y l)) as [[_ ->]|[_ ->]].
  - right. by left.
  - apply elem_of_cons in IH as [->|IH]; [by left|by do 2 right].
Qed.

Lemma min_of_le (l : list nat) x : x ∈ l → min_of l ≤ x.
Proof.
  destruct l as [|y l]; [by intros ?%elem_of_nil|]. apply foldr_min_le.
Qed.

Lemma min_of_in (l : list nat) : l ≠ [] → min_of l ∈ l.
Proof. destruct l as [|y l]; [done|]. intros _. apply foldr_min_in. Qed.

Lemma sum_list_bounds (l : list nat) a b :
  (∀ x, x ∈ l → a ≤ x ≤ b) →
  a * length l ≤ sum_list l ≤ b * length l.
Proof.
  induction l as [|y l IH]; intros Hb; simpl; [lia|].
  specialize (Hb y (list_elem_of_here _ _)) as Hy.
  specialize (IH (λ x Hx, Hb x (list_elem_of_further _ _ _ Hx))). lia.
Qed.

Lemma Qdiv_nat_bounds (a b s n : nat) :
  0 < n → a * n ≤ s ≤ b * n →
  (inject_Z (Z.of_nat a)
     <= inject_Z (Z.of_nat s) / inject_Z (Z.of_nat n))%Q ∧
  (inject_Z (Z.of_nat s) / inject_Z (Z.of_nat n)
     <= inject_Z (Z.of_nat b))%Q.
Proof.
  intros Hn [Hlo Hhi].
  assert (Hpos : (0 < inject_Z (Z.of_nat n))%Q).
  { change 0%Q with (inject_Z 0). rewrite <- Zlt_Qlt. lia. }
  split.
  - apply Qle_shift_div_l; [done|].
    rewrite <- inject_Z_mult, <- Zle_Qle. lia.
  - apply Qle_shift_div_r; [done|].
    rewrite <- inject_Z_mult, <- Zle_Qle. lia.
Qed.

Lemma median_of_bounds (l : list nat) a b :
  l ≠ [] → (∀ x, x ∈ l → a ≤ x ≤ b) →
  (inject_Z (Z.of_nat a) <= median_of l)%Q ∧
  (median_of l <= inject_Z (Z.of_nat b))%Q.
Proof.
  intros Hne Hb. unfold median_of.
  set (s := merge_sort (≤) l).
  assert (Hperm : s ≡ₚ l) by apply merge_sort_Permutation.
  assert (Hlen : 0 < length s).
  { rewrite Hperm. destruct l; [done|simpl; lia]. }
  assert (Hnth : ∀ i, i < length s → a ≤ s !!! i ≤ b).
  { intros i Hi. apply Hb. rewrite <- Hperm.
    apply list_elem_of_lookup_total_2. done. }
  assert (Hhalf : length s / 2 < length s)
    by (apply Nat.div_lt; lia).
  pose proof (Hnth (length s / 2) Hhalf) as Hhi.
  pose proof (Hnth (length s / 2 - 1) ltac:(lia)) as Hlo.
  cbv zeta. destruct (Nat.even (length s)).
  - apply (Qdiv_nat_bounds a b _ 2); lia.
  - rewrite <- !Zle_Qle. lia.
Qed.

(** X13. The span KPIs of a report. Without a manager the four of them
    are 0, as the guards of lines 149-152 say. With at least one manager
    the smallest and the largest span are the spans of two managers, the
    smallest is at least 1, every manager's span lies between the two, and
    so do the mean and the median. *)
Theorem span_kpis_bounds set_iter sheets tg ss rep ss' :
  run set_iter sheets tg ss = (Returned rep, ss') →
  let mdf := manager_df (emp rep) in
  n_managers rep = length mdf ∧
  (n_managers rep = 0 →
     avg_span mdf = 0%Q ∧ median_span mdf = 0%Q ∧
     min_observed mdf = 0 ∧ max_observed mdf = 0) ∧
  (n_managers rep ≠ 0 →
     1 ≤ min_observed mdf ∧
     (∃ r, r ∈ mdf ∧ DirectReports r = min_observed mdf) ∧
     (∃ r, r ∈ mdf ∧ DirectReports r = max_observed mdf) ∧
     (∀ r, r ∈ mdf →
        min_observed mdf ≤ DirectReports r ≤ max_observed mdf) ∧
     (inject_Z (Z.of_nat (min_observed mdf)) <= avg_span mdf)%Q ∧
     (avg_span mdf <= inject_Z (Z.of_nat (max_observed mdf)))%Q ∧
     (inject_Z (Z.of_nat (min_observed mdf)) <= median_span mdf)%Q ∧
     (median_span mdf <= inject_Z (Z.of_nat (max_observed mdf)))%Q).
Proof.
  intros Hrun mdf.
  apply run_returned in Hrun as (rows & et & eg & md & Hcm & _ & ->).
  apply compute_metrics_returned in Hcm
    as (_ & _ & _ & counts & depth & _ & _ & ->).
  simpl in *. split; [done|].
  unfold avg_span, median_span, min_observed, max_observed. split.
  - intros Hzero. fold mdf in Hzero.
    by rewrite !bool_decide_eq_false_2 by lia.
  - intros Hsome. fold mdf in Hsome.
    rewrite !bool_decide_eq_true_2 by done.
    assert (Hne : spans_of mdf ≠ []).
    { intros Hnil%fmap_nil_inv. by rewrite Hnil in Hsome. }
    assert (Hin : ∀ r, r ∈ mdf → DirectReports r ∈ spans_of mdf).
    { intros r Hr. apply list_elem_of_fmap. eauto. }
    assert (Hrange : ∀ x, x ∈ spans_of mdf →
              min_of (spans_of mdf) ≤ x ≤ max_of (spans_of mdf)).
    { intros x Hx. split; [by apply min_of_le|by apply foldr_max_bound]. }
    assert (Hone : ∀ r, r ∈ mdf → 1 ≤ DirectReports r).
    { intros r [Hflag Hr]%list_elem_of_filter.
      apply list_elem_of_fmap in Hr as (e & -> & _). simpl in *.
      by apply bool_decide_eq_true in Hflag. }
    destruct (proj1 (list_elem_of_fmap DirectReports mdf _)
                (min_of_in _ Hne)) as (rmin & Hmin & Hrmin).
    destruct (proj1 (list_elem_of_fmap DirectReports mdf _)
                (foldr_max_attained _ Hne)) as (rmax & Hmax & Hrmax).
    fold (max_of (spans_of mdf)) in Hmax.
    assert (Hsum : min_of (spans_of mdf) * length mdf
                     ≤ sum_list (spans_of mdf)
                     ≤ max_of (spans_of mdf) * length mdf).
    { rewrite <- (length_fmap DirectReports mdf).
      by apply sum_list_bounds. }
    destruct (Qdiv_nat_bounds _ _ _ (length mdf) ltac:(lia) Hsum)
      as [Havg_lo Havg_hi].
    destruct (median_of_bounds _ _ _ Hne Hrange) as [Hmed_lo Hmed_hi].
    split_and!.
    + rewrite Hmin. by apply Hone.
    + eauto.
    + eauto.
    + intros r Hr. by apply Hrange, Hin.
    + exact Havg_lo.
    + exact Havg_hi.
    + exact Hmed_lo.
    + exact Hmed_hi.
Qed.

Lemma span_kpis_bounds_witness :
  ∃ rep ss',
    run elements book_without_edges default_targets fresh_session
      = (Returned rep, ss') ∧
    n_managers rep ≠ 0 ∧
    1 ≤ min_observed (manager_df (emp rep)) ∧
    (inject_Z (Z.of_nat (min_observed (manager_df (emp rep))))
       <= avg_span (manager_df (emp rep)))%Q ∧
    (avg_span (manager_df (emp rep))
       <= inject_Z (Z.of_nat (max_observed (manager_df (emp rep)))))%Q ∧
    (inject_Z (Z.of_nat (min_observed (manager_df (emp rep))))
       <= median_span (manager_df (emp rep)))%Q ∧
    (median_span (manager_df (emp rep))
       <= inject_Z (Z.of_nat (max_observed (manager_df (emp rep)))))%Q.
Proof.
  assert (∃ rep ss',
            run elements book_without_edges default_targets fresh_session
              = (Returned rep, ss') ∧ n_managers rep ≠ 0)
    as (rep & ss' & Hrun & Hsome)
    by (eexists _, _; split; [vm_compute; reflexivity|done]).
  exists rep, ss'. split; [exact Hrun|]. split; [exact Hsome|].
  destruct (span_kpis_bounds elements book_without_edges default_targets
              fresh_session rep ss' Hrun) as (_ & _ & Hk).
  destruct (Hk Hsome) as (Hone & _ & _ & _ & Hk1 & Hk2 & Hk3 & Hk4).
  by split_and!.
Defined.

(** ** The headcount by layer *)

Lemma depth_counts_fold (depths : list nat) (acc : gmap nat nat) k :
  fold_left (λ acc k, <[k := S (default 0 (acc !! k))]> acc) depths acc !! k
  = if bool_decide (length (filter (λ d, d = k) depths) = 0)
    then acc !! k
    else Some (default 0 (acc !! k) + length (filter (λ d, d = k) depths)).
Proof.
  revert acc. induction depths as [|d depths IH]; intros acc; [done|].
  cbn [fold_left]. rewrite IH, filter_cons.
  destruct (decide (d = k)) as [->|Hne].
  - rewrite lookup_insert_eq. cbn [length default].
    rewrite (bool_decide_eq_false_2 (S _ = 0)) by lia.
    destruct (bool_decide _) eqn:Hb.
    + apply bool_decide_eq_true in Hb. rewrite Hb.
      by rewrite Nat.add_1_r.
    + by rewrite Nat.add_succ_r.
  - by rewrite lookup_insert_ne.
Qed.

Lemma depth_counts_lookup (depths : list nat) k n :
  depth_counts depths !! k = Some n
  ↔ n = length (filter (λ d, d = k) depths) ∧ 0 < n.
Proof.
  unfold depth_counts. rewrite depth_counts_fold, lookup_empty.
  destruct (bool_decide _) eqn:Hb.
  - apply bool_decide_eq_true in Hb. split; [done|]. lia.
  - apply bool_decide_eq_false in Hb. simpl. split.
    + intros [= <-]. lia.
    + by intros [-> _].
Qed.

Lemma sum_list_perm (l l' : list nat) : l ≡ₚ l' → sum_list l = sum_list l'.
Proof. induction 1; simpl; lia. Qed.

Lemma depth_counts_total (depths : list nat) :
  sum_list (map_to_list (depth_counts depths)).*2 = length depths.
Proof.
  unfold depth_counts.
  assert (Hgen : ∀ acc : gmap nat nat,
            sum_list (map_to_list
              (fold_left (λ acc k, <[k := S (default 0 (acc !! k))]> acc)
                 depths acc)).*2
            = sum_list (map_to_list acc).*2 + length depths).
  { induction depths as [|d depths IH]; intros acc; simpl; [lia|].
    rewrite IH. destruct (acc !! d) as [n|] eqn:Hd; simpl.
    - rewrite <- insert_delete_eq.
      rewrite (sum_list_perm _ _
                 (fmap_Permutation snd _ _
                    (map_to_list_insert (delete d acc) d (S n)
                       (lookup_delete_eq acc d)))).
      rewrite <- (sum_list_perm _ _
                    (fmap_Permutation snd _ _
                       (map_to_list_delete acc d n Hd))).
      simpl. by rewrite Nat.add_succ_r.
    - rewrite (sum_list_perm _ _
                 (fmap_Permutation snd _ _
                    (map_to_list_insert acc d 1 Hd))).
      simpl. by rewrite Nat.add_succ_r. }
  rewrite Hgen, map_to_list_empty. done.
Qed.

Lemma sorted_keys_strict (l : list (nat * nat)) :
  NoDup l.*1 → Sorted layer_le l → StronglySorted (λ a b, a.1 < b.1) l.
Proof.
  intros Hnd Hs.
  assert (Htrans : Transitive layer_le).
  { intros a b c. unfold layer_le. lia. }
  apply Sorted_StronglySorted in Hs; [|done].
  induction Hs as [|a l Hs IH Hall]; [constructor|].
  rewrite fmap_cons in Hnd. apply NoDup_cons in Hnd as [Hnotin Hnd].
  constructor; [by apply IH|].
  apply Forall_forall. intros b Hb.
  pose proof (proj1 (Forall_forall _ _) Hall b Hb) as Hle.
  unfold layer_le in Hle.
  assert (a.1 ≠ b.1); [|lia].
  intros Heq. apply Hnotin. rewrite Heq. apply list_elem_of_fmap. eauto.
Qed.

Lemma last_of_sorted (l : list (nat * nat)) x :
  StronglySorted (λ a b, a.1 < b.1) l →
  x ∈ l → (∀ y, y ∈ l → y.1 ≤ x.1) → last l = Some x.
Proof.
  induction 1 as [|a l Hs IH Hall]; intros Hx Hmax;
    [by apply elem_of_nil in Hx|].
  destruct l as [|b l].
  - apply list_elem_of_singleton in Hx. by subst.
  - change (last (a :: b :: l)) with (last (b :: l)). apply IH.
    + apply elem_of_cons in Hx as [->|Hx]; [|done].
      pose proof (proj1 (Forall_forall _ _) Hall b (list_elem_of_here _ _))
        as Hlt.
      specialize (Hmax b (list_elem_of_further _ _ _ (list_elem_of_here _ _))).
      simpl in Hlt. lia.
    + intros y Hy. apply Hmax. by right.
Qed.

Lemma elem_of_layers_of (rows : list EmpRow) k n :
  (k, n) ∈ layers_of rows
  ↔ n = length (filter (λ r, Depth r = k) rows) ∧ 0 < n.
Proof.
  unfold layers_of. rewrite merge_sort_Permutation, elem_of_map_to_list.
  rewrite depth_counts_lookup, length_filter_fmap. done.
Qed.

(** X14. The headcount by layer of a report: a depth has a bar exactly
    when some employee sits at that depth, the bar counts these employees,
    the bars come by strictly increasing depth, their headcounts add up to
    the headcount of the report, and the last bar is at the maximum
    depth. *)
Theorem layers_histogram set_iter sheets tg ss rep ss' :
  run set_iter sheets tg ss = (Returned rep, ss') →
  let layers := layers_of (emp rep) in
  (∀ k n, (k, n) ∈ layers
          ↔ n = length (filter (λ r, Depth r = k) (emp rep)) ∧ 0 < n) ∧
  StronglySorted (λ a b, a.1 < b.1) layers ∧
  sum_list layers.*2 = n_people rep ∧
  fst <$> last layers = Some (max_depth rep).
Proof.
  intros Hrun layers.
  apply run_returned in Hrun as (rows & et & eg & md & _ & Hmd & ->).
  apply max_depth_of_returned in Hmd as [Hne ->]. simpl in *.
  assert (Hsorted : StronglySorted (λ a b, a.1 < b.1) layers).
  { apply sorted_keys_strict.
    - unfold layers, layers_of. rewrite merge_sort_Permutation.
      apply NoDup_fst_map_to_list.
    - apply Sorted_merge_sort. intros a b. unfold layer_le. lia. }
  split_and!.
  - apply elem_of_layers_of.
  - done.
  - unfold layers, layers_of.
    rewrite (sum_list_perm _ _
               (fmap_Permutation snd _ _ (merge_sort_Permutation _ _))).
    by rewrite depth_counts_total, length_fmap.
  - set (md := foldr Nat.max 0 (Depth <$> rows)).
    assert (Hatt : md ∈ Depth <$> rows).
    { apply foldr_max_attained. by intros ?%fmap_nil_inv. }
    apply list_elem_of_fmap in Hatt as (r & Hmd & Hr).
    set (n := length (filter (λ r, Depth r = md) rows)).
    assert (Hin : (md, n) ∈ layers).
    { apply elem_of_layers_of. split; [done|].
      apply length_filter_pos. eauto. }
    rewrite (last_of_sorted layers (md, n)); [done|done|done|].
    intros [k m] [-> Hpos]%elem_of_layers_of. simpl.
    apply length_filter_pos in Hpos as (r' & Hr' & <-).
    apply foldr_max_bound, list_elem_of_fmap. eauto.
Qed.

Lemma layers_histogram_witness :
  ∃ rep ss',
    run elements book_without_edges default_targets fresh_session
      = (Returned rep, ss') ∧
    (∀ k n, (k, n) ∈ layers_of (emp rep)
            ↔ n = length (filter (λ r, Depth r = k) (emp rep)) ∧ 0 < n) ∧
    StronglySorted (λ a b, a.1 < b.1) (layers_of (emp rep)) ∧
    sum_list (layers_of (emp rep)).*2 = n_people rep ∧
    fst <$> last (layers_of (emp rep)) = Some (max_depth rep).
Proof.
  eexists _, _. split; [vm_compute; reflexivity|].
  apply (layers_histogram elements book_without_edges default_targets
           fresh_session _ fresh_session).
  vm_compute. reflexivity.
Defined.

(** ** Texts *)

Lemma append_nil_r_l (s : string) : s +:+ "" = s.
Proof. induction s as [|c s IH]; [done|]. by rewrite append_cons_l, IH. Qed.

Lemma append_eq_nil (a b : string) : a +:+ b = "" → a = "" ∧ b = "".
Proof. destruct a; [by rewrite append_nil_l|by rewrite append_cons_l]. Qed.

Lemma prefix_spec (pat s : string) :
  String.prefix pat s = true ↔ ∃ b, s = pat +:+ b.
Proof.
  revert s. induction pat as [|c pat IH]; intros s.
  - split; [|by destruct s]. intros _. by exists s.
  - destruct s as [|x s]; simpl.
    + split; [done|]. by intros [b Hb].
    + destruct (ascii_dec c x) as [->|Hne].
      * rewrite IH. split.
        -- intros [b ->]. by exists b.
        -- intros [b Hb]. rewrite append_cons_l in Hb.
           injection Hb as ->. by exists b.
      * split; [done|]. intros [b Hb]. rewrite append_cons_l in Hb.
        by injection Hb as -> _.
Qed.

Lemma contains_spec (pat s : string) :
  contains pat s = true ↔ occurs_in pat s.
Proof.
  unfold occurs_in. induction s as [|c s IH]; cbn [contains].
  - rewrite orb_false_r, prefix_spec. split.
    + intros [b Hb]. by exists "", b.
    + intros (a & b & Hab). symmetry in Hab.
      apply append_eq_nil in Hab as [-> Hab]. eauto.
  - rewrite orb_true_iff, prefix_spec, IH. split.
    + intros [[b Hb]|(a & b & ->)]; [by exists "", b|].
      by exists (String c a), b.
    + intros (a & b & Hab). destruct a as [|x a].
      * left. by exists b.
      * right. rewrite append_cons_l in Hab. injection Hab as _ ->.
        by exists a, b.
Qed.

Lemma ends_with_spec (suf s : string) :
  ends_with suf s = true ↔ ∃ a, s = a +:+ suf.
Proof.
  induction s as [|c s IH]; cbn [ends_with].
  - rewrite orb_false_r, String.eqb_eq. split.
    + intros <-. by exists "".
    + intros [a Ha]. symmetry in Ha. by apply append_eq_nil in Ha as [_ ->].
  - rewrite orb_true_iff, String.eqb_eq, IH. split.
    + intros [<-|[a ->]]; [by exists ""|]. by exists (String c a).
    + intros [a Ha]. destruct a as [|x a].
      * by left.
      * right. rewrite append_cons_l in Ha. injection Ha as _ ->.
        by exists a.
Qed.

Lemma lower_char_idemp (c : ascii) : lower_char (lower_char c) = lower_char c.
Proof. by destruct c as [[] [] [] [] [] [] [] []]. Qed.

Lemma lower_idemp (s : string) : lower (lower s) = lower s.
Proof.
  induction s as [|c s IH]; [done|]. simpl. by rewrite lower_char_idemp, IH.
Qed.

Lemma lstrip_spec (s : string) :
  (∃ a, s = a +:+ lstrip s ∧ all_chars is_space a = true) ∧
  (∀ c t, lstrip s = String c t → is_space c = false).
Proof.
  induction s as [|x s [(a & Ha & Hsp) IH]].
  - split; [by exists ""|done].
  - cbn [lstrip]. destruct (is_space x) eqn:Hx.
    + split; [|done]. exists (String x a).
      rewrite append_cons_l, <- Ha. cbn [all_chars]. by rewrite Hx, Hsp.
    + split; [by exists ""|]. by intros c t [= <- _].
Qed.

Lemma rstrip_spec (s : string) :
  (∃ b, s = rstrip s +:+ b ∧ all_chars is_space b = true) ∧
  (∀ t c, rstrip s = t +:+ String c "" → is_space c = false).
Proof.
  induction s as [|x s [(b & Hb & Hsp) IH]].
  - split; [by exists ""|]. intros t c Ht. symmetry in Ht.
    by apply append_eq_nil in Ht as [_ ?].
  - cbn [rstrip]. destruct (rstrip s) as [|y u] eqn:Hr.
    + rewrite append_nil_l in Hb. subst b.
      destruct (is_space x) eqn:Hx.
      * split.
        -- exists (String x s). rewrite append_nil_l.
           cbn [all_chars]. by rewrite Hx, Hsp.
        -- intros t c Ht. symmetry in Ht.
           by apply append_eq_nil in Ht as [_ ?].
      * split; [by exists s|].
        intros t c Ht. destruct t as [|z t].
        -- rewrite append_nil_l in Ht. by injection Ht as <-.
        -- rewrite append_cons_l in Ht. injection Ht as _ Ht.
           symmetry in Ht. by apply append_eq_nil in Ht as [_ ?].
    + split.
      * exists b. by rewrite append_cons_l, <- Hb.
      * intros t c Ht. destruct t as [|z t].
        -- rewrite append_nil_l in Ht. done.
        -- rewrite append_cons_l in Ht. injection Ht as _ Ht.
           by apply (IH t).
Qed.

Lemma lstrip_fixed (s : string) :
  (∀ c t, s = String c t → is_space c = false) → lstrip s = s.
Proof.
  destruct s as [|x s]; [done|]. intros Hs. cbn [lstrip].
  by rewrite (Hs x s).
Qed.

Lemma rstrip_fixed (s : string) :
  (∀ t c, s = t +:+ String c "" → is_space c = false) → rstrip s = s.
Proof.
  induction s as [|x s IH]; [done|]. intros Hs. cbn [rstrip].
  rewrite IH.
  - destruct s as [|y u]; [|done]. by rewrite (Hs "" x).
  - intros t c ->. apply (Hs (String x t) c). by rewrite append_cons_l.
Qed.

Lemma rstrip_head (s : string) c t :
  rstrip s = String c t → ∃ t', s = String c t'.
Proof.
  intros Hr. destruct (rstrip_spec s) as [(b & Hb & _) _].
  rewrite Hr, append_cons_l in Hb. eauto.
Qed.

Lemma strip_trimmed (s : string) : trimmed (strip s).
Proof.
  unfold strip. split.
  - intros c t Hr. apply rstrip_head in Hr as [t' Hl].
    by apply (proj2 (lstrip_spec s) c t').
  - apply rstrip_spec.
Qed.

Lemma strip_fixed (s : string) : trimmed s → strip s = s.
Proof.
  intros [Hl Hr]. unfold strip. by rewrite (lstrip_fixed s Hl), rstrip_fixed.
Qed.

Lemma strip_idemp (s : string) : strip (strip s) = strip s.
Proof. apply strip_fixed, strip_trimmed. Qed.

Lemma strip_inside (s : string) :
  ∃ a b, s = a +:+ strip s +:+ b ∧
         all_chars is_space a = true ∧ all_chars is_space b = true.
Proof.
  destruct (lstrip_spec s) as [(a & Ha & Hsa) _].
  destruct (rstrip_spec (lstrip s)) as [(b & Hb & Hsb) _].
  exists a, b. unfold strip. by rewrite <- Hb.
Qed.

(** ** Sheets by name fragment *)

Lemma pick_none wb name :
  pick wb name = None ↔ ∀ k df, (k, df) ∈ wb → ¬ carries k name.
Proof.
  unfold carries. induction wb as [|[k df] wb IH]; cbn [pick].
  - split; [|done]. by intros _ k df ?%elem_of_nil.
  - destruct (contains (lower name) (lower k)) eqn:Hc.
    + split; [done|]. intros Hno. destruct (Hno k df); [by left|].
      by apply contains_spec.
    + rewrite IH. split.
      * intros Hno k' df' [[= -> ->]|Hin]%elem_of_cons;
          [|by apply (Hno k' df')].
        rewrite <- contains_spec. by rewrite Hc.
      * intros Hno k' df' Hin. apply (Hno k' df'). by right.
Qed.

Lemma pick_some wb name d :
  pick wb name = Some d
  ↔ ∃ k df, first_sheet wb name k df ∧ d = standardize df.
Proof.
  unfold first_sheet, carries. induction wb as [|[k df] wb IH]; cbn [pick].
  - split; [done|]. intros (k & df & (pre & post & Hwb & _) & _).
    by destruct pre.
  - destruct (contains (lower name) (lower k)) eqn:Hc.
    + split.
      * intros [= <-]. exists k, df. split; [|done]. exists [], wb.
        split_and!; [done|by apply contains_spec|].
        by intros k' df' ?%elem_of_nil.
      * intros (k' & df' & (pre & post & Hwb & Hk & Hpre) & ->).
        destruct pre as [|[k0 df0] pre].
        -- by injection Hwb as <- <- _.
        -- injection Hwb as <- <- _. destruct (Hpre k df); [by left|].
           by apply contains_spec.
    + rewrite IH. split.
      * intros (k' & df' & (pre & post & -> & Hk & Hpre) & ->).
        exists k', df'. split; [|done]. exists ((k, df) :: pre), post.
        split_and!; [done|done|].
        intros k0 df0 [[= -> ->]|Hin]%elem_of_cons;
          [|by apply (Hpre k0 df0)].
        rewrite <- contains_spec. by rewrite Hc.
      * intros (k' & df' & (pre & post & Hwb & Hk & Hpre) & ->).
        destruct pre as [|[k0 df0] pre].
        -- injection Hwb as <- <- _. apply contains_spec in Hk.
           by rewrite Hk in Hc.
        -- injection Hwb as <- <- ->. exists k', df'. split; [|done].
           exists pre, post. split_and!; [done|done|].
           intros k1 df1 Hin. apply (Hpre k1 df1). by right.
Qed.

(** X15. [pick] reads the first sheet of the workbook, in workbook
    order, whose name contains the fragment somewhere, letter case apart,
    and returns it standardized; it returns nothing exactly when no sheet
    name contains the fragment. *)
Theorem pick_first_match wb name :
  match pick wb name with
  | Some d => ∃ k df, first_sheet wb name k df ∧ d = standardize df
  | None => ∀ k df, (k, df) ∈ wb → ¬ carries k name
  end.
Proof.
  destruct (pick wb name) as [d|] eqn:Hp.
  - by apply pick_some.
  - by apply pick_none.
Qed.

Lemma pick_first_match_witness :
  ∃ k df,
    first_sheet book_no_id "orgedges" k df ∧
    standardize [text_column "EmployeeID" ["B"];
                 text_column "ManagerID" ["A"]] = standardize df.
Proof. exact (pick_first_match book_no_id "orgedges"). Defined.

(** ** Standardized frames *)

Lemma standardize_column_idemp (c : Column) :
  standardize_column (standardize_column c) = standardize_column c.
Proof.
  unfold standardize_column. destruct (is_object c) eqn:Hobj; simpl.
  - f_equal. rewrite <- list_fmap_compose. apply list_fmap_ext.
    intros _ x _. simpl. by rewrite strip_idemp.
  - by rewrite Hobj.
Qed.

Lemma col_name_standardize (c : Column) :
  col_name (standardize_column c) = col_name c.
Proof. unfold standardize_column. by destruct (is_object c). Qed.

Lemma is_object_standardize (c : Column) :
  is_object (standardize_column c) = is_object c.
Proof. unfold standardize_column. by destruct (is_object c) eqn:Hobj. Qed.

Lemma length_cells_standardize (c : Column) :
  length (cells (standardize_column c)) = length (cells c).
Proof.
  unfold standardize_column. destruct (is_object c); [|done].
  simpl. by rewrite length_fmap.
Qed.

Lemma column_standardize (df : DataFrame) (name : string) :
  column (standardize df) name = standardize_column <$> column df name.
Proof.
  unfold column, standardize. induction df as [|c df IH]; [done|].
  rewrite fmap_cons, !filter_cons, col_name_standardize.
  by destruct (decide (col_name c = name)).
Qed.

(** X16. [_standardize] keeps the columns, their names, their dtypes and
    their lengths; it leaves a column that is not of dtype [object] as it
    is; in a column of dtype [object] every cell becomes the text of the
    cell without the whitespace around it, and nothing but whitespace is
    removed. Standardizing twice is standardizing once. *)
Theorem standardize_cells (df : DataFrame) :
  standardize (standardize df) = standardize df ∧
  length (standardize df) = length df ∧
  ∀ i c, df !! i = Some c →
    ∃ c', standardize df !! i = Some c' ∧
          col_name c' = col_name c ∧ is_object c' = is_object c ∧
          length (cells c') = length (cells c) ∧
          (is_object c = false → c' = c) ∧
          (is_object c = true →
             ∀ j x, cells c !! j = Some x →
               ∃ a t b,
                 cells c' !! j = Some (Val t) ∧
                 str_of x = a +:+ t +:+ b ∧
                 all_chars is_space a = true ∧
                 all_chars is_space b = true ∧ trimmed t).
Proof.
  split_and!.
  - unfold standardize. rewrite <- list_fmap_compose.
    apply list_fmap_ext. intros _ c _. apply standardize_column_idemp.
  - apply length_fmap.
  - intros i c Hc. exists (standardize_column c). split_and!.
    + unfold standardize. by rewrite list_lookup_fmap, Hc.
    + apply col_name_standardize.
    + apply is_object_standardize.
    + apply length_cells_standardize.
    + unfold standardize_column. by intros ->.
    + intros Hobj j x Hx. unfold standardize_column. rewrite Hobj. simpl.
      destruct (strip_inside (str_of x)) as (a & b & Hab & Ha & Hb).
      exists a, (strip (str_of x)), b. split_and!; [|done|done|done|].
      * by rewrite list_lookup_fmap, Hx.
      * apply strip_trimmed.
Qed.

Lemma standardize_cells_witness :
  ∃ c', standardize csv_roster !! 0 = Some c' ∧
        col_name c' = "EmployeeID" ∧
        ∃ a t b, cells c' !! 0 = Some (Val t) ∧
                 " A" = a +:+ t +:+ b ∧
                 all_chars is_space a = true ∧
                 all_chars is_space b = true ∧ trimmed t.
Proof.
  destruct (standardize_cells csv_roster) as (_ & _ & Hcol).
  destruct (Hcol 0 (text_column "EmployeeID" [" A"; "B "; "C"; "D"]) eq_refl)
    as (c' & Hc' & Hname & _ & _ & _ & Hcells).
  exists c'. split; [exact Hc'|]. split; [exact Hname|].
  exact (Hcells eq_refl 0 (Val " A") eq_refl).
Defined.

(** ** A file with the extension csv *)

Lemma run_without_principles set_iter et eg flag tg ss :
  (run set_iter (mkSheets (Some et) eg None flag) tg ss).2 = ss.
Proof.
  by destruct (run_session set_iter (mkSheets (Some et) eg None flag) tg ss)
    as [->| ->].
Qed.

Lemma employees_of_returned df et :
  employees_of df = Returned et →
  ∃ ids, column df "EmployeeID" = Some ids ∧
         length (emp_rows et) = length (cells ids) ∧
         has_ManagerID et = bool_decide (is_Some (column df "ManagerID")) ∧
         has_JobRole et = bool_decide (is_Some (column df "JobRole")) ∧
         has_FullName et = bool_decide (is_Some (column df "FullName")) ∧
         has_DirectReports et
           = bool_decide (is_Some (column df "DirectReports")).
Proof.
  unfold employees_of. destruct (column df "EmployeeID") as [ids|]; [|done].
  intros [= <-]. exists ids. simpl. by rewrite length_imap.
Qed.

Lemma is_Some_column_standardize df name :
  is_Some (column (standardize df) name) ↔ is_Some (column df name).
Proof. rewrite column_standardize. apply fmap_is_Some. Qed.

(** X17. A file whose name ends in [.csv], in any letter case, is read as
    the single sheet Employees and never as a workbook. Such a run has no
    edge table and no Principles sheet: it never writes the session; it
    stops at line 74 exactly when the ManagerID column is missing; it
    raises exactly when the EmployeeID column is missing ([KeyError], line
    62), when the frame has a DirectReports column of its own ([KeyError],
    line 79) or when it has no row (line 153); otherwise it reports one
    row per row of the file and no duplicate title. Calls that only
    display are taken to return. *)
Theorem csv_upload_is_one_sheet set_iter file df tg ss :
  (∀ s, set_iter s ≡ₚ elements s) →
  (∃ a, lower (file_name file) = a +:+ ".csv") →
  read_csv file = Returned df →
  load_any file = Returned [("Employees", df)] ∧
  (app set_iter (Some file) tg ss).2 = ss ∧
  match (app set_iter (Some file) tg ss).1 with
  | Stopped m =>
      m = no_reporting_msg ∧ is_Some (column df "EmployeeID") ∧
      column df "ManagerID" = None
  | Raised e =>
      (column df "EmployeeID" = None ∧ e = key_error "EmployeeID") ∨
      (∃ ids, column df "EmployeeID" = Some ids ∧
              is_Some (column df "ManagerID") ∧
              ((is_Some (column df "DirectReports") ∧
                e = key_error "DirectReports") ∨
               (column df "DirectReports" = None ∧ cells ids = [] ∧
                e = "ValueError: cannot convert float NaN to integer")))
  | Returned rep =>
      dup_titles rep = [] ∧
      ∃ ids, column df "EmployeeID" = Some ids ∧ cells ids ≠ [] ∧
             length (emp rep) = length (cells ids) ∧
             is_Some (column df "ManagerID") ∧
             column df "DirectReports" = None
  | OutOfFuel => False
  end.
Proof.
  intros Hperm Hext Hcsv.
  assert (Hload : load_any file = Returned [("Employees", df)]).
  { unfold load_any. apply ends_with_spec in Hext. by rewrite Hext, Hcsv. }
  split; [done|]. unfold app. rewrite Hload. cbn [obind].
  unfold sheets_of.
  change (pick [("Employees", df)] "employees") with (Some (standardize df)).
  change (pick [("Employees", df)] "orgedges") with (@None DataFrame).
  change (pick [("Employees", df)] "principles") with (@None DataFrame).
  cbv beta iota.
  destruct (employees_of (standardize df)) as [et| | |] eqn:Het;
    cbn [obind fmap option_fmap option_map fst snd].
  - apply employees_of_returned in Het
      as (sids & Hsids & Hlen & Hmgr & _ & _ & Hdr).
    rewrite column_standardize in Hsids.
    destruct (column df "EmployeeID") as [ids|] eqn:Hids; [|done].
    injection Hsids as <-. rewrite length_cells_standardize in Hlen.
    assert (Hm : has_ManagerID et = true ↔ is_Some (column df "ManagerID")).
    { rewrite Hmgr, bool_decide_eq_true. apply is_Some_column_standardize. }
    assert (Hd : has_DirectReports et = true
                 ↔ is_Some (column df "DirectReports")).
    { rewrite Hdr, bool_decide_eq_true. apply is_Some_column_standardize. }
    assert (Hd' : has_DirectReports et = false
                  → column df "DirectReports" = None).
    { intros Hf. destruct (column df "DirectReports") eqn:Hcol; [|done].
      rewrite (proj2 Hd) in Hf; [done|by eexists]. }
    set (sheets := mkSheets (Some et) None None false).
    split; [apply run_without_principles|].
    pose proof (run_outcome set_iter sheets tg ss Hperm) as Hout.
    destruct (run set_iter sheets tg ss) as [res ss'] eqn:Hrun.
    cbn [fst] in *. destruct res as [rep|m|e|].
    + destruct Hout as (et' & [= <-] & Hne & [Hno|Hyes] & Hnodr & _);
        [done|].
      apply run_returned in Hrun
        as (rows & et' & eg & md & Hcm & _ & ->).
      apply compute_metrics_returned in Hcm
        as ([= <-] & -> & _ & counts & depth & _ & _ & ->).
      cbn [dup_titles emp edges sheets]. split; [done|].
      exists ids. rewrite length_fmap.
      split_and!; [done| |done|by apply Hm|by apply Hd'].
      intros Hnil. apply Hne, nil_length_inv. by rewrite Hlen, Hnil.
    + destruct Hout as [[[=] _]|(et' & [= <-] & _ & Hno & ->)].
      split_and!; [done|done|].
      destruct (column df "ManagerID") eqn:Hcol; [|done].
      rewrite (proj2 Hm) in Hno; [done|by eexists].
    + destruct Hout as (et' & [= <-] & [Hno|Hyes] & Hcases); [done|].
      right. exists ids. split_and!; [done|by apply Hm|].
      destruct Hcases as [[Hyes' ->]|[(Hnodr & Hnil & ->)|Hrole]].
      * left. split; [by apply Hd|done].
      * right. split_and!; [by apply Hd'| |done].
        apply nil_length_inv. by rewrite <- Hlen, Hnil.
      * by destruct Hrole as (_ & _ & Hedges & _).
    + done.
  - unfold employees_of in Het. by destruct (column _ _).
  - split; [done|]. left. unfold employees_of in Het.
    destruct (column (standardize df) "EmployeeID") eqn:Hs; [done|].
    injection Het as <-. split; [|done].
    rewrite column_standardize in Hs. by destruct (column df "EmployeeID").
  - unfold employees_of in Het. by destruct (column _ _).
Qed.

Lemma csv_upload_is_one_sheet_witness :
  load_any csv_upload = Returned [("Employees", csv_roster)] ∧
  (app elements (Some csv_upload) default_targets fresh_session).2
    = fresh_session ∧
  match (app elements (Some csv_upload) default_targets fresh_session).1 with
  | Stopped m =>
      m = no_reporting_msg ∧ is_Some (column csv_roster "EmployeeID") ∧
      column csv_roster "ManagerID" = None
  | Raised e =>
      (column csv_roster "EmployeeID" = None ∧ e = key_error "EmployeeID") ∨
      (∃ ids, column csv_roster "EmployeeID" = Some ids ∧
              is_Some (column csv_roster "ManagerID") ∧
              ((is_Some (column csv_roster "DirectReports") ∧
                e = key_error "DirectReports") ∨
               (column csv_roster "DirectReports" = None ∧ cells ids = [] ∧
                e = "ValueError: cannot convert float NaN to integer")))
  | Returned rep =>
      dup_titles rep = [] ∧
      ∃ ids, column csv_roster "EmployeeID" = Some ids ∧ cells ids ≠ [] ∧
             length (emp rep) = length (cells ids) ∧
             is_Some (column csv_roster "ManagerID") ∧
             column csv_roster "DirectReports" = None
  | OutOfFuel => False
  end.
Proof.
  apply (csv_upload_is_one_sheet elements csv_upload csv_roster
           default_targets fresh_session).
  - intros s. reflexivity.
  - by exists "roster".
  - reflexivity.
Defined.

(** A CSV file whose header has a DirectReports column: the run ends on
    line 79. *)
Example csv_with_span_column :
  app elements
    (Some (mkUpload "spans.csv"
             (Returned (csv_roster ++ [text_column "DirectReports"
                                         ["2"; "1"; "0"; "0"]]))
             (Raised "BadZipFile")))
    default_targets fresh_session
  = (Raised (key_error "DirectReports"), fresh_session).
Proof. vm_compute. reflexivity. Qed.

(** ** Missing columns *)

Lemma first_sheet_pick wb name k df :
  first_sheet wb name k df → pick wb name = Some (standardize df).
Proof. intros Hfirst. apply pick_some. eauto. Qed.

Lemma column_standardize_None df name :
  column (standardize df) name = None ↔ column df name = None.
Proof. rewrite column_standardize. apply fmap_None. Qed.

(** X18. The identifier columns are required, all others are not. When
    the Employees sheet has no EmployeeID column the run ends in the
    KeyError of line 62, even when an edge table is there; when an edge
    table is found without its EmployeeID or ManagerID column the run ends
    in the KeyError of line 68 or 69; in both cases the session is left as
    it was. With these columns present the sheets are read without an
    exception, whatever other columns are missing and whatever the
    Principles sheet holds. *)
Theorem identifier_columns_required set_iter file wb k df tg ss :
  load_any file = Returned wb →
  first_sheet wb "employees" k df →
  (column df "EmployeeID" = None →
     app set_iter (Some file) tg ss
       = (Raised (key_error "EmployeeID"), ss)) ∧
  (is_Some (column df "EmployeeID") →
     ∀ k' d, first_sheet wb "orgedges" k' d →
       (column d "EmployeeID" = None →
          app set_iter (Some file) tg ss
            = (Raised (key_error "EmployeeID"), ss)) ∧
       (is_Some (column d "EmployeeID") → column d "ManagerID" = None →
          app set_iter (Some file) tg ss
            = (Raised (key_error "ManagerID"), ss))) ∧
  (is_Some (column df "EmployeeID") →
     (∀ k' d, first_sheet wb "orgedges" k' d →
        is_Some (column d "EmployeeID") ∧ is_Some (column d "ManagerID")) →
     ∃ sheets, sheets_of wb = Returned sheets ∧
               app set_iter (Some file) tg ss = run set_iter sheets tg ss).
Proof.
  intros Hload Hemp. unfold app. rewrite Hload. cbn [obind].
  unfold sheets_of. rewrite (first_sheet_pick _ _ _ _ Hemp).
  unfold employees_of.
  split_and!.
  - intros Hno. apply column_standardize_None in Hno. by rewrite Hno.
  - intros Hids k' d Hedges.
    apply is_Some_column_standardize in Hids as [ids Hids].
    rewrite Hids, (first_sheet_pick _ _ _ _ Hedges). cbn [obind].
    unfold edges_of. split.
    + intros Hno. apply column_standardize_None in Hno. by rewrite Hno.
    + intros Hsome Hno.
      apply is_Some_column_standardize in Hsome as [eids ->].
      apply column_standardize_None in Hno. by rewrite Hno.
  - intros Hids Hcols.
    apply is_Some_column_standardize in Hids as [ids Hids].
    rewrite Hids. cbn [obind].
    destruct (pick wb "orgedges") as [sd|] eqn:Hpick.
    + apply pick_some in Hpick as (k' & d & Hfirst & ->).
      destruct (Hcols k' d Hfirst) as [Hc1 Hc2].
      apply is_Some_column_standardize in Hc1 as [eids Heids].
      apply is_Some_column_standardize in Hc2 as [mgrs Hmgrs].
      unfold edges_of. rewrite Heids, Hmgrs. cbn [obind].
      eexists. split; reflexivity.
    + cbn [obind]. eexists. split; reflexivity.
Qed.

Lemma identifier_columns_required_witness :
  app elements (Some xlsx_no_id) default_targets fresh_session
    = (Raised (key_error "EmployeeID"), fresh_session).
Proof.
  assert (Hfirst : first_sheet book_no_id "employees" "Employees"
                     [text_column "FullName" ["Ann"; "Bob"]]).
  { exists [], [("OrgEdges", [text_column "EmployeeID" ["B"];
                              text_column "ManagerID" ["A"]])].
    split_and!; [done|by exists "", ""|by intros ?? ?%elem_of_nil]. }
  exact (proj1 (identifier_columns_required elements xlsx_no_id book_no_id
                  "Employees" _ default_targets fresh_session
                  eq_refl Hfirst) eq_refl).
Defined.

(** ** Blanks and letter case *)

Lemma pick_same_book wb wb' name :
  same_book wb wb' → pick wb name = pick wb' name.
Proof.
  induction 1 as [|[k df] [k' df'] wb wb' [Hk Hdf] _ IH]; [done|].
  simpl in Hk, Hdf. cbn [pick]. by rewrite Hk, Hdf, IH.
Qed.

(** X19. Two uploads whose workbooks hold the same sheets in the same
    order, up to the letter case of the sheet names and up to the
    whitespace around the texts of their [object] columns, give the same
    run: the same result and the same session. *)
Theorem blanks_and_case_ignored set_iter file file' wb wb' tg ss :
  load_any file = Returned wb →
  load_any file' = Returned wb' →
  same_book wb wb' →
  app set_iter (Some file) tg ss = app set_iter (Some file') tg ss.
Proof.
  intros Hload Hload' Hsame. unfold app. rewrite Hload, Hload'.
  cbn [obind]. unfold sheets_of.
  by rewrite !(pick_same_book wb wb' _ Hsame).
Qed.

Lemma blanks_and_case_ignored_witness :
  app elements (Some csv_upload) default_targets fresh_session
  = app elements (Some xlsx_tidy) default_targets fresh_session.
Proof.
  apply (blanks_and_case_ignored elements csv_upload xlsx_tidy
           [("Employees", csv_roster)] [("EMPLOYEES", csv_roster_tidy)]).
  - reflexivity.
  - reflexivity.
  - repeat constructor.
Defined.

(** ** Empty manager cells *)

Lemma length_links_of_employees (rows : list Employee) :
  (∀ e, e ∈ rows → is_Some (ManagerID e)) →
  length (links_of_employees rows) = length rows.
Proof.
  unfold links_of_employees. induction rows as [|e rows IH]; [done|].
  intros Hall. destruct (Hall e (list_elem_of_here _ _)) as [m Hm].
  cbn [omap list_omap]. rewrite Hm. simpl. f_equal. apply IH.
  intros e' He'. apply Hall. by right.
Qed.

Lemma str_of_standardized_blank (c : Column) i :
  cells c !! i = Some NaN →
  str_of (cell_at (standardize_column c) i) = "nan".
Proof.
  intros Hi. unfold cell_at, standardize_column.
  destruct (is_object c); simpl.
  - by rewrite list_lookup_fmap, Hi.
  - by rewrite Hi.
Qed.

(** X20. With a ManagerID column in the uploaded Employees sheet, every
    employee row carries a manager text after line 64: an empty cell reads
    [nan]. So the [dropna] of line 92 drops no row, and the adjacency has
    one link per employee row. *)
Theorem blank_manager_reads_nan wb k df mgrs sheets :
  first_sheet wb "employees" k df →
  column df "ManagerID" = Some mgrs →
  sheets_of wb = Returned sheets →
  ∃ et, employees sheets = Some et ∧ has_ManagerID et = true ∧
        (∀ e, e ∈ emp_rows et → is_Some (ManagerID e)) ∧
        length (links_of_employees (emp_rows et)) = length (emp_rows et) ∧
        (∀ i e, emp_rows et !! i = Some e → cells mgrs !! i = Some NaN →
                ManagerID e = Some "nan").
Proof.
  intros Hfirst Hmgrs. unfold sheets_of.
  rewrite (first_sheet_pick _ _ _ _ Hfirst).
  unfold employees_of. rewrite !column_standardize, Hmgrs.
  destruct (column df "EmployeeID") as [ids|]; [|done].
  cbn [fmap option_fmap option_map obind].
  destruct (match pick wb "orgedges" with
            | Some d => es ←← edges_of d;; Returned (Some es.1, es.2)
            | None => Returned (None, false)
            end) as [eg| | |]; try done.
  cbn [obind]. intros [= <-]. eexists. split; [done|].
  cbn [has_ManagerID emp_rows].
  assert (Hall : ∀ i e,
            imap (λ i id,
                    mkEmployee (str_of id)
                      (from_option (λ c, str_of (cell_at c i)) ""
                         (standardize_column <$> column df "FullName"))
                      ((standardize_column <$> column df "JobRole") ≫= λ c,
                         match cell_at c i with
                         | NaN => None
                         | Val s => Some s
                         end)
                      (Some (str_of (cell_at (standardize_column mgrs) i))))
              (cells (standardize_column ids)) !! i = Some e →
            ManagerID e = Some (str_of (cell_at (standardize_column mgrs) i))).
  { intros i e. rewrite list_lookup_imap.
    destruct (cells (standardize_column ids) !! i); [|done].
    by intros [= <-]. }
  split_and!.
  - done.
  - intros e (i & Hi)%list_elem_of_lookup. rewrite (Hall i e Hi). by eexists.
  - apply length_links_of_employees.
    intros e (i & Hi)%list_elem_of_lookup. rewrite (Hall i e Hi). by eexists.
  - intros i e Hi Hblank. rewrite (Hall i e Hi).
    by rewrite str_of_standardized_blank.
Qed.

Lemma blank_manager_reads_nan_witness :
  ∃ sheets et,
    sheets_of [("Employees", csv_roster)] = Returned sheets ∧
    employees sheets = Some et ∧ has_ManagerID et = true ∧
    (∀ e, e ∈ emp_rows et → is_Some (ManagerID e)) ∧
    length (links_of_employees (emp_rows et)) = length (emp_rows et) ∧
    (∀ i e, emp_rows et !! i = Some e →
            cells (mkColumn "ManagerID" true
                     [NaN; Val "A "; Val "A"; Val " B"]) !! i = Some NaN →
            ManagerID e = Some "nan").
Proof.
  assert (∃ sheets, sheets_of [("Employees", csv_roster)] = Returned sheets)
    as [sheets Hsheets] by (eexists; vm_compute; reflexivity).
  assert (Hfirst : first_sheet [("Employees", csv_roster)] "employees"
                     "Employees" csv_roster).
  { exists [], []. split_and!;
      [done|by exists "", ""|by intros ?? ?%elem_of_nil]. }
  destruct (blank_manager_reads_nan [("Employees", csv_roster)] "Employees"
              csv_roster _ sheets Hfirst eq_refl Hsheets) as (et & Het).
  by exists sheets, et.
Defined.

(** ** How a run ends *)

Lemma present_standardize df name :
  present (standardize df) name = present df name.
Proof.
  unfold present. apply bool_decide_ext, is_Some_column_standardize.
Qed.

Lemma edges_frame_pick wb d :
  edges_frame wb d → pick wb "orgedges" = standardize <$> d.
Proof.
  destruct d as [d'|]; simpl.
  - intros [k Hfirst]. by apply first_sheet_pick with k.
  - intros Hno. by apply pick_none.
Qed.

Lemma emp_rows_employees_of df et ids :
  employees_of df = Returned et →
  column df "EmployeeID" = Some ids →
  length (emp_rows et) = length (cells ids).
Proof.
  intros (ids' & Hids & Hlen & _)%employees_of_returned Hcol. congruence.
Qed.

Lemma run_length set_iter sheets tg ss rep ss' et :
  run set_iter sheets tg ss = (Returned rep, ss') →
  employees sheets = Some et →
  length (emp rep) = length (emp_rows et).
Proof.
  intros Hrun Het.
  apply run_returned in Hrun as (rows & et' & eg & md & Hcm & _ & ->).
  apply compute_metrics_returned in Hcm
    as (Het' & _ & _ & counts & depth & _ & _ & ->).
  simpl. rewrite length_fmap. congruence.
Qed.

(** How a run on sheets that were read ends, as a table of the flags. *)
Lemma run_ending set_iter sheets tg ss et :
  (∀ s, set_iter s ≡ₚ elements s) →
  employees sheets = Some et →
  match (run set_iter sheets tg ss).1 with
  | Stopped m =>
      edges sheets = None ∧ has_ManagerID et = false ∧ m = no_reporting_msg
  | Raised e =>
      (edges sheets ≠ None ∨ has_ManagerID et = true) ∧
      e = (if has_DirectReports et then key_error "DirectReports"
           else if bool_decide (length (emp_rows et) = 0)
           then "ValueError: cannot convert float NaN to integer"
           else key_error "JobRole") ∧
      (has_DirectReports et = true ∨ emp_rows et = [] ∨
       (edges sheets ≠ None ∧ has_JobRole et = true ∧
        edges_has_JobRole sheets = true))
  | Returned rep =>
      (edges sheets ≠ None ∨ has_ManagerID et = true) ∧
      has_DirectReports et = false ∧ emp_rows et ≠ [] ∧
      (edges sheets = None ∨ has_JobRole et = false ∨
       edges_has_JobRole sheets = false) ∧
      length (emp rep) = length (emp_rows et)
  | OutOfFuel => False
  end.
Proof.
  intros Hperm Het.
  pose proof (run_outcome set_iter sheets tg ss Hperm) as Hout.
  destruct (run set_iter sheets tg ss) as [[rep|m|e|] ss'] eqn:Hrun;
    cbn [fst] in *.
  - destruct Hout as (et' & Het' & Hne & Hsrc & Hdr & Hrole).
    assert (et' = et) as -> by congruence.
    split_and!; try done. by apply (run_length _ _ _ _ _ _ _ Hrun).
  - destruct Hout as [[Hnone _]|(et' & Het' & Hes & Hm & ->)]; [congruence|].
    assert (et' = et) as -> by congruence. done.
  - destruct Hout as (et' & Het' & Hsrc & Hcases).
    assert (et' = et) as -> by congruence. split; [done|].
    destruct Hcases as [[Hdr ->]|[(Hdr & Hnil & ->)|(Hdr & Hne & Hes & Hr & Hf & ->)]].
    + rewrite Hdr. split; [done|by left].
    + rewrite Hdr, Hnil. split; [done|]. right. by left.
    + rewrite Hdr. rewrite bool_decide_eq_false_2.
      * split; [done|]. right. right. done.
      * intros Hlen. by apply Hne, nil_length_inv.
  - done.
Qed.

(** X1. How one pass of the script ends, calls that only display being
    taken to return. Without a file it stops at line 138; an exception of
    [read_csv] or [ExcelFile] ends it; without a sheet whose name carries
    "employees" it stops at line 59. Otherwise the columns of the picked
    Employees and OrgEdges frames and the number of rows decide, in this
    order: [KeyError] at line 62, 68 or 69 for a missing identifier
    column; the stop of line 74 without edge table and ManagerID column;
    [KeyError] at line 79 when Employees has a DirectReports column;
    [ValueError] at line 153 when it has no row; [KeyError] at line 163
    when both frames have a JobRole column; and else the script completes
    with one annotated row per row of the Employees frame. The traversal
    never runs out of budget, whatever the reporting lines look like. *)
Theorem run_ends set_iter tg ss :
  (∀ s, set_iter s ≡ₚ elements s) →
  app set_iter None tg ss = (Stopped upload_msg, ss) ∧
  (∀ file e, load_any file = Raised e →
     app set_iter (Some file) tg ss = (Raised e, ss)) ∧
  (∀ file wb,
     load_any file = Returned wb →
     (∀ k df, (k, df) ∈ wb → ¬ carries k "employees") →
     app set_iter (Some file) tg ss = (Stopped no_employees_msg, ss)) ∧
  (∀ file wb k df d,
     load_any file = Returned wb →
     first_sheet wb "employees" k df →
     edges_frame wb d →
     match ending_of df d, (app set_iter (Some file) tg ss).1 with
     | Stops m, Stopped m' => m' = m
     | Raises e, Raised e' => e' = e
     | Completes, Returned rep => length (emp rep) = n_rows df
     | _, _ => False
     end).
Proof.
  intros Hperm. split_and!.
  - done.
  - intros file e Hload. unfold app. by rewrite Hload.
  - intros file wb Hload Hno. unfold app. rewrite Hload. cbn [obind].
    unfold sheets_of. by rewrite (proj2 (pick_none wb "employees") Hno).
  - intros file wb k df d Hload Hfirst Hedges.
    unfold app. rewrite Hload. cbn [obind]. unfold sheets_of.
    rewrite (first_sheet_pick _ _ _ _ Hfirst), (edges_frame_pick _ _ Hedges).
    unfold ending_of, n_rows.
    destruct (employees_of (standardize df)) as [et| | |] eqn:Het;
      try (unfold employees_of in Het; by destruct (column _ _)).
    2: { unfold employees_of in Het. unfold present.
         rewrite column_standardize in Het.
         destruct (column df "EmployeeID"); [done|].
         injection Het as <-. done. }
    pose proof Het as Hflags.
    apply employees_of_returned in Hflags
      as (sids & Hsids & Hlen & Hmgr & Hrole & _ & Hdr).
    fold (present (standardize df) "ManagerID") in Hmgr.
    fold (present (standardize df) "JobRole") in Hrole.
    fold (present (standardize df) "DirectReports") in Hdr.
    rewrite present_standardize in Hmgr, Hrole, Hdr.
    rewrite column_standardize in Hsids.
    destruct (column df "EmployeeID") as [ids|] eqn:Hids; [|done].
    injection Hsids as <-. rewrite length_cells_standardize in Hlen.
    assert (Hpres : present df "EmployeeID" = true).
    { unfold present. rewrite Hids. by apply bool_decide_eq_true. }
    rewrite Hpres. cbn [negb obind from_option].
    destruct d as [d'|]; cbn [fmap option_fmap option_map].
    + unfold edges_of.
      rewrite <- !(present_standardize d').
      unfold present at 1 2.
      destruct (column (standardize d') "EmployeeID") as [eids|];
        [|by rewrite bool_decide_eq_false_2 by (by intros [? ?])].
      rewrite (bool_decide_eq_true_2 (is_Some (Some eids))) by done.
      destruct (column (standardize d') "ManagerID") as [mgrs|] eqn:Hm;
        [|by rewrite bool_decide_eq_false_2 by (by intros [? ?])].
      rewrite (bool_decide_eq_true_2 (is_Some (Some mgrs))) by done.
      cbn [negb obind fst snd].
      fold (present (standardize d') "JobRole").
      match goal with
      | |- context [run set_iter ?sh tg ss] => set (sheets := sh)
      end.
      pose proof (run_ending set_iter sheets tg ss et Hperm eq_refl) as Hend.
      cbn [edges edges_has_JobRole sheets] in Hend.
      rewrite Hdr, Hrole, Hlen in Hend.
      destruct (run set_iter sheets tg ss) as [[rep|m|e|] ss'];
        cbn [fst] in *.
      * destruct Hend as (_ & -> & Hne & Hnorole & ->).
        rewrite bool_decide_eq_false_2.
        -- destruct Hnorole as [?|[-> | ->]]; [done|done|].
           by rewrite andb_false_r.
        -- intros Hz. apply Hne, nil_length_inv. by rewrite Hlen.
      * by destruct Hend as [? _].
      * destruct Hend as (_ & -> & Hcases).
        destruct (present df "DirectReports"); [done|].
        destruct (bool_decide (length (cells ids) = 0)) eqn:Hz; [done|].
        destruct Hcases as [?|[Hnil|(_ & -> & ->)]]; [done| |done].
        apply bool_decide_eq_false in Hz. destruct Hz.
        by rewrite <- Hlen, Hnil.
      * done.
    + cbn [obind fst snd].
      match goal with
      | |- context [run set_iter ?sh tg ss] => set (sheets := sh)
      end.
      pose proof (run_ending set_iter sheets tg ss et Hperm eq_refl) as Hend.
      cbn [edges edges_has_JobRole sheets] in Hend.
      rewrite Hdr, Hmgr, Hlen in Hend.
      destruct (run set_iter sheets tg ss) as [[rep|m|e|] ss'];
        cbn [fst] in *.
      * destruct Hend as ([?| ->] & -> & Hne & _ & ->); [done|].
        cbn [negb]. rewrite bool_decide_eq_false_2; [done|].
        intros Hz. apply Hne, nil_length_inv. by rewrite Hlen.
      * by destruct Hend as (_ & -> & ->).
      * destruct Hend as ([?| ->] & -> & Hcases); [done|]. cbn [negb].
        destruct (present df "DirectReports"); [done|].
        destruct (bool_decide (length (cells ids) = 0)) eqn:Hz; [done|].
        destruct Hcases as [?|[Hnil|(? & _)]]; [done| |done].
        apply bool_decide_eq_false in Hz. destruct Hz.
        by rewrite <- Hlen, Hnil.
      * done.
Qed.

Lemma run_ends_witness :
  (app elements (Some xlsx_two_roles) default_targets fresh_session).1
    = Raised (key_error "JobRole") ∧
  ∃ rep,
    (app elements (Some csv_upload) default_targets fresh_session).1
      = Returned rep ∧
    length (emp rep) = 4.
Proof.
  destruct (run_ends elements default_targets fresh_session
              (λ s, reflexivity _)) as (_ & _ & _ & Hend).
  split.
  - assert (Hfirst : first_sheet book_two_roles "employees" "Employees"
                       [text_column "EmployeeID" ["A"; "B"];
                        text_column "JobRole" ["Head"; "Analyst"]]).
    { eexists [], [_]. split_and!; [reflexivity|by exists "", ""|].
      by intros ?? ?%elem_of_nil. }
    assert (Hedges : edges_frame book_two_roles
                       (Some [text_column "EmployeeID" ["B"];
                              text_column "ManagerID" ["A"];
                              text_column "JobRole" ["Analyst"]])).
    { exists "OrgEdges". eexists [_], []. split_and!; [reflexivity| |].
      - by exists "", "".
      - intros k df [= -> ->]%list_elem_of_singleton Hc.
        unfold carries in Hc. apply contains_spec in Hc.
        by vm_compute in Hc. }
    pose proof (Hend xlsx_two_roles book_two_roles _ _ _
                  eq_refl Hfirst Hedges) as H.
    change (ending_of _ _) with (Raises (key_error "JobRole")) in H.
    destruct (app elements (Some xlsx_two_roles) default_targets
                fresh_session).1; [done|done| |done].
    by rewrite H.
  - assert (Hfirst : first_sheet [("Employees", csv_roster)] "employees"
                       "Employees" csv_roster).
    { exists [], []. split_and!;
        [done|by exists "", ""|by intros ?? ?%elem_of_nil]. }
    assert (Hedges : edges_frame [("Employees", csv_roster)] None).
    { intros k df [= -> ->]%list_elem_of_singleton Hc.
      unfold carries in Hc. apply contains_spec in Hc.
      by vm_compute in Hc. }
    pose proof (Hend csv_upload [("Employees", csv_roster)] _ _ _
                  eq_refl Hfirst Hedges) as H.
    change (ending_of _ _) with Completes in H.
    destruct (app elements (Some csv_upload) default_targets
                fresh_session).1 as [rep| | |]; [|done..].
    by exists rep.
Defined.
